(** * Linguistics (brackets-spellcheck): the spelling core, embedded in Rocq

    A shallow embedding of the modules that decide whether a word is
    flagged as misspelled:

    - [StringUtils]       -- src/utils/Strings.js
    - [ProfileManager]    -- src/spelling/ProfileManager.js
    - [UtilityManager]    -- src/spelling/UtilityManager.js
    - [DictionaryManager] -- src/spelling/DictionaryManager.js
    - [SpellChecker]      -- src/spelling/SpellChecker.js

    Conventions of the embedding.

    - A JavaScript string is a [string]; its characters are ASCII.  The two
      non-ASCII word separators of Strings.js (U+220E and U+00AE) and the
      Unicode case mappings are outside the alphabet of the model.
    - JavaScript objects used as maps ([_dictionaries], [_availableProfiles],
      [_dictionariesBeingLoaded]) are [gmap]s / [gset]s keyed by [string].
    - [null] is [None]; a value that is [true], [false] or [null] is an
      [option bool].
    - Module-level variables are fields of one [World] record which every
      function threads explicitly; a function that can raise a [TypeError]
      returns a [Result].
    - The Typo library (thirdparty/typo) is the opaque Lexicon collaborator:
      a [Lexicon] is a pair of functions, and the constructor [new Typo] is a
      section variable.
    - Asynchronous file reads are events: the two completion callbacks of
      [_initializeDictionaryData] are functions [affixReadCallback] and
      [dictionaryReadCallback] that the environment invokes later.
    - [console] output is not modelled. *)

From Stdlib Require Import String Ascii List Bool Arith NArith Lia.
From stdpp Require Import base option gmap strings list.
Import ListNotations.

Local Open Scope string_scope.
Local Open Scope list_scope.

(** ** JavaScript built-ins used by the sources (ECMAScript semantics, ASCII) *)

Module JS.

Definition code (c : ascii) : N := N_of_ascii c.

Definition between (lo hi : N) (c : ascii) : bool :=
  (N.leb lo (code c)) && (N.leb (code c) hi).

(** [A-Z] *)
Definition isUpperAZ (c : ascii) : bool := between 65 90 c.
(** [a-z] *)
Definition isLowerAZ (c : ascii) : bool := between 97 122 c.
(** [0-9] *)
Definition isDigit (c : ascii) : bool := between 48 57 c.
(** the regular-expression class \w *)
Definition isWordChar (c : ascii) : bool :=
  isUpperAZ c || isLowerAZ c || isDigit c || Ascii.eqb c "_"%char.
(** the class \s, which is also StrWhiteSpaceChar: TAB LF VT FF CR SP *)
Definition isWhiteSpace (c : ascii) : bool :=
  between 9 13 c || Ascii.eqb c " "%char.

(** The alphabet of the model: the 128 ASCII characters.  The other 128
    values of [ascii] stand for no JavaScript character. *)
Definition isAscii (c : ascii) : bool := N.ltb (code c) 128.

(** The case mappings, on the ASCII characters.  On the values outside
    the alphabet they are the identity, which is not what JavaScript does
    to the characters beyond ASCII; a statement whose truth depends on the
    case of a character says that the character is [isAscii]. *)
Definition toUpperCaseChar (c : ascii) : ascii :=
  if isLowerAZ c then ascii_of_N (code c - 32) else c.
Definition toLowerCaseChar (c : ascii) : ascii :=
  if isUpperAZ c then ascii_of_N (code c + 32) else c.

(** The SyntaxCharacter set of regular expressions. *)
Definition isSyntaxCharacter (c : ascii) : bool :=
  existsb (Ascii.eqb c)
    ["^"; "$"; "\"; "."; "*"; "+"; "?"; "("; ")"; "["; "]"; "{"; "}"; "|"]%char.

Fixpoint mapChars (f : ascii -> ascii) (s : string) : string :=
  match s with
  | EmptyString => EmptyString
  | String c r => String (f c) (mapChars f r)
  end.

(** String.prototype.toUpperCase / toLowerCase *)
Definition toUpperCase : string -> string := mapChars toUpperCaseChar.
Definition toLowerCase : string -> string := mapChars toLowerCaseChar.

(** [s.indexOf(sub) !== -1] *)
Fixpoint includes (s sub : string) : bool :=
  String.prefix sub s ||
  match s with
  | EmptyString => false
  | String _ r => includes r sub
  end.

(** [arr.indexOf(x) > -1] on an array of strings (strict equality) *)
Definition inArray (x : string) (arr : list string) : bool :=
  existsb (String.eqb x) arr.

(** [x === true] and [x === null] for a value that is [true], [false]
    or [null] *)
Definition isTrue (x : option bool) : bool :=
  match x with Some true => true | _ => false end.
Definition isNull {A} (x : option A) : bool :=
  match x with None => true | Some _ => false end.

(** [x !== null] *)
Definition notNull {A} (x : option A) : bool :=
  match x with Some _ => true | None => false end.

(** [s.substr(start, len)] for in-range arguments *)
Definition substr (start len : nat) (s : string) : string :=
  String.substring start len s.

(** [s.split] on the empty separator: the characters of [s] *)
Fixpoint chars (s : string) : list ascii :=
  match s with
  | EmptyString => []
  | String c r => c :: chars r
  end.

(** ** parseFloat

    ECMAScript [parseFloat(string)]: leading StrWhiteSpaceChar are dropped,
    then the longest prefix that is a StrDecimalLiteral is converted; the
    result is NaN exactly when no prefix is one.  A StrDecimalLiteral is an
    optional sign followed by [Infinity], by a digit, or by a full stop and
    a digit (anything after that only lengthens the prefix). *)
Fixpoint skipWhiteSpace (s : string) : string :=
  match s with
  | EmptyString => EmptyString
  | String c r => if isWhiteSpace c then skipWhiteSpace r else s
  end.

Definition skipSign (s : string) : string :=
  match s with
  | String c r =>
      if Ascii.eqb c "+"%char || Ascii.eqb c "-"%char then r else s
  | EmptyString => EmptyString
  end.

Definition startsUnsignedDecimal (s : string) : bool :=
  String.prefix "Infinity" s ||
  match s with
  | String c r =>
      isDigit c ||
      (Ascii.eqb c "."%char &&
       match r with String d _ => isDigit d | EmptyString => false end)
  | EmptyString => false
  end.

(** [isNaN(parseFloat(s))] *)
Definition parseFloat_isNaN (s : string) : bool :=
  negb (startsUnsignedDecimal (skipSign (skipWhiteSpace s))).

End JS.

(** ** src/utils/Strings.js *)

Module StringUtils.
Import JS.

Definition dquote : ascii := "034"%char.
Definition squote : ascii := "'"%char.

(** [_wordSeparators], ASCII part: the punctuation marks written below
    (the second one is the double quote) and the space.  The apostrophe,
    the digits and the tab are not in it. *)
Definition _wordSeparators : string :=
  String "!"%char (String dquote "#$%&()*+,-./:;<=>?@[\]^_`{|}~ ").

(** [isString(data)] on the result of [stream.peek()], which is a
    one-character string or [undefined]. *)
Definition isString (data : option ascii) : bool :=
  match data with Some _ => true | None => false end.

(** [contains(needle, haystack)] for two strings: despite the parameter
    names, the code looks for [haystack] inside [needle.toLowerCase()]. *)
Definition contains (needle haystack : string) : bool :=
  includes (toLowerCase needle) haystack.

(** [isWordSeparator(char)]; for [undefined], [contains] takes its
    not-a-string branch and answers [false]. *)
Definition isWordSeparator (char : option ascii) : bool :=
  match char with
  | Some c => contains _wordSeparators (String c EmptyString)
  | None => false
  end.

(** Brackets' [StringUtils.startsWith] / [endsWith]. *)
Definition startsWith (str prefix : string) : bool := String.prefix prefix str.

Definition endsWith (str suffix : string) : bool :=
  (String.length suffix <=? String.length str)%nat &&
  String.eqb
    (substr (String.length str - String.length suffix) (String.length suffix) str)
    suffix.

(** [trimChar(string, char)] for an ASCII [char] that is no syntax
    character of regular expressions (both call sites pass a quote):
    [^char+] removes the leading run of [char], [char+$] the trailing run.
    The source hands its escaping pattern to [replace] as a string, which
    escapes nothing, so the two expressions are built from [char] as it
    is: for a character that is [JS.isSyntaxCharacter] they are other
    expressions, or none, and the definition below does not describe
    them. *)
Fixpoint dropLeading (c : ascii) (s : string) : string :=
  match s with
  | EmptyString => EmptyString
  | String a r => if Ascii.eqb a c then dropLeading c r else s
  end.

Fixpoint dropTrailing (c : ascii) (s : string) : string :=
  match s with
  | EmptyString => EmptyString
  | String a r =>
      match dropTrailing c r with
      | EmptyString => if Ascii.eqb a c then EmptyString else String a EmptyString
      | r' => String a r'
      end
  end.

Definition trimChar (s : string) (char : ascii) : string :=
  dropTrailing char (dropLeading char s).

(** The replacement callback of [toCamelCase]: [+match === 0] holds for
    the digit zero and for white space. *)
Definition camelReplace (c : ascii) (index : nat) : string :=
  if Ascii.eqb c "0"%char || isWhiteSpace c then EmptyString
  else if (index =? 0)%nat then String (toLowerCaseChar c) EmptyString
  else String (toUpperCaseChar c) EmptyString.

(** [string.replace(/(?:^\w|[A-Z]|\b\w|\s+)/g, callback)].  [prev] is the
    character before position [index].  A run matched by [\s+] is
    replaced by the empty string as a whole; replacing its characters one
    by one gives the same output. *)
Fixpoint toCamelCase_from (index : nat) (prev : option ascii) (s : string) : string :=
  match s with
  | EmptyString => EmptyString
  | String c r =>
      let atStart := (index =? 0)%nat in
      let boundary := match prev with Some p => negb (isWordChar p) | None => true end in
      let matched :=
        (atStart && isWordChar c) || isUpperAZ c
        || (boundary && isWordChar c) || isWhiteSpace c in
      let rest := toCamelCase_from (S index) (Some c) r in
      if matched then String.append (camelReplace c index) rest
      else String c rest
  end.

Definition toCamelCase (s : string) : string := toCamelCase_from 0 None s.

(** [occurrences(string, subString, allowOverlapping)]: the [indexOf]
    loop, as a scan that skips [step - 1] further characters after a hit. *)
Fixpoint occurrences_scan (skip step : nat) (sub s : string) : nat :=
  match s with
  | EmptyString => 0
  | String _ r =>
      match skip with
      | S k => occurrences_scan k step sub r
      | O =>
          if String.prefix sub s
          then S (occurrences_scan (step - 1) step sub r)
          else occurrences_scan 0 step sub r
      end
  end.

Definition occurrences (s sub : string) (allowOverlapping : bool) : nat :=
  if (String.length sub <=? 0)%nat then String.length s + 1
  else occurrences_scan 0 (if allowOverlapping then 1 else String.length sub) sub s.

(** [isCamelCase(string)] *)
Fixpoint spaceOutUpper (s : string) : string :=
  match s with
  | EmptyString => EmptyString
  | String c r =>
      if Ascii.eqb (toUpperCaseChar c) c
      then String " "%char (String (toLowerCaseChar c) (spaceOutUpper r))
      else String c (spaceOutUpper r)
  end.

Definition isCamelCase (s : string) : bool :=
  let _tempString := spaceOutUpper s in
  let _numberOfSpaces := occurrences _tempString " " false in
  if (_numberOfSpaces =? 0)%nat then false
  else if String.eqb (toCamelCase _tempString) s then true
  else false.

(** [string.split(/(?=[A-Z])/)]: a cut before every [A-Z] that is not the
    first character; the empty string gives one empty part. *)
Fixpoint splitBefore (s : string) : string * list string :=
  match s with
  | EmptyString => (EmptyString, [])
  | String c r =>
      let '(cur, parts) := splitBefore r in
      match r with
      | String d _ =>
          if isUpperAZ d then (String c EmptyString, cur :: parts)
          else (String c cur, parts)
      | EmptyString => (String c EmptyString, parts)
      end
  end.

Definition splitByUpperCase (s : string) : list string :=
  let '(cur, parts) := splitBefore s in cur :: parts.

End StringUtils.


(** ** src/spelling/ProfileManager.js *)

Module ProfileManager.

(** One entry of a profile's [items]; [type] is ["dictionary"],
    ["utility"] or ["programming"]. *)
Record ProfileItem := {
  name : string;
  type : string
}.

Record Profile := {
  profile : string;
  items : list ProfileItem
}.

(** Module variables.  Once [_initialized], [_availableProfiles] is the
    null-prototype object built by [_findUserProfiles], and the map below
    is that object.  Before that it is the array [[]], which answers
    [length] and the names an array inherits; the empty map answers no
    name, and so agrees with the array only on the names that an array
    does not define (the locale and profile names of the fixtures are
    such names).  A statement about [hasProfile] for an arbitrary name
    assumes [_initialized]. *)
Record State := {
  _availableProfiles : gmap string Profile;
  _initialized : bool
}.

Definition initial : State :=
  {| _availableProfiles := ∅; _initialized := false |}.

Definition hasProfile (st : State) (profileName : string) : bool :=
  match _availableProfiles st !! profileName with
  | None => false
  | Some _ => true
  end.

(** [null] is [None]. *)
Definition getProfileItems (st : State) (profileName : string)
  : option (list ProfileItem) :=
  if _initialized st && hasProfile st profileName then
    match _availableProfiles st !! profileName with
    | Some p => Some (items p)
    | None => None
    end
  else None.

(** The [done] handler of [_initialize]: the profiles found on disk
    replace [_availableProfiles]. *)
Definition userProfilesFound (userProfiles : gmap string Profile) (st : State) : State :=
  {| _availableProfiles := userProfiles; _initialized := true |}.

End ProfileManager.

(** ** src/spelling/UtilityManager.js *)

Module UtilityManager.
Import JS.

(** A parsed ignore-rule file.  An absent property is [None]. *)
Record IgnoreList := {
  ignore : list string;
  ignoreAfter : option string;
  ignoreMode : option (list string);
  ignoreWhenDocumentContains : option (list string);
  mustBeManuallyLoaded : option bool
}.

Record State := {
  _currentModeName : option string;
  _currentDocumentContents : option string;
  _alwaysIgnoreFiles : list IgnoreList;
  _alwaysIgnoreCachedList : list string;
  _ignoreOnlyWithCondition : list IgnoreList
}.

Definition initial : State :=
  {| _currentModeName := Some "Mode.all";
     _currentDocumentContents := None;
     _alwaysIgnoreFiles := [];
     _alwaysIgnoreCachedList := ["alice"];
     _ignoreOnlyWithCondition := [] |}.

(** [typeof data[c] !== "undefined" && data[c].length > 0] for the three
    names of [_validConditionProperties], in order. *)
Definition nonEmptyString (o : option string) : bool :=
  match o with Some s => (0 <? String.length s)%nat | None => false end.

Definition nonEmptyArray {A} (o : option (list A)) : bool :=
  match o with Some l => (0 <? length l)%nat | None => false end.

Definition _containsCondition (data : IgnoreList) : bool :=
  if nonEmptyString (ignoreAfter data) then true
  else if nonEmptyArray (ignoreMode data) then true
  else if nonEmptyArray (ignoreWhenDocumentContains data) then true
  else false.

(** [Array.prototype.concat]: returns a new array, the receiver is not
    changed. *)
Definition concat (receiver other : list string) : list string :=
  receiver ++ other.

(** [_loadUtilityFile(err, data, stats)], with [data] already parsed.  In
    the unconditional branch the value of
    [_alwaysIgnoreCachedList.concat(utilityData.ignore)] is computed and
    dropped: the expression is a statement of its own, and the variable
    is not assigned. *)
Definition _loadUtilityFile (err : bool) (utilityData : IgnoreList) (st : State) : State :=
  if negb err then
    if negb (_containsCondition utilityData) then
      let _dropped := concat (_alwaysIgnoreCachedList st) (ignore utilityData) in
      {| _currentModeName := _currentModeName st;
         _currentDocumentContents := _currentDocumentContents st;
         _alwaysIgnoreFiles := _alwaysIgnoreFiles st ++ [utilityData];
         _alwaysIgnoreCachedList := _alwaysIgnoreCachedList st;
         _ignoreOnlyWithCondition := _ignoreOnlyWithCondition st |}
    else
      {| _currentModeName := _currentModeName st;
         _currentDocumentContents := _currentDocumentContents st;
         _alwaysIgnoreFiles := _alwaysIgnoreFiles st;
         _alwaysIgnoreCachedList := _alwaysIgnoreCachedList st;
         _ignoreOnlyWithCondition := _ignoreOnlyWithCondition st ++ [utilityData] |}
  else st.

(** [_loadUtilityFiles]: every file read ends in [_loadUtilityFile]. *)
Definition _loadUtilityFiles (files : list (bool * IgnoreList)) (st : State) : State :=
  fold_left (fun acc f => _loadUtilityFile (fst f) (snd f) acc) files st.

Definition modeList (l : IgnoreList) : list string :=
  match ignoreMode l with Some m => m | None => [] end.

Definition _isValidMode (st : State) (ignoreList : IgnoreList) : bool :=
  inArray "Mode.all" (modeList ignoreList)
  || match _currentModeName st with
     | Some m => inArray m (modeList ignoreList)
     | None => false
     end
  || (match _currentModeName st with
      | None => true
      | Some m => String.eqb m "null"
      end && inArray "Mode.all" (modeList ignoreList)).

Definition _utilityMustBeLoadedManually (ignoreList : IgnoreList) : bool :=
  match mustBeManuallyLoaded ignoreList with
  | Some true => true
  | _ => false
  end.

(** Returns [true] or [null]. *)
Definition _checkIgnoreAfter (ignoreList : IgnoreList) (beforeContext word : string)
  : option bool :=
  match ignoreAfter ignoreList with
  | Some after =>
      if (0 <? String.length after)%nat
         && String.eqb after beforeContext && inArray word (ignore ignoreList)
      then Some true else None
  | None => None
  end.

(** Returns [true] or [null]. *)
Definition _shouldWordBeIgnoredBasedOnDocumentContents
    (st : State) (ignoreList : IgnoreList) (word : string) : option bool :=
  match ignoreWhenDocumentContains ignoreList, _currentDocumentContents st with
  | Some needles, Some contents =>
      if existsb (fun needle => includes contents needle
                                && inArray word (ignore ignoreList)) needles
      then Some true else None
  | _, _ => None
  end.

Fixpoint _shouldWordBeIgnoredWithContext_loop
    (st : State) (lists : list IgnoreList) (word beforeContext : string) : bool :=
  match lists with
  | [] => false
  | ignoreList :: rest =>
      if notNull (_checkIgnoreAfter ignoreList beforeContext word) then true
      else if nonEmptyArray (ignoreMode ignoreList)
              && _isValidMode st ignoreList
              && negb (_utilityMustBeLoadedManually ignoreList)
      then
        if notNull (_checkIgnoreAfter ignoreList beforeContext word) then true
        else if notNull (_shouldWordBeIgnoredBasedOnDocumentContents st ignoreList word)
        then true
        else if inArray word (ignore ignoreList) then true
        else _shouldWordBeIgnoredWithContext_loop st rest word beforeContext
      else _shouldWordBeIgnoredWithContext_loop st rest word beforeContext
  end.

Definition _shouldWordBeIgnoredWithContext (st : State) (word beforeContext : string) : bool :=
  _shouldWordBeIgnoredWithContext_loop st (_ignoreOnlyWithCondition st) word beforeContext.

(** [shouldIgnore(word, beforeContext)]; [beforeContext] is always a
    string at the one call site. *)
Definition shouldIgnore (st : State) (word beforeContext : string) : bool :=
  if inArray word (_alwaysIgnoreCachedList st) then true
  else if (String.length beforeContext =? 0)%nat then false
  else _shouldWordBeIgnoredWithContext st word beforeContext.

Definition setModeName (mode : option string) (st : State) : State :=
  {| _currentModeName := mode;
     _currentDocumentContents := _currentDocumentContents st;
     _alwaysIgnoreFiles := _alwaysIgnoreFiles st;
     _alwaysIgnoreCachedList := _alwaysIgnoreCachedList st;
     _ignoreOnlyWithCondition := _ignoreOnlyWithCondition st |}.

Definition setDocumentContents (contents : option string) (st : State) : State :=
  {| _currentModeName := _currentModeName st;
     _currentDocumentContents := contents;
     _alwaysIgnoreFiles := _alwaysIgnoreFiles st;
     _alwaysIgnoreCachedList := _alwaysIgnoreCachedList st;
     _ignoreOnlyWithCondition := _ignoreOnlyWithCondition st |}.

End UtilityManager.

(** ** The Lexicon collaborator (thirdparty/typo)

    What the core uses of a Typo instance: [typo.check(word)] and
    [typo.suggest(word)]. *)

Record Lexicon := {
  lex_check : string -> bool;
  lex_suggest : string -> list string
}.

(** ** Module-level variables of DictionaryManager.js and SpellChecker.js *)

(** An object stored in [_dictionaries].  [dictionaryLoaded] and
    [affixLoaded] are [false] while the read is pending, [true] after a
    successful read and [null] after a failed one. *)
Record DictEntry := {
  initialized : bool;
  dictionaryLoaded : option bool;
  affixLoaded : option bool;
  affixData : option string;
  dictionaryData : option string;
  typo : option Lexicon;
  locale : string
}.

Definition set_initialized (b : bool) (e : DictEntry) : DictEntry :=
  {| initialized := b; dictionaryLoaded := dictionaryLoaded e;
     affixLoaded := affixLoaded e; affixData := affixData e;
     dictionaryData := dictionaryData e; typo := typo e; locale := locale e |}.
Definition set_dictionaryLoaded (v : option bool) (e : DictEntry) : DictEntry :=
  {| initialized := initialized e; dictionaryLoaded := v;
     affixLoaded := affixLoaded e; affixData := affixData e;
     dictionaryData := dictionaryData e; typo := typo e; locale := locale e |}.
Definition set_affixLoaded (v : option bool) (e : DictEntry) : DictEntry :=
  {| initialized := initialized e; dictionaryLoaded := dictionaryLoaded e;
     affixLoaded := v; affixData := affixData e;
     dictionaryData := dictionaryData e; typo := typo e; locale := locale e |}.
Definition set_affixData (v : option string) (e : DictEntry) : DictEntry :=
  {| initialized := initialized e; dictionaryLoaded := dictionaryLoaded e;
     affixLoaded := affixLoaded e; affixData := v;
     dictionaryData := dictionaryData e; typo := typo e; locale := locale e |}.
Definition set_dictionaryData (v : option string) (e : DictEntry) : DictEntry :=
  {| initialized := initialized e; dictionaryLoaded := dictionaryLoaded e;
     affixLoaded := affixLoaded e; affixData := affixData e;
     dictionaryData := v; typo := typo e; locale := locale e |}.
Definition set_typo (v : option Lexicon) (e : DictEntry) : DictEntry :=
  {| initialized := initialized e; dictionaryLoaded := dictionaryLoaded e;
     affixLoaded := affixLoaded e; affixData := affixData e;
     dictionaryData := dictionaryData e; typo := v; locale := locale e |}.

Module DictionaryManagerState.
Record Vars := {
  _defaultLocale : string;
  _dictionaries : gmap string DictEntry;
  _dictionariesBeingLoaded : gset string
}.

Definition initial : Vars :=
  {| _defaultLocale := "en_US"; _dictionaries := ∅; _dictionariesBeingLoaded := ∅ |}.
End DictionaryManagerState.

Module SpellCheckerState.
Record Vars := {
  _localeName : option string;
  _spellingIgnoreUppercase : bool;
  _initialized : bool;
  _currentMode : option string;
  _lastWordSeparatorDirty : bool;
  _lastWordSeparator : string
}.

Definition initial : Vars :=
  {| _localeName := None; _spellingIgnoreUppercase := true; _initialized := false;
     _currentMode := Some "Mode.all";
     _lastWordSeparatorDirty := true; _lastWordSeparator := "" |}.
End SpellCheckerState.

(** Notifications dispatched by DictionaryManager. *)
Inductive Notification :=
| dictionaryLoaded_event (localeName : string)
| dictionaryUnloaded_event (localeName : string)
| dictionariesUnloaded_event
| dictionaryFailedToLoad_event (localeName : string).

(** What the modules do to their collaborators, in the order it happens. *)
Inductive Effect :=
| Trigger (n : Notification)
| NewTypo (localeName : string) (affixData dictionaryData : option string)
| ShowBusyIndicator
| HideBusyIndicator
| FileRead (path : string).

Record World := {
  dictionaryManager : DictionaryManagerState.Vars;
  profileManager : ProfileManager.State;
  utilityManager : UtilityManager.State;
  spellChecker : SpellCheckerState.Vars;
  effects : list Effect
}.

Definition initialWorld : World :=
  {| dictionaryManager := DictionaryManagerState.initial;
     profileManager := ProfileManager.initial;
     utilityManager := UtilityManager.initial;
     spellChecker := SpellCheckerState.initial;
     effects := [] |}.

Definition withDictionaryManager (f : DictionaryManagerState.Vars -> DictionaryManagerState.Vars)
    (w : World) : World :=
  {| dictionaryManager := f (dictionaryManager w); profileManager := profileManager w;
     utilityManager := utilityManager w; spellChecker := spellChecker w;
     effects := effects w |}.

Definition withProfileManager (f : ProfileManager.State -> ProfileManager.State)
    (w : World) : World :=
  {| dictionaryManager := dictionaryManager w; profileManager := f (profileManager w);
     utilityManager := utilityManager w; spellChecker := spellChecker w;
     effects := effects w |}.

Definition withUtilityManager (f : UtilityManager.State -> UtilityManager.State)
    (w : World) : World :=
  {| dictionaryManager := dictionaryManager w; profileManager := profileManager w;
     utilityManager := f (utilityManager w); spellChecker := spellChecker w;
     effects := effects w |}.

Definition withSpellChecker (f : SpellCheckerState.Vars -> SpellCheckerState.Vars)
    (w : World) : World :=
  {| dictionaryManager := dictionaryManager w; profileManager := profileManager w;
     utilityManager := utilityManager w; spellChecker := f (spellChecker w);
     effects := effects w |}.

Definition withEffect (e : Effect) (w : World) : World :=
  {| dictionaryManager := dictionaryManager w; profileManager := profileManager w;
     utilityManager := utilityManager w; spellChecker := spellChecker w;
     effects := effects w ++ [e] |}.

(** ** Computations: state passing, with uncaught exceptions *)

Inductive JsError := TypeError.

Inductive Result (A : Type) :=
| Ok (a : A) (w : World)
| Throw (e : JsError).
Arguments Ok {A} a w.
Arguments Throw {A} e.

Definition M (A : Type) : Type := World -> Result A.

Definition ret {A} (a : A) : M A := fun w => Ok a w.

Definition bind {A B} (m : M A) (k : A -> M B) : M B :=
  fun w => match m w with
           | Ok a w' => k a w'
           | Throw e => Throw e
           end.

Definition throw {A} (e : JsError) : M A := fun _ => Throw e.
Definition gets {A} (f : World -> A) : M A := fun w => Ok (f w) w.
Definition modify (f : World -> World) : M unit := fun w => Ok tt (f w).

Notation "'let!' x ':=' m 'in' k" := (bind m (fun x => k))
  (at level 10, x name, m at level 100, k at level 200).
Notation "'do!' m 'in' k" := (bind m (fun _ => k))
  (at level 10, m at level 100, k at level 200).

(** The world a computation ends in, and its value. *)
Definition worldOf {A} (r : Result A) : option World :=
  match r with Ok _ w => Some w | Throw _ => None end.
Definition valueOf {A} (r : Result A) : option A :=
  match r with Ok a _ => Some a | Throw _ => None end.

(** ** src/spelling/DictionaryManager.js *)

Module DictionaryManager.
Import DictionaryManagerState.

Definition dictionaries (w : World) : gmap string DictEntry :=
  _dictionaries (dictionaryManager w).
Definition beingLoaded (w : World) : gset string :=
  _dictionariesBeingLoaded (dictionaryManager w).

Definition setDictionaries (f : gmap string DictEntry -> gmap string DictEntry)
    (w : World) : World :=
  withDictionaryManager (fun v =>
    {| _defaultLocale := _defaultLocale v;
       _dictionaries := f (_dictionaries v);
       _dictionariesBeingLoaded := _dictionariesBeingLoaded v |}) w.

Definition setBeingLoaded (f : gset string -> gset string) (w : World) : World :=
  withDictionaryManager (fun v =>
    {| _defaultLocale := _defaultLocale v;
       _dictionaries := _dictionaries v;
       _dictionariesBeingLoaded := f (_dictionariesBeingLoaded v) |}) w.

(** Reading [_dictionaries[localeName].field]: a [TypeError] when the
    entry is [undefined]. *)
Definition entryOf (localeName : string) : M DictEntry :=
  fun w => match dictionaries w !! localeName with
           | Some e => Ok e w
           | None => Throw TypeError
           end.

(** Assigning [_dictionaries[localeName].field = v]. *)
Definition assignEntry (localeName : string) (f : DictEntry -> DictEntry) : M unit :=
  fun w => match dictionaries w !! localeName with
           | Some e => Ok tt (setDictionaries (insert localeName (f e)) w)
           | None => Throw TypeError
           end.

Definition effect (e : Effect) : M unit := modify (withEffect e).

(** [hasDictionariesLoaded()] *)
Definition hasDictionariesLoaded (w : World) : bool :=
  (0 <? size (dictionaries w))%nat.

(** The three handlers that SpellChecker.js registers with
    [DictionaryManager.on] when it is loaded. *)
Definition setInitialized (b : bool) (w : World) : World :=
  withSpellChecker (fun v =>
    {| SpellCheckerState._localeName := SpellCheckerState._localeName v;
       SpellCheckerState._spellingIgnoreUppercase := SpellCheckerState._spellingIgnoreUppercase v;
       SpellCheckerState._initialized := b;
       SpellCheckerState._currentMode := SpellCheckerState._currentMode v;
       SpellCheckerState._lastWordSeparatorDirty := SpellCheckerState._lastWordSeparatorDirty v;
       SpellCheckerState._lastWordSeparator := SpellCheckerState._lastWordSeparator v |}) w.

Definition listeners (n : Notification) (w : World) : World :=
  match n with
  | dictionariesUnloaded_event => setInitialized false w
  | dictionaryUnloaded_event _ => setInitialized (hasDictionariesLoaded w) w
  | dictionaryLoaded_event _ => setInitialized true w
  | dictionaryFailedToLoad_event _ => w
  end.

(** [exports.trigger(name, arg)]: the handlers run before [trigger]
    returns. *)
Definition trigger (n : Notification) : M unit :=
  do! effect (Trigger n) in modify (listeners n).

(** [getDictionary(localeName)]: [null] is [None]. *)
Definition getDictionary (localeName : string) : M (option DictEntry) :=
  let! e := entryOf localeName in
  if negb (initialized e) then ret None else ret (Some e).

Definition unloadDictionary (localeName : string) : M unit :=
  do! modify (setDictionaries (delete localeName)) in
  trigger (dictionaryUnloaded_event localeName).

Definition hasDictionary (localeName : string) (safeMode : bool) (w : World) : bool :=
  match dictionaries w !! localeName with
  | None => false
  | Some e => if negb safeMode then true else initialized e
  end.

(** src/utils/Dictionary.js *)
Definition getNaturalLanguageDirectory : string := "natural-languages".
Definition _getDictionaryFilePath (name extension : string) : string :=
  String.append getNaturalLanguageDirectory
    (String.append "/" (String.append name
      (String.append "/" (String.append name (String.append "." extension))))).
Definition getAffixFile (localeName : string) : string :=
  _getDictionaryFilePath localeName "aff".
Definition getDictionaryFile (localeName : string) : string :=
  _getDictionaryFilePath localeName "dic".

(** Brackets' [FileSystem.getFileForPath] always returns a File object. *)
Definition getFileForPath (path : string) : option string := Some path.

(** The outcome of [file.read]: [err === null] with the data, or an
    error. *)
Inductive ReadResult :=
| ReadOk (data : string)
| ReadError.

Section WithTypo.

(** [new Typo(localeName, affixData, dictionaryData)] *)
Variable Typo : string -> option string -> option string -> Lexicon.

Definition _performTypoInitializationOnLocale (localeName : string) : M unit :=
  let! e := entryOf localeName in
  if JS.isTrue (affixLoaded e) && JS.isTrue (dictionaryLoaded e)
  then
    do! effect (NewTypo localeName (affixData e) (dictionaryData e)) in
    do! assignEntry localeName
          (set_typo (Some (Typo localeName (affixData e) (dictionaryData e)))) in
    do! assignEntry localeName (set_initialized true) in
    do! effect HideBusyIndicator in
    do! modify (setBeingLoaded (fun s => s ∖ {[localeName]})) in
    trigger (dictionaryLoaded_event localeName)
  else ret tt.

Definition _checkDictionaryForCleanUp (localeName : string) : M unit :=
  let! e := entryOf localeName in
  if JS.isNull (affixLoaded e) && JS.isNull (dictionaryLoaded e)
  then
    do! unloadDictionary localeName in
    do! modify (setBeingLoaded (fun s => s ∖ {[localeName]})) in
    do! effect HideBusyIndicator in
    trigger (dictionaryFailedToLoad_event localeName)
  else ret tt.

(** The callback that [_initializeDictionaryData] passes to
    [affixFile.read]. *)
Definition affixReadCallback (localeName : string) (r : ReadResult) : M unit :=
  match r with
  | ReadOk data =>
      do! assignEntry localeName (set_affixData (Some data)) in
      do! assignEntry localeName (set_affixLoaded (Some true)) in
      _performTypoInitializationOnLocale localeName
  | ReadError =>
      do! assignEntry localeName (set_affixLoaded None) in
      _checkDictionaryForCleanUp localeName
  end.

(** The callback that [_initializeDictionaryData] passes to
    [dictionaryFile.read]. *)
Definition dictionaryReadCallback (localeName : string) (r : ReadResult) : M unit :=
  match r with
  | ReadOk data =>
      do! assignEntry localeName (set_dictionaryData (Some data)) in
      do! assignEntry localeName (set_dictionaryLoaded (Some true)) in
      _performTypoInitializationOnLocale localeName
  | ReadError =>
      do! assignEntry localeName (set_dictionaryLoaded None) in
      _checkDictionaryForCleanUp localeName
  end.

End WithTypo.

(** [_initializeDictionaryData]: the two reads are started; their
    callbacks run later. *)
Definition _initializeDictionaryData (localeName affixFile dictionaryFile : string)
  : M unit :=
  do! effect (FileRead affixFile) in effect (FileRead dictionaryFile).

Definition newEntry (localeName : string) : DictEntry :=
  {| initialized := false; dictionaryLoaded := Some false; affixLoaded := Some false;
     affixData := None; dictionaryData := None; typo := None; locale := localeName |}.

Definition _loadDictionaryFilesForLocale (localeName : string) : M unit :=
  let _affixPath := getAffixFile localeName in
  let _dictionaryPath := getDictionaryFile localeName in
  let _affixFile := getFileForPath _affixPath in
  let _dictionaryFile := getFileForPath _dictionaryPath in
  do! modify (setDictionaries (insert localeName (newEntry localeName))) in
  match _affixFile, _dictionaryFile with
  | Some affixFile, Some dictionaryFile =>
      do! effect ShowBusyIndicator in
      do! modify (setBeingLoaded (fun s => s ∪ {[localeName]})) in
      _initializeDictionaryData localeName affixFile dictionaryFile
  | _, _ => unloadDictionary localeName
  end.

(** [loadDictionary(localeName)] for a string [localeName]. *)
Definition loadDictionary (localeName : string) : M unit :=
  let! loading := gets (fun w => bool_decide (localeName ∈ beingLoaded w)) in
  if loading then ret tt
  else
    let! known := gets (fun w =>
      ProfileManager.hasProfile (profileManager w) localeName
      || hasDictionary localeName false w) in
    if known then ret tt
    else _loadDictionaryFilesForLocale localeName.

Definition unloadAllDictionaries : M unit :=
  do! modify (setDictionaries (fun _ => ∅)) in
  trigger dictionariesUnloaded_event.

Definition getDefaultLocale (w : World) : string :=
  _defaultLocale (dictionaryManager w).

Definition setDefaultLocale (defaultLocale : string) : M unit :=
  modify (withDictionaryManager (fun v =>
    {| _defaultLocale := defaultLocale;
       _dictionaries := _dictionaries v;
       _dictionariesBeingLoaded := _dictionariesBeingLoaded v |})).

(** [_dictionaries[localeName].typo.check(word)] *)
Definition typoCheck (localeName word : string) : M bool :=
  let! e := entryOf localeName in
  match typo e with
  | Some t => ret (lex_check t word)
  | None => throw TypeError
  end.

(** The [for] loop of [check] over [_profileItems]. *)
Fixpoint check_profileItems (word : string) (_profileItems : list ProfileManager.ProfileItem)
  : M (option bool) :=
  match _profileItems with
  | [] => ret (Some false)
  | item :: rest =>
      let _profileName := ProfileManager.name item in
      let! ready := gets (hasDictionary _profileName true) in
      if ready then
        let! accepted := typoCheck _profileName word in
        if accepted then ret (Some true)
        else check_profileItems word rest
      else
        do! loadDictionary _profileName in
        check_profileItems word rest
  end.

(** [check(word, localeName)]; an omitted [localeName] is [None].  The
    result is [true], [false] or [null]. *)
Definition check (word : string) (localeName : option string) : M (option bool) :=
  let! localeName := gets (fun w =>
    match localeName with Some l => l | None => getDefaultLocale w end) in
  let! _profileItems := gets (fun w =>
    if ProfileManager.hasProfile (profileManager w) localeName
    then ProfileManager.getProfileItems (profileManager w) localeName
    else None) in
  match _profileItems with
  | Some items => check_profileItems word items
  | None =>
      let! ready := gets (hasDictionary localeName true) in
      if ready then
        let! accepted := typoCheck localeName word in ret (Some accepted)
      else ret None
  end.

(** [suggest(word, localeName)]; [hasDictionary] is called without
    [safeMode]. *)
Definition suggest (word : string) (localeName : option string)
  : M (option (list string)) :=
  let! localeName := gets (fun w =>
    match localeName with
    | Some l => if (String.length l =? 0)%nat then getDefaultLocale w else l
    | None => getDefaultLocale w
    end) in
  let! has := gets (hasDictionary localeName false) in
  if has then
    let! e := entryOf localeName in
    match typo e with
    | Some t => ret (Some (lex_suggest t word))
    | None => throw TypeError
    end
  else ret None.

End DictionaryManager.

(** ** src/spelling/SpellChecker.js *)

Module SpellChecker.
Import JS StringUtils SpellCheckerState.

Definition _commonProgrammingKeywords : list string :=
  ["foreach"; "json"; "aff"; "dic"; "url"; "src"].

(** [_experimentalFeatures]; no code changes the two switches. *)
Definition attemptIntelligentQuoteDetection : bool := true.
Definition automaticallyDetectCamelCaseWords : bool := true.

Definition _isInitialized (w : World) : bool := _initialized (spellChecker w).

Definition setVars (f : Vars -> Vars) : M unit := modify (withSpellChecker f).

Definition shouldSpellingIgnoreUppercaseWords (shouldIgnore : bool) : M unit :=
  setVars (fun v =>
    {| _localeName := _localeName v; _spellingIgnoreUppercase := shouldIgnore;
       _initialized := _initialized v; _currentMode := _currentMode v;
       _lastWordSeparatorDirty := _lastWordSeparatorDirty v;
       _lastWordSeparator := _lastWordSeparator v |}).

Definition _isCommonTerm (word : string) : bool :=
  inArray word _commonProgrammingKeywords.

(** [!x] for a value that is [true], [false] or [null]. *)
Definition falsy (x : option bool) : bool :=
  match x with Some true => false | _ => true end.

(** The loop of [_checkSpellingOfCamelCaseWord] over [_wordParts]. *)
Fixpoint _checkSpellingOfCamelCaseWord_loop (_wordParts : list string) : M bool :=
  match _wordParts with
  | [] => ret true
  | part :: rest =>
      let! r := DictionaryManager.check part None in
      if falsy r then ret false
      else _checkSpellingOfCamelCaseWord_loop rest
  end.

Definition _checkSpellingOfCamelCaseWord (word : string) : M bool :=
  _checkSpellingOfCamelCaseWord_loop (splitByUpperCase word).

(** The values [_checkSpellingBetweenCharacter] returns: [true], [false]
    and the number [-1]. *)
Inductive Tri := tri_true | tri_false | tri_minus_one.

(** [_checkSpellingBetweenCharacter(word, character)]; [_seemsCorrect]
    is [null] ([None]) until a branch assigns it, and a branch may assign
    it [null] again, the result of [check]. *)
Definition _checkSpellingBetweenCharacter (word : string) (character : ascii) : M Tri :=
  let ch := String character EmptyString in
  let! _seemsCorrect :=
    if startsWith word ch && endsWith word ch then
      let _baseWord := trimChar word character in
      if isCamelCase _baseWord then
        let! b := _checkSpellingOfCamelCaseWord _baseWord in ret (Some b)
      else DictionaryManager.check _baseWord None
    else if endsWith word ch then
      DictionaryManager.check (substr 0 (String.length word - 1) word) None
    else if startsWith word ch then
      DictionaryManager.check (substr 1 (String.length word - 1) word) None
    else ret None in
  match _seemsCorrect with
  | Some false => ret tri_false
  | Some true => ret tri_minus_one
  | None => ret tri_true
  end.

(** The [attemptIntelligentQuoteDetection] block of
    [_hasCorrectSpelling]: [Some b] when the block returns [b], [None]
    when control falls through it. *)
Definition quoteDetection (word : string) : M (option bool) :=
  if attemptIntelligentQuoteDetection then
    let! _quotesSeemCorrect :=
      if startsWith word "'" || endsWith word "'"
      then _checkSpellingBetweenCharacter word squote
      else ret tri_true in
    let! _doubleQuotesSeemCorrect :=
      if startsWith word (String dquote EmptyString)
         || endsWith word (String dquote EmptyString)
      then _checkSpellingBetweenCharacter word dquote
      else ret tri_true in
    match _quotesSeemCorrect, _doubleQuotesSeemCorrect with
    | tri_minus_one, _ | _, tri_minus_one => ret (Some true)
    | tri_false, _ | _, tri_false => ret (Some false)
    | _, _ => ret None
    end
  else ret None.

(** [_hasCorrectSpelling] from the quote block to its end. *)
Definition afterUppercase (word : string) : M (option bool) :=
  let! quoteVerdict := quoteDetection word in
  match quoteVerdict with
  | Some b => ret (Some b)
  | None =>
      if automaticallyDetectCamelCaseWords && isCamelCase word then
        let! b := _checkSpellingOfCamelCaseWord word in ret (Some b)
      else DictionaryManager.check word None
  end.

(** [_hasCorrectSpelling(word)]: [true], [false], or the [null] that
    [check] may return. *)
Definition _hasCorrectSpelling (word : string) : M (option bool) :=
  if _isCommonTerm word then ret (Some true)
  else if negb (parseFloat_isNaN word) then ret (Some true)
  else
    let! ignoreUpper := gets (fun w => _spellingIgnoreUppercase (spellChecker w)) in
    if ignoreUpper then
      if String.eqb word (toUpperCase word) then ret (Some true)
      else if endsWith word "'s"
              && (let _baseWord := substr 0 (String.length word - 2) word in
                  String.eqb _baseWord (toUpperCase _baseWord))
      then ret (Some true)
      else if endsWith word "'" && negb (startsWith word "'")
              && (let _firstCharacter := substr 0 1 word in
                  String.eqb _firstCharacter (toUpperCase _firstCharacter))
      then DictionaryManager.check (substr 0 (String.length word - 1) word) None
      else afterUppercase word
    else afterUppercase word.

(** *** The CodeMirror overlay

    A stream is the part of the line that has not been consumed:
    [peek] is its first character, [next] drops it, [skipToEnd] leaves
    the empty string. *)
Definition peek (stream : string) : option ascii :=
  match stream with String c _ => Some c | EmptyString => None end.

(** The [while] loop of [token]: the word and the stream after it. *)
Fixpoint scanWord (stream : string) : string * string :=
  match stream with
  | EmptyString => (EmptyString, EmptyString)
  | String c r =>
      if isString (Some c) && negb (isWordSeparator (Some c))
      then let '(word, rest) := scanWord r in (String c word, rest)
      else (EmptyString, stream)
  end.

Definition errorStyle : string :=
  "alice-error-visualization alice-spelling-visualization".

(** What a call of [token] did: it skipped the line, it read one
    separator [_character] into [_lastWordSeparator], or it scanned
    [_word] and tested it with the value of [_lastWordSeparator] as the
    before-context. *)
Inductive TokenAction :=
| Skipped
| SeparatorRead (_character : option ascii)
| WordTested (_word beforeContext : string).

(** What one call of [token] yields: the style it returns ([null] is
    [None]), the stream it leaves, and what it did. *)
Record TokenResult := {
  style : option string;
  remaining : string;
  action : TokenAction
}.

Definition withLastWordSeparator (sep : string) (w : World) : World :=
  withSpellChecker (fun v =>
    {| _localeName := _localeName v;
       _spellingIgnoreUppercase := _spellingIgnoreUppercase v;
       _initialized := _initialized v; _currentMode := _currentMode v;
       _lastWordSeparatorDirty := _lastWordSeparatorDirty v;
       _lastWordSeparator := sep |}) w.

Definition withLastWordSeparatorDirty (dirty : bool) (w : World) : World :=
  withSpellChecker (fun v =>
    {| _localeName := _localeName v;
       _spellingIgnoreUppercase := _spellingIgnoreUppercase v;
       _initialized := _initialized v; _currentMode := _currentMode v;
       _lastWordSeparatorDirty := dirty;
       _lastWordSeparator := _lastWordSeparator v |}) w.

Definition setLastWordSeparator (sep : string) : M unit :=
  modify (withLastWordSeparator sep).

Definition setLastWordSeparatorDirty (dirty : bool) : M unit :=
  modify (withLastWordSeparatorDirty dirty).

Definition lastWordSeparator (w : World) : string := _lastWordSeparator (spellChecker w).
Definition lastWordSeparatorDirty (w : World) : bool :=
  _lastWordSeparatorDirty (spellChecker w).

(** [stream.next()] *)
Definition next (stream : string) : string :=
  match stream with String _ r => r | EmptyString => EmptyString end.

(** [_lastWordSeparator += _character]; the statement is only reached
    with a character, since [isWordSeparator(undefined)] is [false]. *)
Definition appendCharacter (sep : string) (_character : option ascii) : string :=
  match _character with
  | Some c => String.append sep (String c EmptyString)
  | None => sep
  end.

(** [getOverlay().token(stream, state)] *)
Definition token (stream : string) : M TokenResult :=
  let! dirty := gets lastWordSeparatorDirty in
  do! (if dirty
       then do! setLastWordSeparator "" in setLastWordSeparatorDirty false
       else ret tt) in
  let! initialized := gets _isInitialized in
  if negb initialized then
    ret {| style := None; remaining := EmptyString; action := Skipped |}
  else
    let _character := peek stream in
    if isWordSeparator _character then
      let! sep := gets lastWordSeparator in
      do! setLastWordSeparator (appendCharacter sep _character) in
      ret {| style := None; remaining := next stream;
             action := SeparatorRead _character |}
    else
      let '(_word, rest) := scanWord stream in
      let! correct := _hasCorrectSpelling _word in
      let! sep := gets lastWordSeparator in
      let! ignored := gets (fun w =>
        UtilityManager.shouldIgnore (utilityManager w) _word sep) in
      if falsy correct && negb ignored then
        do! setLastWordSeparatorDirty true in
        ret {| style := Some errorStyle; remaining := rest;
               action := WordTested _word sep |}
      else
        do! setLastWordSeparatorDirty true in
        ret {| style := None; remaining := rest; action := WordTested _word sep |}.

Definition setLocaleName (localeName : string) : M unit :=
  do! setVars (fun v =>
    {| _localeName := Some localeName;
       _spellingIgnoreUppercase := _spellingIgnoreUppercase v;
       _initialized := _initialized v; _currentMode := _currentMode v;
       _lastWordSeparatorDirty := _lastWordSeparatorDirty v;
       _lastWordSeparator := _lastWordSeparator v |}) in
  do! DictionaryManager.setDefaultLocale localeName in
  DictionaryManager.loadDictionary localeName.

Definition suggest (word : string) : M (option (list string)) :=
  DictionaryManager.suggest word None.

Definition setModeName (mode : option string) : M unit :=
  do! setVars (fun v =>
    {| _localeName := _localeName v;
       _spellingIgnoreUppercase := _spellingIgnoreUppercase v;
       _initialized := _initialized v; _currentMode := mode;
       _lastWordSeparatorDirty := _lastWordSeparatorDirty v;
       _lastWordSeparator := _lastWordSeparator v |}) in
  modify (withUtilityManager (UtilityManager.setModeName mode)).

End SpellChecker.

(** * Statements

    The notions the properties below are stated with.  None of them is part
    of the program. *)

(** ** A toy Lexicon and worlds reached from start-up *)

Module Fixtures.

Definition spaced (s : string) : string :=
  String.append " " (String.append s " ").

(** A Typo whose word list is the words of the dictionary data, separated
    by single spaces; affix rules are ignored. *)
Definition wordListTypo (localeName : string) (affixData dictionaryData : option string)
  : Lexicon :=
  {| lex_check word :=
       match dictionaryData with
       | Some d => JS.includes (spaced d) (spaced word)
       | None => false
       end;
     lex_suggest word := [] |}.

Definition after {A} (m : M A) (w : option World) : option World :=
  match w with
  | Some w => worldOf (m w)
  | None => None
  end.

(** [setLocaleName(localeName)], then both reads succeed. *)
Definition loaded (localeName words : string) (w : option World) : option World :=
  after (DictionaryManager.dictionaryReadCallback wordListTypo localeName
           (DictionaryManager.ReadOk words))
    (after (DictionaryManager.affixReadCallback wordListTypo localeName
              (DictionaryManager.ReadOk "SET UTF-8"))
       (after (SpellChecker.setLocaleName localeName) w)).

Definition orInitial (w : option World) : World :=
  match w with Some w => w | None => initialWorld end.

(** Start-up, then [setLocaleName("en_US")]: the reads are pending. *)
Definition enUS_loading : World :=
  orInitial (after (SpellChecker.setLocaleName "en_US") (Some initialWorld)).

(** A French dictionary is in use; then the user switches to en_US,
    whose files are still being read. *)
Definition frFR_ready : World :=
  orInitial (loaded "fr_FR" "le chat noir" (Some initialWorld)).

Definition frFR_ready_enUS_loading : World :=
  orInitial (after (SpellChecker.setLocaleName "en_US") (Some frFR_ready)).

(** An en_US dictionary that knows [foo] and the name [Bar], not [bar];
    one that knows [fooBar] only; one with a few English words. *)
Definition enUS_foo_Bar : World :=
  orInitial (loaded "en_US" "foo Bar" (Some initialWorld)).
Definition enUS_words : World :=
  orInitial (loaded "en_US" "the quick fox" (Some initialWorld)).

(** An ignore-rule file without any condition. *)
Definition frameworkNames : UtilityManager.IgnoreList :=
  {| UtilityManager.ignore := ["wordpress"; "laravel"];
     UtilityManager.ignoreAfter := None;
     UtilityManager.ignoreMode := None;
     UtilityManager.ignoreWhenDocumentContains := None;
     UtilityManager.mustBeManuallyLoaded := None |}.

Definition enUS_words_with_rule : World :=
  withUtilityManager (UtilityManager._loadUtilityFile false frameworkNames) enUS_words.

(** A user profile over two dictionaries. *)
Definition british : ProfileManager.ProfileItem :=
  {| ProfileManager.name := "en_GB"; ProfileManager.type := "dictionary" |}.
Definition american : ProfileManager.ProfileItem :=
  {| ProfileManager.name := "en_US"; ProfileManager.type := "dictionary" |}.

Definition withProfile (items : list ProfileManager.ProfileItem) (w : World) : World :=
  withProfileManager (ProfileManager.userProfilesFound
    {[ "my_en" := {| ProfileManager.profile := "my_en";
                     ProfileManager.items := items |} ]}) w.

Definition bothEnglish : World :=
  withProfile [british; american]
    (orInitial (loaded "en_GB" "colour" (loaded "en_US" "color" (Some initialWorld)))).

End Fixtures.

(** ** What [check] reads *)

(** The lexicon [check] would use for [name]: [None] when there is no
    initialized entry, [Some None] when the entry is initialized but its
    [typo] is [null]. *)
Definition readyLexicon (w : World) (name : string) : option (option Lexicon) :=
  match DictionaryManager.dictionaries w !! name with
  | Some e => if initialized e then Some (typo e) else None
  | None => None
  end.

(** Two worlds that differ at most in entries that are not initialized, in
    [_dictionariesBeingLoaded] and in the effects. *)
Definition stable (w w' : World) : Prop :=
  DictionaryManager.getDefaultLocale w' = DictionaryManager.getDefaultLocale w
  /\ profileManager w' = profileManager w
  /\ utilityManager w' = utilityManager w
  /\ spellChecker w' = spellChecker w
  /\ forall n, readyLexicon w' n = readyLexicon w n.

Definition preserves {A} (m : M A) : Prop :=
  forall w a w', m w = Ok a w' -> stable w w'.

(** The value of [check], as a function of what it reads; the outer [None]
    is a [TypeError]. *)
Fixpoint profileVerdict (ready : string -> option (option Lexicon)) (word : string)
    (items : list ProfileManager.ProfileItem) : option (option bool) :=
  match items with
  | [] => Some (Some false)
  | item :: rest =>
      match ready (ProfileManager.name item) with
      | Some (Some t) =>
          if lex_check t word then Some (Some true) else profileVerdict ready word rest
      | Some None => None
      | None => profileVerdict ready word rest
      end
  end.

Definition checkVerdict (w : World) (word : string) (localeName : option string)
  : option (option bool) :=
  let l := match localeName with
           | Some l => l
           | None => DictionaryManager.getDefaultLocale w
           end in
  match (if ProfileManager.hasProfile (profileManager w) l
         then ProfileManager.getProfileItems (profileManager w) l else None) with
  | Some items => profileVerdict (readyLexicon w) word items
  | None =>
      match readyLexicon w l with
      | Some (Some t) => Some (Some (lex_check t word))
      | Some None => None
      | None => Some None
      end
  end.

(** [name] has a Ready entry whose lexicon is [lex]. *)
Definition ReadyWith (w : World) (name : string) (lex : Lexicon) : Prop :=
  exists e, DictionaryManager.dictionaries w !! name = Some e
    /\ initialized e = true /\ typo e = Some lex.

(** The locale or profile the spell checker targets has a ready lexicon. *)
Definition activeReady (w : World) : bool :=
  let l := DictionaryManager.getDefaultLocale w in
  match (if ProfileManager.hasProfile (profileManager w) l
         then ProfileManager.getProfileItems (profileManager w) l else None) with
  | Some items =>
      existsb (fun item =>
        DictionaryManager.hasDictionary (ProfileManager.name item) true w) items
  | None => DictionaryManager.hasDictionary l true w
  end.

(** ** Quoted words *)




(** ** The life of one load *)

(** A load of [localeName] in flight: the entry exists, the locale is in
    [_dictionariesBeingLoaded], and the two halves are in the given state. *)
Definition InFlight (localeName : string) (w : World)
    (af : option bool) (ad : option string) (df : option bool) (dd : option string) : Prop :=
  localeName ∈ DictionaryManager.beingLoaded w
  /\ exists e, DictionaryManager.dictionaries w !! localeName = Some e
       /\ affixLoaded e = af /\ affixData e = ad
       /\ dictionaryLoaded e = df /\ dictionaryData e = dd.

(** Both reads are pending. *)
Definition Loading (localeName : string) (w : World) : Prop :=
  exists ad dd, InFlight localeName w (Some false) ad (Some false) dd.

Definition Ready (Typo : string -> option string -> option string -> Lexicon)
    (localeName : string) (w : World) (ad dd : option string) : Prop :=
  (localeName ∉ DictionaryManager.beingLoaded w)
  /\ exists e, DictionaryManager.dictionaries w !! localeName = Some e
       /\ initialized e = true /\ typo e = Some (Typo localeName ad dd).

Definition Removed (localeName : string) (w : World) : Prop :=
  DictionaryManager.dictionaries w !! localeName = None
  /\ (localeName ∉ DictionaryManager.beingLoaded w).

(** What a completed load adds to the effects: one Typo instance, one
    [dictionaryLoaded] notification. *)
Definition loadedEffects (localeName : string) (ad dd : option string) : list Effect :=
  [NewTypo localeName ad dd; HideBusyIndicator; Trigger (dictionaryLoaded_event localeName)].

(** What a failed load adds: the entry is unloaded, then one
    [dictionaryFailedToLoad] notification. *)
Definition failedEffects (localeName : string) : list Effect :=
  [Trigger (dictionaryUnloaded_event localeName); HideBusyIndicator;
   Trigger (dictionaryFailedToLoad_event localeName)].

(** The world after [_loadDictionaryFilesForLocale]. *)
Definition startLoading (localeName : string) (w : World) : World :=
  withEffect (FileRead (DictionaryManager.getDictionaryFile localeName))
    (withEffect (FileRead (DictionaryManager.getAffixFile localeName))
       (DictionaryManager.setBeingLoaded (fun s => s ∪ {[localeName]})
          (withEffect ShowBusyIndicator
             (DictionaryManager.setDictionaries
                (insert localeName (DictionaryManager.newEntry localeName)) w)))).

(** What can happen to a locale while it loads: [loadDictionary] is
    called again, or one of the two reads completes. *)
Inductive LoadEvent :=
| LoadRequested
| AffixRead (r : DictionaryManager.ReadResult)
| DictionaryRead (r : DictionaryManager.ReadResult).

Definition loadStep (Typo : string -> option string -> option string -> Lexicon)
    (localeName : string) (ev : LoadEvent) : M unit :=
  match ev with
  | LoadRequested => DictionaryManager.loadDictionary localeName
  | AffixRead r => DictionaryManager.affixReadCallback Typo localeName r
  | DictionaryRead r => DictionaryManager.dictionaryReadCallback Typo localeName r
  end.

Fixpoint runLoad (Typo : string -> option string -> option string -> Lexicon)
    (localeName : string) (evs : list LoadEvent) : M unit :=
  match evs with
  | [] => ret tt
  | ev :: rest => do! loadStep Typo localeName ev in runLoad Typo localeName rest
  end.

Definition requests (n : nat) : list LoadEvent := repeat LoadRequested n.

Definition bothSucceed (a d : string) (first second : LoadEvent) : Prop :=
  (first = AffixRead (DictionaryManager.ReadOk a)
   /\ second = DictionaryRead (DictionaryManager.ReadOk d))
  \/ (first = DictionaryRead (DictionaryManager.ReadOk d)
      /\ second = AffixRead (DictionaryManager.ReadOk a)).

Definition bothFail (first second : LoadEvent) : Prop :=
  (first = AffixRead DictionaryManager.ReadError
   /\ second = DictionaryRead DictionaryManager.ReadError)
  \/ (first = DictionaryRead DictionaryManager.ReadError
      /\ second = AffixRead DictionaryManager.ReadError).

(** ** The scanner *)

(** The first thing [token] does. *)
Definition clearIfDirty (w : World) : World :=
  if SpellChecker.lastWordSeparatorDirty w
  then SpellChecker.withLastWordSeparatorDirty false
         (SpellChecker.withLastWordSeparator "" w)
  else w.

(** The en_US reads complete after one call of [token] has skipped a
    line. *)
Definition enUS_arrives_after_skip : World :=
  Fixtures.orInitial
    (Fixtures.after
       (DictionaryManager.dictionaryReadCallback Fixtures.wordListTypo "en_US"
          (DictionaryManager.ReadOk "the quick fox"))
       (Fixtures.after
          (DictionaryManager.affixReadCallback Fixtures.wordListTypo "en_US"
             (DictionaryManager.ReadOk "SET UTF-8"))
          (Some (clearIfDirty Fixtures.enUS_loading)))).

(** fr_FR is requested, then en_US; the two reads of fr_FR fail while
    those of en_US are still pending. *)
Definition frFR_failed_enUS_loading : World :=
  Fixtures.orInitial
    (Fixtures.after
       (DictionaryManager.dictionaryReadCallback Fixtures.wordListTypo "fr_FR"
          DictionaryManager.ReadError)
       (Fixtures.after
          (DictionaryManager.affixReadCallback Fixtures.wordListTypo "fr_FR"
             DictionaryManager.ReadError)
          (Fixtures.after (SpellChecker.setLocaleName "en_US")
             (Fixtures.after (SpellChecker.setLocaleName "fr_FR")
                (Some initialWorld))))).

Definition verdictStyle (correct : option bool) (ignored : bool) : option string :=
  if SpellChecker.falsy correct && negb ignored then Some SpellChecker.errorStyle else None.

(** The separators read since the last tested word: the buffer, unless it
    is dirty. *)
Definition pendingRun (w : World) : string :=
  if SpellChecker.lastWordSeparatorDirty w then "" else SpellChecker.lastWordSeparator w.

(** One call of [token], as seen from outside: the stream it was given,
    what it did, the stream it left, and the two scanner variables after it
    returned. *)
Record Call := {
  call_stream : string;
  call_action : SpellChecker.TokenAction;
  call_remaining : string;
  dirtyAfter : bool;
  separatorAfter : string
}.

(** A run of the program, seen from the scanner: calls of [token] on any
    streams, and between them anything that leaves [_lastWordSeparator]
    and [_lastWordSeparatorDirty] alone (loads completing, the locale or
    the mode changing, rule files arriving). *)
Inductive Run : World -> list Call -> World -> Prop :=
| Run_done w : Run w [] w
| Run_token w stream r w1 calls w2 :
    SpellChecker.token stream w = Ok r w1 ->
    Run w1 calls w2 ->
    Run w ({| call_stream := stream;
              call_action := SpellChecker.action r;
              call_remaining := SpellChecker.remaining r;
              dirtyAfter := SpellChecker.lastWordSeparatorDirty w1;
              separatorAfter := SpellChecker.lastWordSeparator w1 |} :: calls) w2
| Run_other w w1 calls w2 :
    SpellChecker.lastWordSeparatorDirty w1 = SpellChecker.lastWordSeparatorDirty w ->
    SpellChecker.lastWordSeparator w1 = SpellChecker.lastWordSeparator w ->
    Run w1 calls w2 ->
    Run w calls w2.

(** The discipline of the separator buffer along a run; [pending] is the
    run of separators read since the last tested word.
    - A call that skips the line leaves the run as it is.
    - A call that reads a separator reads the first character of its
      stream and appends it to the run.
    - A call that tests a word scans it off its stream, passes the run as
      the before-context, and leaves the buffer dirty; the run starts
      again from the empty string.
    After every call but a word test the buffer is clean and holds the run:
    a dirty buffer has been emptied when the call began. *)
Fixpoint disciplined (pending : string) (calls : list Call) : Prop :=
  match calls with
  | [] => True
  | c :: rest =>
      match call_action c with
      | SpellChecker.Skipped =>
          call_remaining c = EmptyString
          /\ dirtyAfter c = false /\ separatorAfter c = pending
          /\ disciplined pending rest
      | SpellChecker.SeparatorRead ch =>
          ch = SpellChecker.peek (call_stream c)
          /\ StringUtils.isWordSeparator ch = true
          /\ call_remaining c = SpellChecker.next (call_stream c)
          /\ dirtyAfter c = false
          /\ separatorAfter c = SpellChecker.appendCharacter pending ch
          /\ disciplined (SpellChecker.appendCharacter pending ch) rest
      | SpellChecker.WordTested word beforeContext =>
          (word, call_remaining c) = SpellChecker.scanWord (call_stream c)
          /\ beforeContext = pending
          /\ dirtyAfter c = true
          /\ disciplined EmptyString rest
      end
  end.

(** * Further statements *)

(** ** Ignore rules: when a conditional rule covers a word *)

(** The [ignoreAfter] condition of [rule] holds for [beforeContext]. *)
Definition afterMatches (rule : UtilityManager.IgnoreList) (beforeContext : string) : bool :=
  match UtilityManager.ignoreAfter rule with
  | Some after => (0 <? String.length after)%nat && String.eqb after beforeContext
  | None => false
  end.

(** The [ignoreMode] condition of [rule] holds: the list names the current
    mode or ["Mode.all"], and the rule is not loaded manually. *)
Definition modeApplies (st : UtilityManager.State) (rule : UtilityManager.IgnoreList) : bool :=
  (JS.inArray "Mode.all" (UtilityManager.modeList rule)
   || match UtilityManager._currentModeName st with
      | Some m => JS.inArray m (UtilityManager.modeList rule)
      | None => false
      end)
  && negb (UtilityManager._utilityMustBeLoadedManually rule).

Definition ruleCovers (st : UtilityManager.State) (rule : UtilityManager.IgnoreList)
    (word beforeContext : string) : bool :=
  JS.inArray word (UtilityManager.ignore rule)
  && (afterMatches rule beforeContext || modeApplies st rule).

(** The files whose read succeeded, in the order they arrived. *)
Definition arrived (files : list (bool * UtilityManager.IgnoreList))
  : list UtilityManager.IgnoreList :=
  map snd (List.filter (fun f => negb (fst f)) files).

(** A rule file with a condition: its words are ignored after a dollar
    sign. *)
Definition afterDollar : UtilityManager.IgnoreList :=
  {| UtilityManager.ignore := ["post"; "get"];
     UtilityManager.ignoreAfter := Some "$";
     UtilityManager.ignoreMode := None;
     UtilityManager.ignoreWhenDocumentContains := None;
     UtilityManager.mustBeManuallyLoaded := None |}.

(** ** src/editor/EditorManager.js: the overlay, selections, the context menu *)

Module EditorManager.

(** The characters of the class in the regular expression of
    [containsWordSeparator] (Strings.js); the second one is the double
    quote. *)
Definition separatorClass : string :=
  String "!"%char (String StringUtils.dquote "#$%&()*+,-./:;<=>?@[\]^_`{|}~ ").

Definition inClass (c : ascii) : bool :=
  existsb (Ascii.eqb c) (JS.chars separatorClass).

(** [StringUtils.containsWordSeparator(string)]: [test] finds a character
    of the class somewhere in the string. *)
Definition containsWordSeparator (s : string) : bool :=
  existsb inClass (JS.chars s).

(** [_isValidSelection(editor)], as a function of what it reads from the
    editor: the number of selections, the lines the one selection starts
    and ends on, and the selected text.  It returns the text, or [false]
    ([None]). *)
Definition _isValidSelection (selections startLine endLine : nat) (selectedText : string)
  : option string :=
  if (selections =? 1)%nat then
    if (startLine =? endLine)%nat then
      if negb (containsWordSeparator selectedText) then Some selectedText else None
    else None
  else None.

(** What [_handleContextMenuOpen] adds to the context menu: nothing, one
    item for each suggestion, or the one item that says there is none. *)
Inductive MenuItems :=
| noItems
| suggestionItems (suggestions : list string)
| noSuggestionsItem.

(** How a handler ends: it returns, or a fault leaves it in the middle;
    [w] is the world at that moment. *)
Inductive Outcome (A : Type) :=
| Returned (a : A) (w : World)
| Faulted (e : JsError) (w : World).
Arguments Returned {A} a w.
Arguments Faulted {A} e w.

(** [_handleContextMenuOpen()].  [isSpellingError] is whether the first
    selected-text element has the class of the error style.  The busy
    indicator is shown first and hidden last.  Reading
    [_suggestions.length] when [suggest] has returned [null] is a
    [TypeError]; [suggest] writes no variable, so a fault inside it leaves
    the world as it was when [suggest] was called. *)
Definition _handleContextMenuOpen (selections startLine endLine : nat)
    (selectedText : string) (isSpellingError : bool) (w : World) : Outcome MenuItems :=
  let shown := withEffect ShowBusyIndicator w in
  match _isValidSelection selections startLine endLine selectedText with
  | Some selectedWord =>
      if isSpellingError then
        match SpellChecker.suggest selectedWord shown with
        | Ok (Some _suggestions) w1 =>
            Returned (if (0 <? length _suggestions)%nat
                      then suggestionItems _suggestions
                      else noSuggestionsItem)
                     (withEffect HideBusyIndicator w1)
        | Ok None w1 => Faulted TypeError w1
        | Throw e => Faulted e shown
        end
      else Returned noItems (withEffect HideBusyIndicator shown)
  | None => Returned noItems (withEffect HideBusyIndicator shown)
  end.

(** What [updateInterface] reads and writes of a CodeMirror instance:
    [state.overlays], where an overlay counts as the spell-check overlay
    when its mode has the property [spellCheckOverlay] ([true] below), the
    option [styleSelectedText], the calls of [refresh], and the name of
    the mode. *)
Record CodeMirror := {
  overlays : list bool;
  styleSelectedText : bool;
  refreshes : nat;
  modeName : string
}.

Definition _isValidMode (codeMirror : CodeMirror) : bool := true.

Definition _editorHasSpellCheckOverlay (codeMirror : CodeMirror) : bool :=
  existsb (fun spellCheckOverlay => spellCheckOverlay) (overlays codeMirror).

(** CodeMirror's [removeOverlay(_spellCheckOverlay)] removes the first
    overlay that was added with that object; [addOverlay] adds one. *)
Fixpoint removeFirst (l : list bool) : list bool :=
  match l with
  | [] => []
  | true :: rest => rest
  | false :: rest => false :: removeFirst rest
  end.

Definition removeOverlay (cm : CodeMirror) : CodeMirror :=
  {| overlays := removeFirst (overlays cm); styleSelectedText := styleSelectedText cm;
     refreshes := refreshes cm; modeName := modeName cm |}.

Definition addOverlay (cm : CodeMirror) : CodeMirror :=
  {| overlays := overlays cm ++ [true]; styleSelectedText := styleSelectedText cm;
     refreshes := refreshes cm; modeName := modeName cm |}.

Definition setStyleSelectedText (b : bool) (cm : CodeMirror) : CodeMirror :=
  {| overlays := overlays cm; styleSelectedText := b;
     refreshes := refreshes cm; modeName := modeName cm |}.

Definition refresh (cm : CodeMirror) : CodeMirror :=
  {| overlays := overlays cm; styleSelectedText := styleSelectedText cm;
     refreshes := S (refreshes cm); modeName := modeName cm |}.

(** The last [if] of [updateInterface]. *)
Definition addIfMissing (_spellCheckEnabled _hasValidMode _hasOverlay : bool)
    (cm : CodeMirror) : CodeMirror :=
  if _spellCheckEnabled && _hasValidMode && negb _hasOverlay
  then refresh (addOverlay (setStyleSelectedText true cm))
  else cm.

(** [updateInterface()].  [_spellCheckEnabled] is the module variable;
    the active editor, if there is one, is its CodeMirror instance and its
    flag [linguisticsRequestingRefresh] (an undefined flag is [false]).
    The result is the CodeMirror instance as the call leaves it. *)
Definition updateInterface (_spellCheckEnabled : bool)
    (editor : option (CodeMirror * bool)) : M (option CodeMirror) :=
  match editor with
  | None => ret None
  | Some (cm, linguisticsRequestingRefresh) =>
      let _hasValidMode := _isValidMode cm in
      let _hasOverlay := _editorHasSpellCheckOverlay cm in
      do! SpellChecker.setModeName (Some (modeName cm)) in
      let _needsRefresh := linguisticsRequestingRefresh in
      if negb _hasValidMode || _needsRefresh || negb _spellCheckEnabled then
        if _hasOverlay then
          let cm1 := removeOverlay (setStyleSelectedText false cm) in
          if _needsRefresh then
            ret (Some (addIfMissing _spellCheckEnabled _hasValidMode false cm1))
          else ret (Some (refresh cm1))
        else if negb _needsRefresh then ret (Some cm)
        else ret (Some (addIfMissing _spellCheckEnabled _hasValidMode _hasOverlay cm))
      else ret (Some (addIfMissing _spellCheckEnabled _hasValidMode _hasOverlay cm))
  end.

(** The number of spell-check overlays, and the other overlays. *)
Definition spellCheckOverlays (cm : CodeMirror) : nat :=
  length (List.filter (fun o => o) (overlays cm)).

Definition otherOverlays (cm : CodeMirror) : nat :=
  length (List.filter negb (overlays cm)).

End EditorManager.

(** ** Shapes of words *)

(** Every character of [s] satisfies [p]. *)
Definition allChars (p : ascii -> bool) (s : string) : bool :=
  forallb p (JS.chars s).

Definition notLower (c : ascii) : bool := negb (JS.isLowerAZ c).
Definition notUpper (c : ascii) : bool := negb (JS.isUpperAZ c).
Definition notWhiteSpace (c : ascii) : bool := negb (JS.isWhiteSpace c).

(** [parts.join("")] *)
Definition joined (parts : list string) : string :=
  fold_right String.append EmptyString parts.

Definition startsUpper (s : string) : bool :=
  match s with
  | String c _ => JS.isUpperAZ c
  | EmptyString => false
  end.

Definition afterFirst (s : string) : string :=
  match s with
  | String _ r => r
  | EmptyString => EmptyString
  end.

(** ** Runs of the dictionary registry *)

(** No initialized entry has a [null] typo: [typo.check] can be called on
    every entry that [hasDictionary(name, true)] accepts. *)
Definition sound (w : World) : Prop := forall n, readyLexicon w n <> Some None.

(** [m] keeps the property [P] of worlds whenever it returns. *)
Definition keeps (P : World -> Prop) {A} (m : M A) : Prop :=
  forall w a w', P w -> m w = Ok a w' -> P w'.

(** [m] returns in every sound world, and changes no initialized entry. *)
Definition returns {A} (m : M A) : Prop :=
  forall w, sound w -> exists a w', m w = Ok a w' /\ stable w w'.

(** [m] gives the same value in two worlds that [check] cannot tell
    apart. *)
Definition respects {A} (m : M A) : Prop :=
  forall w w', stable w w' -> valueOf (m w') = valueOf (m w).

(** The code that writes [_dictionaries]: the exported [loadDictionary],
    [unloadDictionary] and [unloadAllDictionaries], the two read
    callbacks, and [check] and [token], which may call [loadDictionary]. *)
Inductive RegistryOp :=
| OpLoadDictionary (localeName : string)
| OpUnloadDictionary (localeName : string)
| OpUnloadAllDictionaries
| OpAffixRead (localeName : string) (r : DictionaryManager.ReadResult)
| OpDictionaryRead (localeName : string) (r : DictionaryManager.ReadResult)
| OpCheck (word : string) (localeName : option string)
| OpToken (stream : string).

Definition runOp (Typo : string -> option string -> option string -> Lexicon)
    (op : RegistryOp) : M unit :=
  match op with
  | OpLoadDictionary localeName => DictionaryManager.loadDictionary localeName
  | OpUnloadDictionary localeName => DictionaryManager.unloadDictionary localeName
  | OpUnloadAllDictionaries => DictionaryManager.unloadAllDictionaries
  | OpAffixRead localeName r => DictionaryManager.affixReadCallback Typo localeName r
  | OpDictionaryRead localeName r =>
      DictionaryManager.dictionaryReadCallback Typo localeName r
  | OpCheck word localeName => do! DictionaryManager.check word localeName in ret tt
  | OpToken stream => do! SpellChecker.token stream in ret tt
  end.

(** A run of the program, seen from the registry: operations that
    returned, in any order and for any locales, and between them anything
    that leaves [_dictionaries] and [_dictionariesBeingLoaded] alone (the
    locale, the mode or the profiles changing, rule files arriving). *)
Inductive Trace (Typo : string -> option string -> option string -> Lexicon)
  : World -> list RegistryOp -> World -> Prop :=
| trace_done w : Trace Typo w [] w
| trace_op op w w1 ops w2 :
    runOp Typo op w = Ok tt w1 -> Trace Typo w1 ops w2 ->
    Trace Typo w (op :: ops) w2
| trace_other w w1 ops w2 :
    DictionaryManager.dictionaries w1 = DictionaryManager.dictionaries w ->
    DictionaryManager.beingLoaded w1 = DictionaryManager.beingLoaded w ->
    Trace Typo w1 ops w2 ->
    Trace Typo w ops w2.

(** The locale whose read an operation completes. *)
Definition readOf (op : RegistryOp) : option string :=
  match op with
  | OpAffixRead localeName _ | OpDictionaryRead localeName _ => Some localeName
  | _ => None
  end.

(** The first test of [loadDictionary]: [localeName] is a key of
    [_dictionariesBeingLoaded]. *)
Definition isBeingLoaded (localeName : string) (w : World) : bool :=
  bool_decide (localeName ∈ DictionaryManager.beingLoaded w).

(** [localeName] is marked as being loaded and is not ready. *)
Definition stuck (localeName : string) (w : World) : bool :=
  isBeingLoaded localeName w
  && negb (DictionaryManager.hasDictionary localeName true w).

(** The three tests of [loadDictionary]: [name] is being loaded, is the
    name of a profile, or is in the registry; [loadDictionary(name)] then
    has nothing to do. *)
Definition known (name : string) (w : World) : bool :=
  isBeingLoaded name w
  || ProfileManager.hasProfile (profileManager w) name
  || DictionaryManager.hasDictionary name false w.

(** CodeMirror calls [token] on one stream after the other. *)
Fixpoint tokens (streams : list string) : M (list SpellChecker.TokenResult) :=
  match streams with
  | [] => ret []
  | stream :: rest =>
      let! r := SpellChecker.token stream in
      let! rs := tokens rest in
      ret (r :: rs)
  end.

(** The en_US load after its affix read failed and its dictionary read
    succeeded. *)
Definition enUS_half_loaded : World :=
  Fixtures.orInitial
    (Fixtures.after
       (DictionaryManager.dictionaryReadCallback Fixtures.wordListTypo "en_US"
          (DictionaryManager.ReadOk "the quick fox"))
       (Fixtures.after
          (DictionaryManager.affixReadCallback Fixtures.wordListTypo "en_US"
             DictionaryManager.ReadError)
          (Some Fixtures.enUS_loading))).

(** Of the two reads of a load, one fails and the other succeeds with
    [data]. *)
Definition oneFails (data : string) (first second : LoadEvent) : Prop :=
  (first = AffixRead DictionaryManager.ReadError
   /\ second = DictionaryRead (DictionaryManager.ReadOk data))
  \/ (first = DictionaryRead (DictionaryManager.ReadOk data)
      /\ second = AffixRead DictionaryManager.ReadError)
  \/ (first = DictionaryRead DictionaryManager.ReadError
      /\ second = AffixRead (DictionaryManager.ReadOk data))
  \/ (first = AffixRead (DictionaryManager.ReadOk data)
      /\ second = DictionaryRead DictionaryManager.ReadError).

(** What a call of [token] returns, and the world it leaves. *)
Definition tokenResult (stream : string) (w : World) : SpellChecker.TokenResult :=
  match SpellChecker.token stream w with
  | Ok r _ => r
  | Throw _ => {| SpellChecker.style := None; SpellChecker.remaining := EmptyString;
                  SpellChecker.action := SpellChecker.Skipped |}
  end.

Definition tokenWorld (stream : string) (w : World) : World :=
  Fixtures.orInitial (worldOf (SpellChecker.token stream w)).

(** The profile [my_en] is the locale; of its two dictionaries, en_US is
    ready and en_GB has not been asked for. *)
Definition my_en_selected : World :=
  Fixtures.orInitial
    (Fixtures.after (DictionaryManager.setDefaultLocale "my_en")
       (Some (Fixtures.withProfile [Fixtures.british; Fixtures.american]
                Fixtures.enUS_words))).

(** The profile [my_en] is known at start-up, before any dictionary is
    loaded. *)
Definition my_en_at_startup : World :=
  Fixtures.withProfile [Fixtures.british; Fixtures.american] initialWorld.

(** ** src/spelling/ProfileManager.js: reading the user profiles *)

Module ProfileFiles.

(** A profile file whose JSON has a [profile] name and an [items] array;
    an item has a [name] and, possibly, a [type]. *)
Record ParsedItem := {
  item_name : string;
  item_type : option string
}.

Record ParsedProfile := {
  parsed_profile : string;
  parsed_items : list ParsedItem
}.

(** The loop that sets the default item type. *)
Definition withDefaultType (item : ParsedItem) : ProfileManager.ProfileItem :=
  {| ProfileManager.name := item_name item;
     ProfileManager.type := match item_type item with
                            | Some t => t
                            | None => "dictionary"
                            end |}.

(** The callback of [profilePath.read] in [_findUserProfiles]: [None] is
    a read that failed.  A profile without items is ignored. *)
Definition profileRead (userProfiles : gmap string ProfileManager.Profile)
    (r : option ParsedProfile) : gmap string ProfileManager.Profile :=
  match r with
  | Some _profileData =>
      if (length (parsed_items _profileData) =? 0)%nat then userProfiles
      else <[parsed_profile _profileData :=
               {| ProfileManager.profile := parsed_profile _profileData;
                  ProfileManager.items :=
                    map withDefaultType (parsed_items _profileData) |}]> userProfiles
  | None => userProfiles
  end.

(** [_findUserProfiles()], as a function of the reads in the order they
    complete. *)
Definition _findUserProfiles (reads : list (option ParsedProfile))
  : gmap string ProfileManager.Profile :=
  fold_left profileRead reads ∅.

(** [_initialize()], once the promise of [_findUserProfiles] is done. *)
Definition _initialize (reads : list (option ParsedProfile))
    (st : ProfileManager.State) : ProfileManager.State :=
  ProfileManager.userProfilesFound (_findUserProfiles reads) st.

(** The profile files that count: read, and with at least one item. *)
Definition usable (r : option ParsedProfile) : bool :=
  match r with
  | Some p => negb (length (parsed_items p) =? 0)%nat
  | None => false
  end.

Definition named (n : string) (r : option ParsedProfile) : bool :=
  match r with
  | Some p => String.eqb (parsed_profile p) n
  | None => false
  end.

End ProfileFiles.

(** ** src/utils/Paths.js and src/utils/Dictionary.js

    The paths in full; [appSupport] is what
    [brackets.app.getApplicationSupportDirectory()] returns. *)

Module Paths.

Definition LINGUISTICS_DICTIONARY_PATH_NAME : string :=
  "stillat.alice.linguistics-dictionary".

Definition getExtensionsDirectory (appSupport : string) : string :=
  String.append appSupport "/extensions".

(** [getDictionaryPath(path)]; an empty [path] is replaced by the empty
    string. *)
Definition getDictionaryPath (appSupport path : string) : string :=
  String.append (getExtensionsDirectory appSupport)
    (String.append "/user/"
       (String.append LINGUISTICS_DICTIONARY_PATH_NAME (String.append "/" path))).

End Paths.

Module Dictionary.

Definition getNaturalLanguageDirectory (appSupport : string) : string :=
  Paths.getDictionaryPath appSupport "natural-languages".

Definition getUserProfilesDirectory (appSupport : string) : string :=
  Paths.getDictionaryPath appSupport "user-profiles".

Definition _getDictionaryFilePath (appSupport name extension : string) : string :=
  String.append (getNaturalLanguageDirectory appSupport)
    (String.append "/" (String.append name
      (String.append "/" (String.append name (String.append "." extension))))).

Definition getAffixFile (appSupport localeName : string) : string :=
  _getDictionaryFilePath appSupport localeName "aff".

Definition getDictionaryFile (appSupport localeName : string) : string :=
  _getDictionaryFilePath appSupport localeName "dic".

End Dictionary.

(** ** Runs of one character *)

(** [n] times the character [c]. *)
Fixpoint run (c : ascii) (n : nat) : string :=
  match n with
  | O => EmptyString
  | S k => String c (run c k)
  end.

(** An editor whose spell-check overlay sits behind another overlay. *)
Definition phpEditor : EditorManager.CodeMirror :=
  {| EditorManager.overlays := [false; true];
     EditorManager.styleSelectedText := true;
     EditorManager.refreshes := 0;
     EditorManager.modeName := "php" |}.
(** The last usable profile file named [n] among [reads]. *)
Definition lastUsable (n : string) (reads : list (option ProfileFiles.ParsedProfile))
  : option ProfileFiles.ParsedProfile :=
  match List.find (fun r => ProfileFiles.usable r && ProfileFiles.named n r) (rev reads) with
  | Some r => r
  | None => None
  end.

(** * Properties *)

(** ** Strings.js on examples *)

Module StringUtilsTests.
Import JS StringUtils.

Example isCamelCase_fooBar : isCamelCase "fooBar" = true.
Proof. reflexivity. Qed.
Example isCamelCase_foo : isCamelCase "foo" = false.
Proof. reflexivity. Qed.
Example isCamelCase_a1 : isCamelCase "a1" = true.
Proof. reflexivity. Qed.
Example isCamelCase_FooBar : isCamelCase "FooBar" = true.
Proof. reflexivity. Qed.
Example split_fooBar : splitByUpperCase "fooBar" = ["foo"; "Bar"].
Proof. reflexivity. Qed.
Example split_ABC : splitByUpperCase "ABc" = ["A"; "Bc"].
Proof. reflexivity. Qed.
Example split_empty : splitByUpperCase "" = [""].
Proof. reflexivity. Qed.
Example trim_quotes : trimChar "''it's''" squote = "it's".
Proof. reflexivity. Qed.
Example ends_with_s : endsWith "NASA's" "'s" = true.
Proof. reflexivity. Qed.
Example sep_comma : isWordSeparator (Some ","%char) = true.
Proof. reflexivity. Qed.
Example sep_apostrophe : isWordSeparator (Some squote) = false.
Proof. reflexivity. Qed.
Example parseFloat_3rd : parseFloat_isNaN "3rd" = false.
Proof. reflexivity. Qed.
Example parseFloat_word : parseFloat_isNaN "third" = true.
Proof. reflexivity. Qed.
End StringUtilsTests.

(** ** What [check] depends on, and what it leaves unchanged *)

Lemma stable_refl w : stable w w.
Proof. repeat split. Qed.

(** Closes a goal [m w = Ok r w' -> stable w w'] once [m w] is a [ret] or a
    [Throw]. *)
Ltac ret_inv :=
  let H := fresh in
  intros ? ? H; cbv beta iota delta [ret] in H;
  first [ discriminate H
        | injection H as <- <-; first [apply stable_refl | assumption] ].

Section CheckFacts.
Import DictionaryManager.

Lemma stable_trans w1 w2 w3 : stable w1 w2 -> stable w2 w3 -> stable w1 w3.
Proof.
  intros (A1 & A2 & A3 & A4 & A5) (B1 & B2 & B3 & B4 & B5).
  repeat split; try congruence.
Qed.


Lemma loadDictionary_known localeName w :
  localeName ∈ beingLoaded w \/ is_Some (dictionaries w !! localeName) ->
  loadDictionary localeName w = Ok tt w.
Proof.
  intros H. unfold loadDictionary, bind, gets, ret.
  destruct (bool_decide (localeName ∈ beingLoaded w)) eqn:E; [reflexivity|].
  destruct H as [H|[e H]].
  - apply bool_decide_eq_false in E. contradiction.
  - unfold hasDictionary. rewrite H. cbn. rewrite orb_true_r. reflexivity.
Qed.

Lemma loadDictionary_cases localeName w :
  loadDictionary localeName w = Ok tt w
  \/ (dictionaries w !! localeName = None
      /\ loadDictionary localeName w = Ok tt (startLoading localeName w)).
Proof.
  unfold loadDictionary, bind, gets, ret.
  destruct (bool_decide (localeName ∈ beingLoaded w)); [left; reflexivity|].
  destruct (ProfileManager.hasProfile (profileManager w) localeName);
    [left; reflexivity|].
  unfold hasDictionary.
  destruct (dictionaries w !! localeName) eqn:E; [left; reflexivity|].
  right. split; reflexivity.
Qed.

Lemma readyLexicon_startLoading localeName w n :
  dictionaries w !! localeName = None ->
  readyLexicon (startLoading localeName w) n = readyLexicon w n.
Proof.
  intros H. unfold readyLexicon, startLoading, dictionaries. cbn.
  destruct (decide (localeName = n)) as [->|Hne].
  - rewrite lookup_insert_eq. cbn. unfold dictionaries in H. rewrite H. reflexivity.
  - rewrite lookup_insert_ne by assumption. reflexivity.
Qed.

(** [loadDictionary] always returns, and no initialized entry changes. *)
Lemma loadDictionary_stable localeName w :
  exists w', loadDictionary localeName w = Ok tt w' /\ stable w w'.
Proof.
  destruct (loadDictionary_cases localeName w) as [H|[Hn H]].
  - exists w. split; [assumption|apply stable_refl].
  - eexists. split; [eassumption|].
    repeat split. intros n. apply readyLexicon_startLoading. assumption.
Qed.

Lemma profileVerdict_ext r1 r2 word items :
  (forall n, r1 n = r2 n) -> profileVerdict r1 word items = profileVerdict r2 word items.
Proof.
  intros H. induction items as [|it rest IH]; cbn; [reflexivity|].
  rewrite H, IH. reflexivity.
Qed.

Lemma checkVerdict_stable w w' word l :
  stable w w' -> checkVerdict w' word l = checkVerdict w word l.
Proof.
  intros (A1 & A2 & A3 & A4 & A5). unfold checkVerdict.
  rewrite A1, A2, A5.
  destruct (if ProfileManager.hasProfile (profileManager w)
                 match l with Some l0 => l0 | None => getDefaultLocale w end
            then _ else _); [|reflexivity].
  apply profileVerdict_ext, A5.
Qed.

Lemma hasDictionary_ready n w :
  hasDictionary n true w = JS.notNull (readyLexicon w n).
Proof.
  unfold hasDictionary, readyLexicon.
  destruct (dictionaries w !! n) as [e|]; [|reflexivity].
  cbn. destruct (initialized e); reflexivity.
Qed.

Lemma typoCheck_lookup n word w :
  typoCheck n word w =
  match dictionaries w !! n with
  | Some e =>
      match typo e with
      | Some t => Ok (lex_check t word) w
      | None => Throw TypeError
      end
  | None => Throw TypeError
  end.
Proof.
  unfold typoCheck, bind, entryOf.
  destruct (dictionaries w !! n) as [e|]; [|reflexivity].
  destruct (typo e); reflexivity.
Qed.

Lemma readyLexicon_Some w n ot :
  readyLexicon w n = Some ot ->
  exists e, dictionaries w !! n = Some e /\ initialized e = true /\ typo e = ot.
Proof.
  unfold readyLexicon. destruct (dictionaries w !! n) as [e|]; [|discriminate].
  destruct (initialized e) eqn:Ei; [|discriminate].
  intros [= <-]. exists e. repeat split; assumption.
Qed.

Lemma typoCheck_ready w n word ot :
  readyLexicon w n = Some ot ->
  typoCheck n word w =
  match ot with Some t => Ok (lex_check t word) w | None => Throw TypeError end.
Proof.
  intros H. destruct (readyLexicon_Some _ _ _ H) as (e & E & _ & <-).
  rewrite typoCheck_lookup, E. reflexivity.
Qed.

Lemma check_profileItems_cons word it rest w :
  check_profileItems word (it :: rest) w =
  if hasDictionary (ProfileManager.name it) true w then
    match typoCheck (ProfileManager.name it) word w with
    | Ok accepted w1 =>
        if accepted then Ok (Some true) w1 else check_profileItems word rest w1
    | Throw e => Throw e
    end
  else
    match loadDictionary (ProfileManager.name it) w with
    | Ok _ w1 => check_profileItems word rest w1
    | Throw e => Throw e
    end.
Proof.
  cbn [check_profileItems]. unfold bind, gets.
  destruct (hasDictionary (ProfileManager.name it) true w); [|reflexivity].
  destruct (typoCheck (ProfileManager.name it) word w) as [[|] w1|e]; reflexivity.
Qed.

Lemma check_profileItems_spec word items : forall w,
  valueOf (check_profileItems word items w) = profileVerdict (readyLexicon w) word items
  /\ forall r w', check_profileItems word items w = Ok r w' -> stable w w'.
Proof.
  induction items as [|it rest IH]; intros w.
  - split; [reflexivity|]. ret_inv.
  - rewrite check_profileItems_cons. cbn [profileVerdict].
    rewrite hasDictionary_ready.
    destruct (readyLexicon w (ProfileManager.name it)) as [ot|] eqn:ER; cbn [JS.notNull].
    + rewrite (typoCheck_ready _ _ _ _ ER).
      destruct ot as [t|]; [|split; [reflexivity|ret_inv]].
      destruct (lex_check t word).
      * split; [reflexivity|]. ret_inv.
      * apply IH.
    + destruct (loadDictionary_stable (ProfileManager.name it) w) as (w1 & -> & Hs).
      destruct (IH w1) as [IH1 IH2]. split.
      * rewrite IH1. apply profileVerdict_ext. apply Hs.
      * intros r w' H. eapply stable_trans; [exact Hs|]. eapply IH2; eassumption.
Qed.

Lemma check_spec word l w :
  valueOf (check word l w) = checkVerdict w word l
  /\ forall r w', check word l w = Ok r w' -> stable w w'.
Proof.
  unfold check, checkVerdict, bind, gets.
  set (ln := match l with Some l0 => l0 | None => getDefaultLocale w end).
  destruct (if ProfileManager.hasProfile (profileManager w) ln
            then ProfileManager.getProfileItems (profileManager w) ln else None)
    as [items|].
  - apply check_profileItems_spec.
  - rewrite hasDictionary_ready.
    destruct (readyLexicon w ln) as [ot|] eqn:ER; cbn [JS.notNull].
    + rewrite (typoCheck_ready _ _ _ _ ER). destruct ot as [t|].
      * split; [reflexivity|]. ret_inv.
      * split; [reflexivity|ret_inv].
    + split; [reflexivity|]. ret_inv.
Qed.

(** The value of [check] is [checkVerdict]. *)
Lemma check_value w word l : valueOf (check word l w) = checkVerdict w word l.
Proof. apply check_spec. Qed.

(** [check] changes no initialized entry and nothing outside the
    registry. *)
Lemma check_preserves word l : preserves (check word l).
Proof. intros w r w'. apply check_spec. Qed.

End CheckFacts.

(** ** The heuristics of [_hasCorrectSpelling] *)

Lemma preserves_ret {A} (a : A) : preserves (ret a).
Proof. intros w r w' [= <- <-]. apply stable_refl. Qed.

Lemma preserves_gets {A} (f : World -> A) : preserves (gets f).
Proof. intros w r w' [= <- <-]. apply stable_refl. Qed.

Lemma preserves_bind {A B} (m : M A) (k : A -> M B) :
  preserves m -> (forall a, preserves (k a)) -> preserves (bind m k).
Proof.
  intros Hm Hk w b w'. unfold bind.
  destruct (m w) as [a w1|e] eqn:E; [|discriminate].
  intros H. eapply stable_trans; [eapply Hm, E|eapply Hk, H].
Qed.

(** Decomposes a goal [preserves m] along the structure of [m]. *)
Ltac preserves_step :=
  first
    [ apply preserves_ret
    | apply preserves_gets
    | apply check_preserves
    | apply preserves_bind
    | match goal with
      | |- preserves (if ?c then _ else _) => destruct c
      | |- preserves (match ?x with _ => _ end) => destruct x
      | |- forall _, _ => intro
      end ].

Section SpellingFacts.
Import JS StringUtils SpellChecker.

Lemma camelLoop_preserves parts : preserves (_checkSpellingOfCamelCaseWord_loop parts).
Proof.
  induction parts as [|p rest IH]; cbn [_checkSpellingOfCamelCaseWord_loop].
  - apply preserves_ret.
  - apply preserves_bind; [apply check_preserves|].
    intros r. destruct (falsy r); [apply preserves_ret|exact IH].
Qed.

Lemma between_preserves word character :
  preserves (_checkSpellingBetweenCharacter word character).
Proof.
  unfold _checkSpellingBetweenCharacter, _checkSpellingOfCamelCaseWord.
  repeat first [apply camelLoop_preserves | preserves_step].
Qed.

Lemma quoteDetection_preserves word : preserves (quoteDetection word).
Proof.
  unfold quoteDetection.
  repeat first [apply between_preserves | preserves_step].
Qed.

Lemma afterUppercase_preserves word : preserves (afterUppercase word).
Proof.
  unfold afterUppercase, _checkSpellingOfCamelCaseWord.
  repeat first [apply quoteDetection_preserves | apply camelLoop_preserves
               | preserves_step].
Qed.

(** The spelling test reads the registry and may start loads; it changes
    nothing else: not [_initialized], not the separator buffer, not the
    ignore rules. *)
Lemma hasCorrectSpelling_preserves word : preserves (_hasCorrectSpelling word).
Proof.
  unfold _hasCorrectSpelling.
  repeat first [apply afterUppercase_preserves | preserves_step].
Qed.

(** The camel-case loop answers [true] exactly when every part passes
    [check]; the checks of the earlier parts do not change the answer for
    the later ones. *)
Lemma camelLoop_true parts : forall w,
  valueOf (_checkSpellingOfCamelCaseWord_loop parts w) = Some true
  <-> Forall (fun p => checkVerdict w p None = Some (Some true)) parts.
Proof.
  induction parts as [|p rest IH]; intros w; cbn [_checkSpellingOfCamelCaseWord_loop].
  - split; [constructor|reflexivity].
  - unfold bind. pose proof (check_value w p None) as Hv.
    pose proof (check_preserves p None w) as Hs.
    destruct (DictionaryManager.check p None w) as [r w1|e]; cbn in Hv.
    + specialize (Hs r w1 eq_refl).
      assert (Hrest : Forall (fun q => checkVerdict w1 q None = Some (Some true)) rest
                      <-> Forall (fun q => checkVerdict w q None = Some (Some true)) rest).
      { split; intros HF; (eapply Forall_impl; [exact HF|]); cbn; intros a Ha;
          rewrite <- Ha; [symmetry|]; apply checkVerdict_stable; assumption. }
      destruct r as [[|]|]; cbn [falsy].
      * rewrite IH, Hrest. split.
        -- intros HF. constructor; [congruence|exact HF].
        -- intros HF. inversion HF; subst. assumption.
      * split; [discriminate|]. intros HF. inversion HF; subst. congruence.
      * split; [discriminate|]. intros HF. inversion HF; subst. congruence.
    + split; [discriminate|]. intros HF. inversion HF; subst. congruence.
Qed.

Lemma hasCorrectSpelling_fooBar w :
  _hasCorrectSpelling "fooBar" w =
  match _checkSpellingOfCamelCaseWord_loop ["foo"; "Bar"] w with
  | Ok b w' => Ok (Some b) w'
  | Throw e => Throw e
  end.
Proof.
  unfold _hasCorrectSpelling.
  change (_isCommonTerm "fooBar") with false.
  change (negb (parseFloat_isNaN "fooBar")) with false.
  cbv iota. unfold bind at 1, gets.
  destruct (SpellCheckerState._spellingIgnoreUppercase (spellChecker w)); reflexivity.
Qed.

(** *** Words between quotes *)

Lemma length_append s t :
  String.length (String.append s t) = String.length s + String.length t.
Proof. induction s as [|a s IH]; [reflexivity|]. simpl. f_equal. exact IH. Qed.











End SpellingFacts.

(** ** The two read callbacks, one step at a time *)

Section Callbacks.
Import DictionaryManager.
Variable Typo : string -> option string -> option string -> Lexicon.
Variable L : string.

Lemma affix_ok_waits w af ad df dd a :
  JS.isTrue df = false ->
  InFlight L w af ad df dd ->
  exists w1, affixReadCallback Typo L (ReadOk a) w = Ok tt w1
    /\ InFlight L w1 (Some true) (Some a) df dd
    /\ effects w1 = effects w.
Proof.
  intros Hn (Hb & e & E & <- & <- & <- & <-).
  unfold affixReadCallback, bind, assignEntry. rewrite E.
  unfold dictionaries at 1. cbn. rewrite lookup_insert_eq.
  unfold _performTypoInitializationOnLocale, bind, entryOf.
  unfold dictionaries at 1. cbn. rewrite lookup_insert_eq. cbn. rewrite Hn.
  eexists. split; [reflexivity|]. split; [|reflexivity].
  split; [exact Hb|]. eexists. split.
  { unfold dictionaries. cbn. apply lookup_insert_eq. }
  cbn. repeat split.
Qed.

Lemma dictionary_ok_waits w af ad df dd d :
  JS.isTrue af = false ->
  InFlight L w af ad df dd ->
  exists w1, dictionaryReadCallback Typo L (ReadOk d) w = Ok tt w1
    /\ InFlight L w1 af ad (Some true) (Some d)
    /\ effects w1 = effects w.
Proof.
  intros Hn (Hb & e & E & <- & <- & <- & <-).
  unfold dictionaryReadCallback, bind, assignEntry. rewrite E.
  unfold dictionaries at 1. cbn. rewrite lookup_insert_eq.
  unfold _performTypoInitializationOnLocale, bind, entryOf.
  unfold dictionaries at 1. cbn. rewrite lookup_insert_eq. cbn. rewrite Hn.
  eexists. split; [reflexivity|]. split; [|reflexivity].
  split; [exact Hb|]. eexists. split.
  { unfold dictionaries. cbn. apply lookup_insert_eq. }
  cbn. repeat split.
Qed.

Lemma affix_ok_completes w af ad dd a :
  InFlight L w af ad (Some true) dd ->
  exists w1, affixReadCallback Typo L (ReadOk a) w = Ok tt w1
    /\ Ready Typo L w1 (Some a) dd
    /\ effects w1 = (effects w ++ loadedEffects L (Some a) dd)%list.
Proof.
  intros (Hb & e & E & <- & <- & Hd & <-).
  unfold affixReadCallback, bind, assignEntry. rewrite E.
  unfold dictionaries at 1. cbn. rewrite lookup_insert_eq.
  unfold _performTypoInitializationOnLocale, bind, entryOf.
  unfold dictionaries at 1. cbn. rewrite lookup_insert_eq. cbn. rewrite Hd.
  cbn. unfold assignEntry, dictionaries. cbn. rewrite lookup_insert_eq.
  cbn. rewrite lookup_insert_eq. cbn.
  eexists. split; [reflexivity|]. split.
  - unfold Ready. split.
    + unfold beingLoaded. cbn. apply not_elem_of_difference. right.
      apply elem_of_singleton. reflexivity.
    + eexists. split; [unfold dictionaries; cbn; apply lookup_insert_eq|].
      cbn. split; reflexivity.
  - cbn. rewrite <- !app_assoc. reflexivity.
Qed.

Lemma dictionary_ok_completes w ad df dd d :
  InFlight L w (Some true) ad df dd ->
  exists w1, dictionaryReadCallback Typo L (ReadOk d) w = Ok tt w1
    /\ Ready Typo L w1 ad (Some d)
    /\ effects w1 = (effects w ++ loadedEffects L ad (Some d))%list.
Proof.
  intros (Hb & e & E & Ha & <- & <- & <-).
  unfold dictionaryReadCallback, bind, assignEntry. rewrite E.
  unfold dictionaries at 1. cbn. rewrite lookup_insert_eq.
  unfold _performTypoInitializationOnLocale, bind, entryOf.
  unfold dictionaries at 1. cbn. rewrite lookup_insert_eq. cbn. rewrite Ha.
  cbn. unfold assignEntry, dictionaries. cbn. rewrite lookup_insert_eq.
  cbn. rewrite lookup_insert_eq. cbn.
  eexists. split; [reflexivity|]. split.
  - unfold Ready. split.
    + unfold beingLoaded. cbn. apply not_elem_of_difference. right.
      apply elem_of_singleton. reflexivity.
    + eexists. split; [unfold dictionaries; cbn; apply lookup_insert_eq|].
      cbn. split; reflexivity.
  - cbn. rewrite <- !app_assoc. reflexivity.
Qed.

Lemma affix_error_stays w af ad df dd :
  df <> None -> InFlight L w af ad df dd ->
  exists w1, affixReadCallback Typo L ReadError w = Ok tt w1
    /\ InFlight L w1 None ad df dd
    /\ effects w1 = effects w.
Proof.
  intros Hn (Hb & e & E & <- & <- & <- & <-).
  unfold affixReadCallback, bind, assignEntry. rewrite E.
  unfold _checkDictionaryForCleanUp, bind, entryOf.
  unfold dictionaries at 1. cbn. rewrite lookup_insert_eq. cbn.
  destruct (dictionaryLoaded e) eqn:Ed; [|contradiction]. cbn.
  eexists. split; [reflexivity|]. split; [|reflexivity].
  split; [exact Hb|]. eexists. split.
  { unfold dictionaries. cbn. apply lookup_insert_eq. }
  cbn. repeat split. assumption.
Qed.

Lemma dictionary_error_stays w af ad df dd :
  af <> None -> InFlight L w af ad df dd ->
  exists w1, dictionaryReadCallback Typo L ReadError w = Ok tt w1
    /\ InFlight L w1 af ad None dd
    /\ effects w1 = effects w.
Proof.
  intros Hn (Hb & e & E & <- & <- & <- & <-).
  unfold dictionaryReadCallback, bind, assignEntry. rewrite E.
  unfold _checkDictionaryForCleanUp, bind, entryOf.
  unfold dictionaries at 1. cbn. rewrite lookup_insert_eq. cbn.
  destruct (affixLoaded e) eqn:Ed; [|contradiction]. cbn.
  eexists. split; [reflexivity|]. split; [|reflexivity].
  split; [exact Hb|]. eexists. split.
  { unfold dictionaries. cbn. apply lookup_insert_eq. }
  cbn. repeat split. assumption.
Qed.

Lemma affix_error_cleans w af ad dd :
  InFlight L w af ad None dd ->
  exists w1, affixReadCallback Typo L ReadError w = Ok tt w1
    /\ Removed L w1
    /\ effects w1 = (effects w ++ failedEffects L)%list.
Proof.
  intros (Hb & e & E & <- & <- & Hd & <-).
  unfold affixReadCallback, bind, assignEntry. rewrite E.
  unfold _checkDictionaryForCleanUp, bind, entryOf.
  unfold dictionaries at 1. cbn. rewrite lookup_insert_eq. cbn.
  rewrite Hd. cbn.
  eexists. split; [reflexivity|]. split.
  - unfold Removed. split.
    + unfold dictionaries. cbn. apply lookup_delete_eq.
    + unfold beingLoaded. cbn. apply not_elem_of_difference. right.
      apply elem_of_singleton. reflexivity.
  - cbn. rewrite <- !app_assoc. reflexivity.
Qed.

Lemma dictionary_error_cleans w ad df dd :
  InFlight L w None ad df dd ->
  exists w1, dictionaryReadCallback Typo L ReadError w = Ok tt w1
    /\ Removed L w1
    /\ effects w1 = (effects w ++ failedEffects L)%list.
Proof.
  intros (Hb & e & E & Ha & <- & <- & <-).
  unfold dictionaryReadCallback, bind, assignEntry. rewrite E.
  unfold _checkDictionaryForCleanUp, bind, entryOf.
  unfold dictionaries at 1. cbn. rewrite lookup_insert_eq. cbn.
  rewrite Ha. cbn.
  eexists. split; [reflexivity|]. split.
  - unfold Removed. split.
    + unfold dictionaries. cbn. apply lookup_delete_eq.
    + unfold beingLoaded. cbn. apply not_elem_of_difference. right.
      apply elem_of_singleton. reflexivity.
  - cbn. rewrite <- !app_assoc. reflexivity.
Qed.
End Callbacks.

Section LoadTraces.
Import DictionaryManager.
Variable Typo : string -> option string -> option string -> Lexicon.
Variable L : string.

Lemma runLoad_requests n rest w :
  L ∈ beingLoaded w \/ is_Some (dictionaries w !! L) ->
  runLoad Typo L (requests n ++ rest)%list w = runLoad Typo L rest w.
Proof.
  intros H. induction n as [|n IH]; [reflexivity|].
  cbn [requests repeat app runLoad loadStep]. unfold bind.
  rewrite (loadDictionary_known L w H). exact IH.
Qed.

Lemma runLoad_cons ev rest w w1 :
  loadStep Typo L ev w = Ok tt w1 -> runLoad Typo L (ev :: rest) w = runLoad Typo L rest w1.
Proof. intros H. cbn [runLoad]. unfold bind. rewrite H. reflexivity. Qed.

Lemma InFlight_known w af ad df dd :
  InFlight L w af ad df dd -> L ∈ beingLoaded w \/ is_Some (dictionaries w !! L).
Proof. intros [H _]. left. exact H. Qed.

Lemma Ready_known w ad dd :
  Ready Typo L w ad dd -> L ∈ beingLoaded w \/ is_Some (dictionaries w !! L).
Proof. intros (_ & e & E & _). right. eauto. Qed.

Lemma runLoad_requests_end n w :
  L ∈ beingLoaded w \/ is_Some (dictionaries w !! L) ->
  runLoad Typo L (requests n) w = Ok tt w.
Proof.
  intros H. rewrite <- (app_nil_r (requests n)). rewrite runLoad_requests by assumption.
  reflexivity.
Qed.

End LoadTraces.

(** ** One call of [token] *)

Section ScannerFacts.
Import JS StringUtils SpellChecker.

(** [token], branch by branch. *)
Lemma token_unfold stream w :
  token stream w =
  let w0 := clearIfDirty w in
  if negb (_isInitialized w) then
    Ok {| style := None; remaining := EmptyString; action := Skipped |} w0
  else if isWordSeparator (peek stream) then
    Ok {| style := None; remaining := next stream;
          action := SeparatorRead (peek stream) |}
       (withLastWordSeparator (appendCharacter (lastWordSeparator w0) (peek stream)) w0)
  else
    match _hasCorrectSpelling (fst (scanWord stream)) w0 with
    | Ok correct w1 =>
        Ok {| style := verdictStyle correct
                 (UtilityManager.shouldIgnore (utilityManager w1)
                    (fst (scanWord stream)) (lastWordSeparator w1));
              remaining := snd (scanWord stream);
              action := WordTested (fst (scanWord stream)) (lastWordSeparator w1) |}
           (withLastWordSeparatorDirty true w1)
    | Throw e => Throw e
    end.
Proof.
  unfold token, clearIfDirty, bind, gets, ret, setLastWordSeparator,
    setLastWordSeparatorDirty, modify, verdictStyle.
  destruct (lastWordSeparatorDirty w); cbv zeta.
  all: change (_isInitialized
                 (withLastWordSeparatorDirty false (withLastWordSeparator "" w)))
         with (_isInitialized w).
  all: destruct (_isInitialized w); [|reflexivity]; cbn [negb].
  all: destruct (isWordSeparator (peek stream)); [reflexivity|].
  all: destruct (scanWord stream) as [wd rest]; cbn [fst snd].
  all: match goal with |- context [ _hasCorrectSpelling ?a ?x ] =>
         destruct (_hasCorrectSpelling a x) as [correct w1|e] end; [|reflexivity].
  all: match goal with |- context [ if ?c then _ else _ ] => destruct c end;
    reflexivity.
Qed.

Lemma clearIfDirty_clean w :
  lastWordSeparatorDirty (clearIfDirty w) = false
  /\ lastWordSeparator (clearIfDirty w) = pendingRun w.
Proof.
  unfold clearIfDirty, pendingRun.
  destruct (lastWordSeparatorDirty w) eqn:E; [split; reflexivity|].
  split; [exact E|reflexivity].
Qed.

(** What one call does to the separator buffer. *)
Lemma token_call stream w r w1 :
  token stream w = Ok r w1 ->
  match action r with
  | Skipped =>
      remaining r = EmptyString
      /\ lastWordSeparatorDirty w1 = false /\ lastWordSeparator w1 = pendingRun w
  | SeparatorRead ch =>
      ch = peek stream /\ isWordSeparator ch = true
      /\ remaining r = next stream
      /\ lastWordSeparatorDirty w1 = false
      /\ lastWordSeparator w1 = appendCharacter (pendingRun w) ch
  | WordTested word beforeContext =>
      (word, remaining r) = scanWord stream
      /\ beforeContext = pendingRun w
      /\ lastWordSeparatorDirty w1 = true
  end.
Proof.
  rewrite token_unfold. cbv zeta.
  destruct (clearIfDirty_clean w) as [Hd Hs].
  destruct (negb (_isInitialized w)).
  { intros [= <- <-]. cbn. repeat split; assumption. }
  destruct (isWordSeparator (peek stream)) eqn:Esep.
  { intros [= <- <-]. cbn. rewrite Hs. repeat split; assumption. }
  destruct (_hasCorrectSpelling (fst (scanWord stream)) (clearIfDirty w))
    as [correct w2|e] eqn:E; [|discriminate].
  intros [= <- <-]. cbn.
  destruct (hasCorrectSpelling_preserves _ _ _ _ E) as (_ & _ & _ & Hsc & _).
  unfold lastWordSeparator. rewrite Hsc. fold (lastWordSeparator (clearIfDirty w)).
  rewrite Hs. repeat split. destruct (scanWord stream); reflexivity.
Qed.

End ScannerFacts.

(** * The claims *)

(** ** Ignore rules *)

(** Loading a rule file never changes [_alwaysIgnoreCachedList]. *)
Lemma loadUtilityFile_keeps_cached_list err data st :
  UtilityManager._alwaysIgnoreCachedList (UtilityManager._loadUtilityFile err data st)
  = UtilityManager._alwaysIgnoreCachedList st.
Proof.
  unfold UtilityManager._loadUtilityFile.
  destruct (negb err); [|reflexivity].
  destruct (negb (UtilityManager._containsCondition data)); reflexivity.
Qed.

(** C1 (the code departs from it).  The claim: every word of a loaded
    unconditional rule file is ignored, whatever the before-context.  The
    code: the file [frameworkNames] has no condition and is stored in
    [_alwaysIgnoreFiles], yet [shouldIgnore] answers [false] for its word
    [wordpress] with every before-context, and [token] flags the word,
    because [_loadUtilityFile] drops the result of [concat]. *)
Theorem C1_unconditional_rule_words_are_flagged :
  let st := UtilityManager._loadUtilityFile false Fixtures.frameworkNames
              UtilityManager.initial in
  UtilityManager._containsCondition Fixtures.frameworkNames = false
  /\ UtilityManager._alwaysIgnoreFiles st = [Fixtures.frameworkNames]
  /\ JS.inArray "wordpress" (UtilityManager.ignore Fixtures.frameworkNames) = true
  /\ (forall beforeContext,
        UtilityManager.shouldIgnore st "wordpress" beforeContext = false)
  /\ option_map SpellChecker.style
       (valueOf (SpellChecker.token "wordpress" Fixtures.enUS_words_with_rule))
     = Some (Some SpellChecker.errorStyle).
Proof.
  cbv zeta. split; [reflexivity|]. split; [reflexivity|]. split; [reflexivity|]. split.
  - intros beforeContext. unfold UtilityManager.shouldIgnore.
    rewrite loadUtilityFile_keeps_cached_list.
    change (JS.inArray "wordpress"
              (UtilityManager._alwaysIgnoreCachedList UtilityManager.initial))
      with false.
    cbv iota. destruct (String.length beforeContext =? 0)%nat; reflexivity.
  - vm_compute. reflexivity.
Qed.

(** ** Camel case *)

(** C2, as stated, fails: with a lexicon that knows [foo] and the name
    [Bar] but not [bar], the word [fooBar] is classified correct although
    [check("bar")] is [false]. *)
Lemma C2_counterexample :
  ~ (forall w,
       valueOf (SpellChecker._hasCorrectSpelling "fooBar" w) = Some (Some true)
       <-> valueOf (DictionaryManager.check "foo" None w) = Some (Some true)
           /\ valueOf (DictionaryManager.check "bar" None w) = Some (Some true)).
Proof.
  intros H. destruct (H Fixtures.enUS_foo_Bar) as [H1 _].
  assert (E : valueOf (SpellChecker._hasCorrectSpelling "fooBar" Fixtures.enUS_foo_Bar)
              = Some (Some true)) by (vm_compute; reflexivity).
  destruct (H1 E) as [_ Hbar]. vm_compute in Hbar. discriminate Hbar.
Qed.

(** C2 (amended).  In every world, [_hasCorrectSpelling("fooBar")] is
    [true] if and only if [check("foo")] and [check("Bar")] are [true]: the
    word is split before its upper-case letters and every part goes to
    [check] with the capital it has in the word. *)
Theorem C2_camel_case_parts_keep_their_case w :
  valueOf (SpellChecker._hasCorrectSpelling "fooBar" w) = Some (Some true)
  <-> valueOf (DictionaryManager.check "foo" None w) = Some (Some true)
      /\ valueOf (DictionaryManager.check "Bar" None w) = Some (Some true).
Proof.
  rewrite hasCorrectSpelling_fooBar, !check_value.
  pose proof (camelLoop_true ["foo"; "Bar"] w) as H.
  destruct (SpellChecker._checkSpellingOfCamelCaseWord_loop ["foo"; "Bar"] w)
    as [b w'|e]; cbn in *.
  - split.
    + intros [= ->]. destruct H as [H _]. specialize (H eq_refl).
      inversion H as [|? ? H1 H2]; subst. inversion H2; subst. split; assumption.
    + intros [H1 H2]. destruct H as [_ H]. rewrite H; [reflexivity|].
      repeat constructor; assumption.
  - split; [discriminate|]. intros [H1 H2]. destruct H as [_ H].
    discriminate H. repeat constructor; assumption.
Qed.

(** ** Quotes *)




(** ** Numbers *)

(** C10.  A word for which [parseFloat] does not give NaN -- a number, or
    any word that starts like one, as [3rd] and [10px] do -- is classified
    correct in every world, and [token] returns no error style for it. *)
Theorem C10_numeric_prefix_is_correct word w :
  JS.parseFloat_isNaN word = false ->
  SpellChecker._hasCorrectSpelling word w = Ok (Some true) w
  /\ forall stream r w',
       fst (SpellChecker.scanWord stream) = word ->
       SpellChecker.token stream w = Ok r w' ->
       SpellChecker.style r = None.
Proof.
  intros H.
  assert (HC : forall w0, SpellChecker._hasCorrectSpelling word w0 = Ok (Some true) w0).
  { intros w0. unfold SpellChecker._hasCorrectSpelling. rewrite H.
    destruct (SpellChecker._isCommonTerm word); reflexivity. }
  split; [apply HC|].
  intros stream r w' Hw. rewrite token_unfold. cbv zeta.
  destruct (negb (SpellChecker._isInitialized w)); [intros [= <- <-]; reflexivity|].
  destruct (StringUtils.isWordSeparator (SpellChecker.peek stream));
    [intros [= <- <-]; reflexivity|].
  rewrite Hw, HC. intros [= <- <-]. reflexivity.
Qed.

Lemma C10_witness :
  JS.parseFloat_isNaN "3rd" = false
  /\ JS.parseFloat_isNaN "10px" = false
  /\ SpellChecker._hasCorrectSpelling "3rd" Fixtures.enUS_loading
     = Ok (Some true) Fixtures.enUS_loading
  /\ SpellChecker._hasCorrectSpelling "10px" Fixtures.enUS_words
     = Ok (Some true) Fixtures.enUS_words.
Proof.
  split; [reflexivity|]. split; [reflexivity|]. split.
  - exact (proj1 (C10_numeric_prefix_is_correct "3rd" Fixtures.enUS_loading eq_refl)).
  - exact (proj1 (C10_numeric_prefix_is_correct "10px" Fixtures.enUS_words eq_refl)).
Defined.

(** ** The gate of the overlay *)

(** C4 (the code departs from it).  The claim, and the comments of the
    code ([check]: prevent every word from being flagged while the
    dictionaries are being loaded; [_isInitialized]: both files have
    loaded): while the targeted locale has no ready lexicon, no word gets
    the error style.  The code: the flag [_initialized] is one for all
    locales.
    - After fr_FR has loaded and the locale has been switched to en_US,
      whose files are still being read, the flag is [true], [check] returns
      [null] for every word, [token] negates it, and the English words
      [the], [quick] and [fox] get the error style.
    - After fr_FR and en_US have been requested and the two reads of fr_FR
      have failed, the handler of [dictionaryUnloaded] sets the flag to
      [hasDictionariesLoaded()], which counts the en_US entry that is
      still loading: no dictionary is ready at all, the flag is [true],
      and the same words get the error style. *)
Theorem C4_words_are_flagged_while_the_locale_loads :
  (let w := Fixtures.frFR_ready_enUS_loading in
   DictionaryManager.getDefaultLocale w = "en_US"
   /\ activeReady w = false
   /\ SpellChecker._isInitialized w = true
   /\ valueOf (DictionaryManager.check "the" None w) = Some None
   /\ option_map (map SpellChecker.style) (valueOf (tokens ["the"; "quick"; "fox"] w))
      = Some [Some SpellChecker.errorStyle; Some SpellChecker.errorStyle;
              Some SpellChecker.errorStyle])
  /\ (let w := frFR_failed_enUS_loading in
      DictionaryManager.getDefaultLocale w = "en_US"
      /\ activeReady w = false
      /\ (forall n, DictionaryManager.hasDictionary n true w = false)
      /\ SpellChecker._isInitialized w = true
      /\ valueOf (DictionaryManager.check "the" None w) = Some None
      /\ option_map (map SpellChecker.style)
           (valueOf (tokens ["the"; "quick"; "fox"] w))
         = Some [Some SpellChecker.errorStyle; Some SpellChecker.errorStyle;
                 Some SpellChecker.errorStyle]).
Proof.
  cbv zeta. split.
  - repeat split; vm_compute; reflexivity.
  - split; [vm_compute; reflexivity|]. split; [vm_compute; reflexivity|].
    split; [|repeat split; vm_compute; reflexivity].
    intros n. unfold DictionaryManager.hasDictionary.
    assert (E : DictionaryManager.dictionaries frFR_failed_enUS_loading
                = {[ "en_US" := DictionaryManager.newEntry "en_US" ]})
      by (vm_compute; reflexivity).
    rewrite E. destruct (decide (n = "en_US")) as [->|Hne].
    + rewrite lookup_singleton_eq. reflexivity.
    + rewrite lookup_singleton_ne by congruence. reflexivity.
Qed.

(** What the flag does guarantee: while it is [false], a call of [token]
    skips to the end of its stream, returns no style and tests no word,
    whatever the registry holds; it only empties a dirty separator
    buffer. *)
Remark closed_gate_skips_the_line w stream :
  SpellChecker._isInitialized w = false ->
  SpellChecker.token stream w
  = Ok {| SpellChecker.style := None;
          SpellChecker.remaining := EmptyString;
          SpellChecker.action := SpellChecker.Skipped |}
       (clearIfDirty w).
Proof.
  intros H. rewrite token_unfold. cbv zeta. rewrite H. reflexivity.
Qed.

(** How the listeners of SpellChecker.js move the flag. *)
Lemma listeners_move_the_gate w localeName :
  SpellChecker._isInitialized initialWorld = false
  /\ SpellChecker._isInitialized
       (DictionaryManager.listeners (dictionaryLoaded_event localeName) w) = true
  /\ SpellChecker._isInitialized
       (DictionaryManager.listeners dictionariesUnloaded_event w) = false
  /\ SpellChecker._isInitialized
       (DictionaryManager.listeners (dictionaryUnloaded_event localeName) w)
     = DictionaryManager.hasDictionariesLoaded w.
Proof. repeat split. Qed.

(** The listeners leave the separator buffer alone: a notification is one
    of the steps a [Run] allows between two calls of [token]. *)
Lemma listeners_keep_the_separator_buffer n w :
  SpellChecker.lastWordSeparatorDirty (DictionaryManager.listeners n w)
  = SpellChecker.lastWordSeparatorDirty w
  /\ SpellChecker.lastWordSeparator (DictionaryManager.listeners n w)
     = SpellChecker.lastWordSeparator w.
Proof. destruct n; split; reflexivity. Qed.

(** ** Suggestions *)

(** [suggest] faults on every entry whose lexicon is still [null]. *)
Lemma suggest_faults_on_unready_entry word localeName w e :
  localeName <> EmptyString ->
  DictionaryManager.dictionaries w !! localeName = Some e ->
  typo e = None ->
  DictionaryManager.suggest word (Some localeName) w = Throw TypeError.
Proof.
  intros Hne E Ht. unfold DictionaryManager.suggest, bind, gets.
  destruct localeName as [|c l]; [contradiction|]. cbn [String.length Nat.eqb].
  unfold DictionaryManager.hasDictionary, DictionaryManager.entryOf.
  rewrite E. cbn [negb]. cbv beta iota. rewrite E, Ht. reflexivity.
Qed.

(** C8 (the code departs from it).  The claim: [suggest] returns [null]
    without faulting when the locale has an entry that is still loading.
    The code: while en_US loads, [hasDictionary] without [safeMode] is
    [true], and [suggest] raises a [TypeError] on the [null] lexicon;
    [check], which passes [safeMode], returns [null] in the same world. *)
Theorem C8_suggest_faults_while_loading :
  DictionaryManager.hasDictionary "en_US" false Fixtures.enUS_loading = true
  /\ DictionaryManager.hasDictionary "en_US" true Fixtures.enUS_loading = false
  /\ DictionaryManager.suggest "helo" (Some "en_US") Fixtures.enUS_loading
     = Throw TypeError
  /\ SpellChecker.suggest "helo" Fixtures.enUS_loading = Throw TypeError
  /\ valueOf (DictionaryManager.check "helo" (Some "en_US") Fixtures.enUS_loading)
     = Some None.
Proof.
  split; [vm_compute; reflexivity|]. split; [vm_compute; reflexivity|].
  split; [vm_compute; reflexivity|]. split; vm_compute; reflexivity.
Qed.

(** On a Ready entry [suggest] delegates to its lexicon. *)
Lemma suggest_delegates_when_ready word localeName w lex :
  localeName <> EmptyString ->
  ReadyWith w localeName lex ->
  DictionaryManager.suggest word (Some localeName) w = Ok (Some (lex_suggest lex word)) w.
Proof.
  intros Hne (e & E & _ & Ht). unfold DictionaryManager.suggest, bind, gets.
  destruct localeName as [|c l]; [contradiction|]. cbn [String.length Nat.eqb].
  unfold DictionaryManager.hasDictionary, DictionaryManager.entryOf.
  rewrite E. cbn [negb]. cbv beta iota. rewrite E, Ht. reflexivity.
Qed.

(** ** Profiles *)

Lemma check_two_ready_items w X Y lx ly word :
  ReadyWith w (ProfileManager.name X) lx ->
  ReadyWith w (ProfileManager.name Y) ly ->
  DictionaryManager.check_profileItems word [X; Y] w
  = Ok (Some (lex_check lx word || lex_check ly word)) w.
Proof.
  intros (ex & Ex & Ix & Tx) (ey & Ey & Iy & Ty).
  rewrite check_profileItems_cons. unfold DictionaryManager.hasDictionary at 1.
  rewrite Ex. cbn [negb]. rewrite Ix, typoCheck_lookup, Ex, Tx.
  destruct (lex_check lx word); [reflexivity|].
  rewrite check_profileItems_cons. unfold DictionaryManager.hasDictionary at 1.
  rewrite Ey. cbn [negb]. rewrite Iy, typoCheck_lookup, Ey, Ty.
  destruct (lex_check ly word); reflexivity.
Qed.

(** C6.  For a profile [P] whose items are available and are [A] and [B],
    in either order, both with a Ready entry: [check(w, P)] is the
    disjunction of the two lexicons' answers and changes nothing; so it is
    [true] as soon as one of them accepts the word, and the order of the
    items does not matter. *)
Theorem C6_profile_check_is_a_disjunction w P A B la lb word items :
  ProfileManager.getProfileItems (profileManager w) P = Some items ->
  items = [A; B] \/ items = [B; A] ->
  ReadyWith w (ProfileManager.name A) la ->
  ReadyWith w (ProfileManager.name B) lb ->
  DictionaryManager.check word (Some P) w
  = Ok (Some (lex_check la word || lex_check lb word)) w
  /\ (lex_check la word = true \/ lex_check lb word = true ->
      DictionaryManager.check word (Some P) w = Ok (Some true) w).
Proof.
  intros Hitems Horder HA HB.
  assert (E : DictionaryManager.check word (Some P) w
              = Ok (Some (lex_check la word || lex_check lb word)) w).
  { unfold DictionaryManager.check, bind, gets.
    assert (Hp : ProfileManager.hasProfile (profileManager w) P = true).
    { unfold ProfileManager.getProfileItems in Hitems.
      destruct (ProfileManager.hasProfile (profileManager w) P); [reflexivity|].
      rewrite andb_false_r in Hitems. discriminate Hitems. }
    rewrite Hp, Hitems.
    destruct Horder as [->| ->].
    - apply check_two_ready_items; assumption.
    - rewrite (check_two_ready_items w B A lb la) by assumption.
      rewrite orb_comm. reflexivity. }
  split; [exact E|].
  intros [H|H]; rewrite E, H; [reflexivity|rewrite orb_true_r; reflexivity].
Qed.

Lemma C6_witness :
  let la := Fixtures.wordListTypo "en_GB" (Some "SET UTF-8") (Some "colour") in
  let lb := Fixtures.wordListTypo "en_US" (Some "SET UTF-8") (Some "color") in
  lex_check la "color" = false
  /\ lex_check lb "color" = true
  /\ DictionaryManager.check "color" (Some "my_en") Fixtures.bothEnglish
     = Ok (Some true) Fixtures.bothEnglish.
Proof.
  cbv zeta. split; [reflexivity|]. split; [reflexivity|].
  refine (proj2 (C6_profile_check_is_a_disjunction Fixtures.bothEnglish "my_en"
                   Fixtures.british Fixtures.american
                   (Fixtures.wordListTypo "en_GB" (Some "SET UTF-8") (Some "colour"))
                   (Fixtures.wordListTypo "en_US" (Some "SET UTF-8") (Some "color"))
                   "color" [Fixtures.british; Fixtures.american] _ _ _ _) _).
  - vm_compute. reflexivity.
  - left. reflexivity.
  - eexists. split; [vm_compute; reflexivity|]. split; reflexivity.
  - eexists. split; [vm_compute; reflexivity|]. split; reflexivity.
  - right. reflexivity.
Defined.

(** ** Loading a dictionary *)

(** C7.  While [L] is loading, [loadDictionary(L)] changes nothing, not
    even the effects.  When then the two reads succeed, in either order and
    with any number of further [loadDictionary(L)] calls before, between
    and after them, the run ends with [L] Ready, and what it adds to the
    effects is one [new Typo], built from the data of the two reads, and
    one [dictionaryLoaded(L)]. *)
Theorem C7_load_is_deduplicated Typo L w a d first second n0 n1 n2 :
  Loading L w ->
  bothSucceed a d first second ->
  DictionaryManager.loadDictionary L w = Ok tt w
  /\ exists w',
       runLoad Typo L
         (requests n0 ++ first :: requests n1 ++ second :: requests n2)%list w
       = Ok tt w'
       /\ Ready Typo L w' (Some a) (Some d)
       /\ effects w' = (effects w ++ loadedEffects L (Some a) (Some d))%list.
Proof.
  intros (ad & dd & HF) Hev.
  split; [apply loadDictionary_known, (InFlight_known L _ _ _ _ _ HF)|].
  rewrite runLoad_requests by exact (InFlight_known L _ _ _ _ _ HF).
  destruct Hev as [[-> ->]|[-> ->]].
  - destruct (affix_ok_waits Typo L w _ _ (Some false) _ a eq_refl HF) as (w1 & E1 & HF1 & Ef1).
    rewrite (runLoad_cons Typo L (AffixRead _) _ w w1 E1).
    rewrite runLoad_requests by exact (InFlight_known L _ _ _ _ _ HF1).
    destruct (dictionary_ok_completes Typo L w1 _ _ _ d HF1) as (w2 & E2 & HR & Ef2).
    rewrite (runLoad_cons Typo L (DictionaryRead _) _ w1 w2 E2).
    rewrite runLoad_requests_end by exact (Ready_known Typo L _ _ _ HR).
    exists w2. split; [reflexivity|]. split; [exact HR|].
    rewrite Ef2, Ef1. reflexivity.
  - destruct (dictionary_ok_waits Typo L w (Some false) _ _ _ d eq_refl HF) as (w1 & E1 & HF1 & Ef1).
    rewrite (runLoad_cons Typo L (DictionaryRead _) _ w w1 E1).
    rewrite runLoad_requests by exact (InFlight_known L _ _ _ _ _ HF1).
    destruct (affix_ok_completes Typo L w1 _ _ _ a HF1) as (w2 & E2 & HR & Ef2).
    rewrite (runLoad_cons Typo L (AffixRead _) _ w1 w2 E2).
    rewrite runLoad_requests_end by exact (Ready_known Typo L _ _ _ HR).
    exists w2. split; [reflexivity|]. split; [exact HR|].
    rewrite Ef2, Ef1. reflexivity.
Qed.

(** The first [loadDictionary] of an unknown locale makes it Loading. *)
Lemma loadDictionary_starts_loading L w :
  (L ∉ DictionaryManager.beingLoaded w) ->
  ProfileManager.hasProfile (profileManager w) L = false ->
  DictionaryManager.dictionaries w !! L = None ->
  DictionaryManager.loadDictionary L w = Ok tt (startLoading L w)
  /\ Loading L (startLoading L w).
Proof.
  intros Hb Hp Hd. split.
  - unfold DictionaryManager.loadDictionary, bind, gets, ret.
    rewrite (bool_decide_eq_false_2 _ Hb), Hp.
    unfold DictionaryManager.hasDictionary. rewrite Hd. reflexivity.
  - exists None, None. split.
    + unfold DictionaryManager.beingLoaded, startLoading. cbn.
      apply elem_of_union. right. apply elem_of_singleton. reflexivity.
    + exists (DictionaryManager.newEntry L). split.
      * unfold DictionaryManager.dictionaries, startLoading. cbn.
        apply lookup_insert_eq.
      * repeat split.
Qed.

Lemma enUS_loading_is_Loading : Loading "en_US" Fixtures.enUS_loading.
Proof.
  change Fixtures.enUS_loading
    with (startLoading "en_US"
            (withDictionaryManager (fun v =>
               {| DictionaryManagerState._defaultLocale := "en_US";
                  DictionaryManagerState._dictionaries :=
                    DictionaryManagerState._dictionaries v;
                  DictionaryManagerState._dictionariesBeingLoaded :=
                    DictionaryManagerState._dictionariesBeingLoaded v |})
               (withSpellChecker (fun v =>
                  {| SpellCheckerState._localeName := Some "en_US";
                     SpellCheckerState._spellingIgnoreUppercase :=
                       SpellCheckerState._spellingIgnoreUppercase v;
                     SpellCheckerState._initialized := SpellCheckerState._initialized v;
                     SpellCheckerState._currentMode := SpellCheckerState._currentMode v;
                     SpellCheckerState._lastWordSeparatorDirty :=
                       SpellCheckerState._lastWordSeparatorDirty v;
                     SpellCheckerState._lastWordSeparator :=
                       SpellCheckerState._lastWordSeparator v |}) initialWorld))).
  apply loadDictionary_starts_loading.
  - apply not_elem_of_empty.
  - reflexivity.
  - apply lookup_empty.
Defined.

Lemma C7_witness :
  Loading "en_US" Fixtures.enUS_loading
  /\ DictionaryManager.loadDictionary "en_US" Fixtures.enUS_loading
     = Ok tt Fixtures.enUS_loading
  /\ exists w',
       runLoad Fixtures.wordListTypo "en_US"
         [LoadRequested; DictionaryRead (DictionaryManager.ReadOk "the quick fox");
          LoadRequested; LoadRequested;
          AffixRead (DictionaryManager.ReadOk "SET UTF-8"); LoadRequested]
         Fixtures.enUS_loading
       = Ok tt w'
       /\ Ready Fixtures.wordListTypo "en_US" w' (Some "SET UTF-8") (Some "the quick fox")
       /\ effects w'
          = (effects Fixtures.enUS_loading
             ++ loadedEffects "en_US" (Some "SET UTF-8") (Some "the quick fox"))%list.
Proof.
  split; [exact enUS_loading_is_Loading|].
  exact (C7_load_is_deduplicated Fixtures.wordListTypo "en_US" Fixtures.enUS_loading
           "SET UTF-8" "the quick fox"
           (DictionaryRead (DictionaryManager.ReadOk "the quick fox"))
           (AffixRead (DictionaryManager.ReadOk "SET UTF-8")) 1 2 1
           enUS_loading_is_Loading (or_intror (conj eq_refl eq_refl))).
Defined.

(** C3.  While [L] is loading: when the two reads fail, in either order
    and with any number of [loadDictionary(L)] calls before and between
    them, the run ends with no entry for [L] in the registry and [L] no
    longer being loaded, and what it adds to the effects is the unloading
    of the entry and one [dictionaryFailedToLoad(L)]. *)
Theorem C3_failed_load_is_removed_and_reported Typo L w first second n0 n1 :
  Loading L w ->
  bothFail first second ->
  exists w',
    runLoad Typo L (requests n0 ++ first :: requests n1 ++ [second])%list w = Ok tt w'
    /\ Removed L w'
    /\ effects w' = (effects w ++ failedEffects L)%list.
Proof.
  intros (ad & dd & HF) Hev.
  rewrite runLoad_requests by exact (InFlight_known L _ _ _ _ _ HF).
  destruct Hev as [[-> ->]|[-> ->]].
  - destruct (affix_error_stays Typo L w _ _ (Some false) _ ltac:(discriminate) HF)
      as (w1 & E1 & HF1 & Ef1).
    rewrite (runLoad_cons Typo L (AffixRead _) _ w w1 E1).
    rewrite runLoad_requests by exact (InFlight_known L _ _ _ _ _ HF1).
    destruct (dictionary_error_cleans Typo L w1 _ _ _ HF1) as (w2 & E2 & HR & Ef2).
    rewrite (runLoad_cons Typo L (DictionaryRead _) _ w1 w2 E2).
    exists w2. split; [reflexivity|]. split; [exact HR|].
    rewrite Ef2, Ef1. reflexivity.
  - destruct (dictionary_error_stays Typo L w (Some false) _ _ _ ltac:(discriminate) HF)
      as (w1 & E1 & HF1 & Ef1).
    rewrite (runLoad_cons Typo L (DictionaryRead _) _ w w1 E1).
    rewrite runLoad_requests by exact (InFlight_known L _ _ _ _ _ HF1).
    destruct (affix_error_cleans Typo L w1 _ _ _ HF1) as (w2 & E2 & HR & Ef2).
    rewrite (runLoad_cons Typo L (AffixRead _) _ w1 w2 E2).
    exists w2. split; [reflexivity|]. split; [exact HR|].
    rewrite Ef2, Ef1. reflexivity.
Qed.

Lemma C3_witness :
  Loading "en_US" Fixtures.enUS_loading
  /\ exists w',
       runLoad Fixtures.wordListTypo "en_US"
         [AffixRead DictionaryManager.ReadError; LoadRequested;
          DictionaryRead DictionaryManager.ReadError]
         Fixtures.enUS_loading
       = Ok tt w'
       /\ Removed "en_US" w'
       /\ effects w' = (effects Fixtures.enUS_loading ++ failedEffects "en_US")%list.
Proof.
  split; [exact enUS_loading_is_Loading|].
  exact (C3_failed_load_is_removed_and_reported Fixtures.wordListTypo "en_US"
           Fixtures.enUS_loading
           (AffixRead DictionaryManager.ReadError)
           (DictionaryRead DictionaryManager.ReadError) 0 1
           enUS_loading_is_Loading (or_introl (conj eq_refl eq_refl))).
Defined.

(** Outside C3: when one read fails and the other succeeds, nothing is
    removed and nothing is announced; the entry stays, with one half
    failed, and the locale stays in [_dictionariesBeingLoaded]. *)
Remark mixed_outcome_stays_in_flight Typo L w d :
  Loading L w ->
  exists w' ad,
    runLoad Typo L [AffixRead DictionaryManager.ReadError;
                    DictionaryRead (DictionaryManager.ReadOk d)] w = Ok tt w'
    /\ InFlight L w' None ad (Some true) (Some d)
    /\ effects w' = effects w.
Proof.
  intros (ad & dd & HF).
  destruct (affix_error_stays Typo L w _ _ (Some false) _ ltac:(discriminate) HF)
    as (w1 & E1 & HF1 & Ef1).
  rewrite (runLoad_cons Typo L (AffixRead _) _ w w1 E1).
  destruct (dictionary_ok_waits Typo L w1 None _ _ _ d eq_refl HF1)
    as (w2 & E2 & HF2 & Ef2).
  rewrite (runLoad_cons Typo L (DictionaryRead _) _ w1 w2 E2).
  exists w2, ad. split; [reflexivity|]. split; [exact HF2|]. congruence.
Qed.

(** ** The separator buffer *)

Lemma pendingRun_clean w :
  SpellChecker.lastWordSeparatorDirty w = false ->
  pendingRun w = SpellChecker.lastWordSeparator w.
Proof. intros H. unfold pendingRun. rewrite H. reflexivity. Qed.

Lemma pendingRun_dirty w :
  SpellChecker.lastWordSeparatorDirty w = true -> pendingRun w = EmptyString.
Proof. intros H. unfold pendingRun. rewrite H. reflexivity. Qed.

(** C9.  Along every run -- calls of [token] on any streams, with anything
    in between that leaves the two scanner variables alone -- the
    before-context of each tested word is the run of separators that the
    calls since the last tested word have read, one character per call, in
    order; the buffer is dirty right after a word has been tested, and the
    next call empties it before it does anything else, after which the
    buffer stays clean until the next word is tested. *)
Theorem C9_separator_buffer_discipline w calls w' :
  Run w calls w' -> disciplined (pendingRun w) calls.
Proof.
  induction 1 as [w|w stream r w1 calls w2 Htok _ IH|w w1 calls w2 Hd Hs _ IH].
  - exact I.
  - pose proof (token_call stream w r w1 Htok) as Hc.
    cbn [disciplined call_action call_stream call_remaining dirtyAfter separatorAfter].
    destruct (SpellChecker.action r) as [|ch|word beforeContext].
    + destruct Hc as (Hr & Hdirty & Hsep).
      rewrite (pendingRun_clean _ Hdirty), Hsep in IH.
      repeat split; assumption.
    + destruct Hc as (Hch & Hw & Hr & Hdirty & Hsep).
      rewrite (pendingRun_clean _ Hdirty), Hsep in IH.
      repeat split; assumption.
    + destruct Hc as (Hscan & Hctx & Hdirty).
      rewrite (pendingRun_dirty _ Hdirty) in IH.
      repeat split; assumption.
  - replace (pendingRun w) with (pendingRun w1); [exact IH|].
    unfold pendingRun. rewrite Hd, Hs. reflexivity.
Qed.

(** The line [the, fox], token by token, with the en_US dictionary
    arriving only after the first call. *)
Lemma C9_witness :
  exists calls w',
    Run Fixtures.enUS_loading calls w'
    /\ map call_action calls
       = [SpellChecker.Skipped;
          SpellChecker.WordTested "the" "";
          SpellChecker.SeparatorRead (Some ","%char);
          SpellChecker.SeparatorRead (Some " "%char);
          SpellChecker.WordTested "fox" ", "]
    /\ disciplined (pendingRun Fixtures.enUS_loading) calls.
Proof.
  assert (R : { cw : list Call * World
              | Run Fixtures.enUS_loading (fst cw) (snd cw)
                /\ map call_action (fst cw)
                   = [SpellChecker.Skipped;
                      SpellChecker.WordTested "the" "";
                      SpellChecker.SeparatorRead (Some ","%char);
                      SpellChecker.SeparatorRead (Some " "%char);
                      SpellChecker.WordTested "fox" ", "] }).
  { eexists (_, _). cbn [fst snd]. split.
    - eapply (Run_token _ "the, fox"); [vm_compute; reflexivity|].
      eapply (Run_other _ enUS_arrives_after_skip);
        [vm_compute; reflexivity|vm_compute; reflexivity|].
      eapply (Run_token _ "the, fox"); [vm_compute; reflexivity|].
      eapply (Run_token _ ", fox"); [vm_compute; reflexivity|].
      eapply (Run_token _ " fox"); [vm_compute; reflexivity|].
      eapply (Run_token _ "fox"); [vm_compute; reflexivity|].
      apply Run_done.
    - vm_compute. reflexivity. }
  destruct R as [[calls w'] [R Ha]]. cbn [fst snd] in R, Ha.
  exists calls, w'. split; [exact R|]. split; [exact Ha|].
  exact (C9_separator_buffer_discipline _ _ _ R).
Defined.

(** * Further properties *)

(** ** Ignore rules *)

Section IgnoreRuleFacts.
Import UtilityManager.

(** In a rule the document test can only confirm what the word list
    already says. *)
Lemma documentContents_adds_nothing st rule word :
  JS.notNull (_shouldWordBeIgnoredBasedOnDocumentContents st rule word)
  || JS.inArray word (ignore rule)
  = JS.inArray word (ignore rule).
Proof.
  destruct (JS.inArray word (ignore rule)) eqn:Ew; [apply orb_true_r|].
  rewrite orb_false_r. unfold _shouldWordBeIgnoredBasedOnDocumentContents.
  destruct (ignoreWhenDocumentContains rule) as [needles|]; [|reflexivity].
  destruct (_currentDocumentContents st) as [c|]; [|reflexivity].
  rewrite Ew.
  replace (existsb (fun needle => JS.includes c needle && false) needles) with false;
    [reflexivity|].
  induction needles as [|n l IH]; [reflexivity|]. cbn. rewrite andb_false_r. exact IH.
Qed.

Lemma rule_step st rule word ctx :
  (JS.notNull (_checkIgnoreAfter rule ctx word)
   || (nonEmptyArray (ignoreMode rule) && _isValidMode st rule
       && negb (_utilityMustBeLoadedManually rule))
      && (JS.notNull (_checkIgnoreAfter rule ctx word)
          || (JS.notNull (_shouldWordBeIgnoredBasedOnDocumentContents st rule word)
              || JS.inArray word (ignore rule))))
  = ruleCovers st rule word ctx.
Proof.
  rewrite documentContents_adds_nothing.
  unfold ruleCovers, afterMatches, modeApplies, _checkIgnoreAfter, _isValidMode.
  destruct (nonEmptyArray (ignoreMode rule)) eqn:En;
    [|unfold modeList, nonEmptyArray in *;
      destruct (ignoreMode rule) as [[|x l]|]; try discriminate En;
      cbn [JS.inArray existsb]].
  all: destruct (JS.inArray word (ignore rule)).
  all: destruct (_utilityMustBeLoadedManually rule).
  all: destruct (ignoreAfter rule) as [a|];
    [destruct ((0 <? String.length a)%nat); destruct (String.eqb a ctx)|].
  all: destruct (_currentModeName st) as [m|];
    [try destruct (JS.inArray m (modeList rule)); destruct (String.eqb m "null")|].
  all: try destruct (JS.inArray "Mode.all" (modeList rule)).
  all: reflexivity.
Qed.

Lemma loop_covers st word ctx rules :
  _shouldWordBeIgnoredWithContext_loop st rules word ctx
  = existsb (fun rule => ruleCovers st rule word ctx) rules.
Proof.
  induction rules as [|rule rest IH]; [reflexivity|].
  cbn [_shouldWordBeIgnoredWithContext_loop existsb].
  rewrite <- rule_step, <- IH.
  destruct (JS.notNull (_checkIgnoreAfter rule ctx word)); [reflexivity|].
  destruct (nonEmptyArray (ignoreMode rule) && _isValidMode st rule
            && negb (_utilityMustBeLoadedManually rule)); [|reflexivity].
  destruct (JS.notNull (_shouldWordBeIgnoredBasedOnDocumentContents st rule word));
    [reflexivity|].
  destruct (JS.inArray word (ignore rule)); reflexivity.
Qed.

(** X1.  [shouldIgnore(word, beforeContext)] is [true] exactly when the
    word is in [_alwaysIgnoreCachedList], or the before-context is not
    empty and some conditional rule lists the word and has its
    [ignoreAfter] equal to the before-context or its [ignoreMode] naming
    the current mode (or ["Mode.all"]) without being manual. *)
Theorem shouldIgnore_characterization st word beforeContext :
  shouldIgnore st word beforeContext
  = JS.inArray word (_alwaysIgnoreCachedList st)
    || (negb (String.eqb beforeContext "")
        && existsb (fun rule => ruleCovers st rule word beforeContext)
             (_ignoreOnlyWithCondition st)).
Proof.
  unfold shouldIgnore, _shouldWordBeIgnoredWithContext. rewrite loop_covers.
  destruct (JS.inArray word (_alwaysIgnoreCachedList st)); [reflexivity|].
  destruct beforeContext; reflexivity.
Qed.

(** X2.  The answer of [shouldIgnore] does not depend on the document
    contents: [ignoreWhenDocumentContains] is only consulted inside the
    mode branch, where the word list alone already decides. *)
Theorem shouldIgnore_ignores_document_contents st contents word beforeContext :
  shouldIgnore (setDocumentContents contents st) word beforeContext
  = shouldIgnore st word beforeContext.
Proof.
  unfold shouldIgnore, _shouldWordBeIgnoredWithContext. rewrite !loop_covers.
  reflexivity.
Qed.

Lemma loadUtilityFiles_app files : forall st,
  _alwaysIgnoreFiles (_loadUtilityFiles files st)
  = _alwaysIgnoreFiles st
    ++ List.filter (fun d => negb (_containsCondition d)) (arrived files)
  /\ _ignoreOnlyWithCondition (_loadUtilityFiles files st)
     = _ignoreOnlyWithCondition st ++ List.filter _containsCondition (arrived files)
  /\ _alwaysIgnoreCachedList (_loadUtilityFiles files st) = _alwaysIgnoreCachedList st
  /\ _currentModeName (_loadUtilityFiles files st) = _currentModeName st.
Proof.
  unfold _loadUtilityFiles, arrived.
  induction files as [|[err data] rest IH]; intros st; cbn [fold_left List.filter map fst snd].
  - rewrite !app_nil_r. repeat split.
  - destruct (IH (_loadUtilityFile err data st)) as (A & B & C & D).
    rewrite A, B, C, D. clear A B C D IH. unfold _loadUtilityFile.
    destruct err; cbn [negb fst snd map List.filter].
    + repeat split.
    + destruct (_containsCondition data); cbn [negb map List.filter
        _alwaysIgnoreFiles _ignoreOnlyWithCondition _alwaysIgnoreCachedList
        _currentModeName];
        rewrite <- ?app_assoc; cbn [app]; repeat split; reflexivity.
Qed.

(** X3.  [_loadUtilityFiles] sorts the files that were read into two
    buckets, keeping their order: those without a condition are appended
    to [_alwaysIgnoreFiles], those with one to [_ignoreOnlyWithCondition];
    a file whose read failed is in neither; [_alwaysIgnoreCachedList] is
    never changed. *)
Theorem loadUtilityFiles_buckets files st :
  _alwaysIgnoreFiles (_loadUtilityFiles files st)
  = _alwaysIgnoreFiles st
    ++ List.filter (fun d => negb (_containsCondition d)) (arrived files)
  /\ _ignoreOnlyWithCondition (_loadUtilityFiles files st)
     = _ignoreOnlyWithCondition st ++ List.filter _containsCondition (arrived files)
  /\ _alwaysIgnoreCachedList (_loadUtilityFiles files st) = _alwaysIgnoreCachedList st.
Proof.
  destruct (loadUtilityFiles_app files st) as (A & B & C & _). repeat split; assumption.
Qed.

(** X4.  Whatever rule files have been loaded since start-up, a word
    that [shouldIgnore] accepts is [alice] or is listed in a file that
    arrived and has a condition: the words of the other files are never
    ignored. *)
Theorem ignored_word_is_alice_or_conditional files word beforeContext :
  shouldIgnore (_loadUtilityFiles files initial) word beforeContext = true ->
  word = "alice"
  \/ existsb (fun rule => _containsCondition rule && JS.inArray word (ignore rule))
       (arrived files) = true.
Proof.
  unfold shouldIgnore, _shouldWordBeIgnoredWithContext. rewrite loop_covers.
  destruct (loadUtilityFiles_app files initial) as (_ & B & C & _).
  rewrite B, C. cbn [_alwaysIgnoreCachedList _ignoreOnlyWithCondition initial app].
  destruct (JS.inArray word ["alice"]) eqn:Ea.
  - intros _. left. cbn [JS.inArray existsb] in Ea. rewrite orb_false_r in Ea.
    apply String.eqb_eq in Ea. exact Ea.
  - destruct (String.length beforeContext =? 0)%nat; [discriminate|].
    intros H. right. clear B C Ea.
    induction (arrived files) as [|rule rest IH]; [discriminate H|].
    cbn [List.filter existsb] in *.
    destruct (_containsCondition rule); cbn [existsb andb orb] in *; [|exact (IH H)].
    apply orb_true_iff in H as [H|H].
    + unfold ruleCovers in H. apply andb_true_iff in H as [H _]. rewrite H. reflexivity.
    + rewrite (IH H). apply orb_true_r.
Qed.

End IgnoreRuleFacts.

Lemma ignored_word_is_alice_or_conditional_witness :
  UtilityManager.shouldIgnore
    (UtilityManager._loadUtilityFiles
       [(false, Fixtures.frameworkNames); (true, afterDollar); (false, afterDollar)]
       UtilityManager.initial) "post" "$" = true
  /\ ("post" = "alice"
      \/ existsb (fun rule => UtilityManager._containsCondition rule
                              && JS.inArray "post" (UtilityManager.ignore rule))
           (arrived [(false, Fixtures.frameworkNames); (true, afterDollar);
                     (false, afterDollar)]) = true).
Proof.
  split; [reflexivity|].
  apply (ignored_word_is_alice_or_conditional
           [(false, Fixtures.frameworkNames); (true, afterDollar); (false, afterDollar)]
           "post" "$").
  reflexivity.
Defined.


(** ** The scanner and selections *)

Section ScanFacts.
Import JS StringUtils SpellChecker.

(** The separator string of the scanner and the character class of
    [containsWordSeparator] hold the same characters. *)
Lemma isWordSeparator_inClass c :
  isWordSeparator (Some c) = EditorManager.inClass c.
Proof. destruct c as [[] [] [] [] [] [] [] []]; vm_compute; reflexivity. Qed.

Lemma scanWord_cons c r :
  scanWord (String c r) =
  if isWordSeparator (Some c) then (EmptyString, String c r)
  else (String c (fst (scanWord r)), snd (scanWord r)).
Proof.
  cbn [scanWord isString andb].
  destruct (isWordSeparator (Some c)); cbn [negb]; [reflexivity|].
  destruct (scanWord r); reflexivity.
Qed.

Lemma scanWord_append stream :
  String.append (fst (scanWord stream)) (snd (scanWord stream)) = stream.
Proof.
  induction stream as [|c r IH]; [reflexivity|].
  rewrite scanWord_cons. destruct (isWordSeparator (Some c)); cbn [fst snd]; [reflexivity|].
  change (String c (String.append (fst (scanWord r)) (snd (scanWord r))) = String c r).
  rewrite IH. reflexivity.
Qed.

Lemma scanWord_word stream :
  forallb (fun c => negb (isWordSeparator (Some c))) (chars (fst (scanWord stream)))
  = true.
Proof.
  induction stream as [|c r IH]; [reflexivity|].
  rewrite scanWord_cons. destruct (isWordSeparator (Some c)) eqn:E; cbn [fst snd];
    [reflexivity|].
  change (negb (isWordSeparator (Some c))
          && forallb (fun c => negb (isWordSeparator (Some c)))
               (chars (fst (scanWord r))) = true).
  rewrite E, IH. reflexivity.
Qed.

(** X5.  The loop of [token] cuts the stream in two: the word it returns
    followed by the rest is the stream; no character of the word is a
    separator; the rest is empty or starts with a separator. *)
Theorem scanWord_cuts_at_the_first_separator stream :
  String.append (fst (scanWord stream)) (snd (scanWord stream)) = stream
  /\ forallb (fun c => negb (isWordSeparator (Some c))) (chars (fst (scanWord stream)))
     = true
  /\ (snd (scanWord stream) = EmptyString
      \/ isWordSeparator (peek (snd (scanWord stream))) = true).
Proof.
  split; [apply scanWord_append|]. split; [apply scanWord_word|].
  induction stream as [|c r IH]; [left; reflexivity|].
  rewrite scanWord_cons. destruct (isWordSeparator (Some c)) eqn:E; cbn [fst snd].
  - right. exact E.
  - exact IH.
Qed.

(** X6.  A word the overlay has scanned holds no character of the class
    of [containsWordSeparator]; selected alone on its line, it is accepted
    by [_isValidSelection]. *)
Theorem scanned_word_is_a_valid_selection stream line :
  EditorManager.containsWordSeparator (fst (scanWord stream)) = false
  /\ EditorManager._isValidSelection 1 line line (fst (scanWord stream))
     = Some (fst (scanWord stream)).
Proof.
  assert (H : EditorManager.containsWordSeparator (fst (scanWord stream)) = false).
  { pose proof (scanWord_word stream) as H.
    unfold EditorManager.containsWordSeparator.
    induction (chars (fst (scanWord stream))) as [|c l IH]; [reflexivity|].
    cbn [forallb existsb] in *. apply andb_true_iff in H as [Hc Hl].
    rewrite <- isWordSeparator_inClass. apply negb_true_iff in Hc. rewrite Hc.
    exact (IH Hl). }
  split; [exact H|].
  unfold EditorManager._isValidSelection. rewrite H, !Nat.eqb_refl. reflexivity.
Qed.

Lemma append_empty_r s : String.append s EmptyString = s.
Proof.
  induction s as [|a t IH]; [reflexivity|].
  change (String a (String.append t EmptyString) = String a t). rewrite IH. reflexivity.
Qed.

Lemma scanWord_rest_shorter stream :
  String.length (snd (scanWord stream)) <= String.length stream.
Proof.
  induction stream as [|c r IH]; [apply le_n|].
  rewrite scanWord_cons. destruct (isWordSeparator (Some c)); cbn [snd String.length]; lia.
Qed.

(** X7.  A call of [token] on a stream that is not empty always moves
    on: the stream it leaves is a proper suffix of the stream it was
    given. *)
Theorem token_advances stream w r w' :
  stream <> EmptyString ->
  token stream w = Ok r w' ->
  String.length (remaining r) < String.length stream
  /\ exists consumed, stream = String.append consumed (remaining r).
Proof.
  intros Hne. rewrite token_unfold. cbv zeta.
  destruct stream as [|c s]; [contradiction|].
  destruct (negb (_isInitialized w)).
  { intros [= <- <-]. cbn [remaining String.length]. split; [lia|].
    exists (String c s). symmetry. apply append_empty_r. }
  destruct (isWordSeparator (peek (String c s))) eqn:E.
  { intros [= <- <-]. cbn [remaining next String.length]. split; [lia|].
    exists (String c EmptyString). reflexivity. }
  assert (Hlen : String.length (snd (scanWord (String c s))) < String.length (String c s)).
  { rewrite scanWord_cons. cbn [peek] in E. rewrite E. cbn [snd String.length].
    pose proof (scanWord_rest_shorter s). lia. }
  pose proof (scanWord_append (String c s)) as Hcut.
  remember (scanWord (String c s)) as sw eqn:Hsw.
  destruct (_hasCorrectSpelling (fst sw) (clearIfDirty w)) as [correct w1|e]; [|discriminate].
  intros [= <- <-]. cbn [remaining]. split; [exact Hlen|].
  exists (fst sw). symmetry. exact Hcut.
Qed.

(** X8.  A word that [shouldIgnore] covers, with the separators read
    since the last word as its before-context, is never given the error
    style, whatever the dictionaries say. *)
Theorem ignored_word_is_never_flagged stream w r w' :
  UtilityManager.shouldIgnore (utilityManager w) (fst (scanWord stream)) (pendingRun w)
  = true ->
  token stream w = Ok r w' ->
  style r = None.
Proof.
  intros Hi. rewrite token_unfold. cbv zeta.
  destruct (negb (_isInitialized w)); [intros [= <- <-]; reflexivity|].
  destruct (isWordSeparator (peek stream)); [intros [= <- <-]; reflexivity|].
  destruct (_hasCorrectSpelling (fst (scanWord stream)) (clearIfDirty w))
    as [correct w1|e] eqn:E; [|discriminate].
  intros [= <- <-]. cbn [style].
  destruct (hasCorrectSpelling_preserves _ _ _ _ E) as (_ & _ & Hu & Hsc & _).
  destruct (clearIfDirty_clean w) as [_ Hs].
  unfold lastWordSeparator. rewrite Hsc. fold (lastWordSeparator (clearIfDirty w)).
  rewrite Hs, Hu.
  replace (utilityManager (clearIfDirty w)) with (utilityManager w)
    by (unfold clearIfDirty; destruct (lastWordSeparatorDirty w); reflexivity).
  rewrite Hi. unfold verdictStyle. rewrite andb_false_r. reflexivity.
Qed.

End ScanFacts.

Lemma token_advances_witness :
  "the fox" <> EmptyString
  /\ SpellChecker.token "the fox" Fixtures.enUS_words
     = Ok (tokenResult "the fox" Fixtures.enUS_words)
          (tokenWorld "the fox" Fixtures.enUS_words)
  /\ String.length (SpellChecker.remaining (tokenResult "the fox" Fixtures.enUS_words))
     < String.length "the fox"
  /\ exists consumed,
       "the fox"
       = String.append consumed
           (SpellChecker.remaining (tokenResult "the fox" Fixtures.enUS_words)).
Proof.
  split; [discriminate|]. split; [vm_compute; reflexivity|].
  apply (token_advances "the fox" Fixtures.enUS_words
           (tokenResult "the fox" Fixtures.enUS_words)
           (tokenWorld "the fox" Fixtures.enUS_words)).
  - discriminate.
  - vm_compute. reflexivity.
Defined.

Lemma ignored_word_is_never_flagged_witness :
  UtilityManager.shouldIgnore (utilityManager Fixtures.enUS_words)
    (fst (SpellChecker.scanWord "alice")) (pendingRun Fixtures.enUS_words) = true
  /\ valueOf (DictionaryManager.check "alice" None Fixtures.enUS_words) = Some (Some false)
  /\ SpellChecker.style (tokenResult "alice" Fixtures.enUS_words) = None.
Proof.
  split; [reflexivity|]. split; [vm_compute; reflexivity|].
  apply (ignored_word_is_never_flagged "alice" Fixtures.enUS_words
           (tokenResult "alice" Fixtures.enUS_words)
           (tokenWorld "alice" Fixtures.enUS_words)).
  - reflexivity.
  - vm_compute. reflexivity.
Defined.

(** ** Strings.js *)

Section StringFacts.
Import JS StringUtils.

Ltac ascii_cases c := destruct c as [[] [] [] [] [] [] [] []].

Lemma splitBefore_invariant s :
  String.append (fst (splitBefore s)) (joined (snd (splitBefore s))) = s
  /\ allChars notUpper (afterFirst (fst (splitBefore s))) = true
  /\ Forall (fun part => startsUpper part = true
                         /\ allChars notUpper (afterFirst part) = true)
       (snd (splitBefore s))
  /\ match s with
     | String c _ => exists x, fst (splitBefore s) = String c x
     | EmptyString => fst (splitBefore s) = EmptyString
     end.
Proof.
  induction s as [|c r (IH1 & IH2 & IH3 & IH4)].
  - repeat split. constructor.
  - cbn [splitBefore]. destruct (splitBefore r) as [cur parts] eqn:E.
    cbn [fst snd] in *. destruct r as [|d r'].
    + cbn in E. injection E as <- <-. repeat split; [constructor|eauto].
    + destruct IH4 as [x Hx]. subst cur.
      destruct (isUpperAZ d) eqn:Ed; cbn [fst snd].
      * split; [|split; [reflexivity|split; [|eauto]]].
        -- cbn [joined fold_right]. fold (joined parts).
           change (String c (String.append (String d x) (joined parts))
                   = String c (String d r')).
           rewrite IH1. reflexivity.
        -- constructor; [|exact IH3]. split; [exact Ed|exact IH2].
      * split; [|split; [|split; [exact IH3|eauto]]].
        -- change (String c (String.append (String d x) (joined parts))
                   = String c (String d r')).
           rewrite IH1. reflexivity.
        -- cbn [afterFirst] in *. unfold allChars in *. cbn [chars forallb].
           unfold notUpper at 1. rewrite Ed. exact IH2.
Qed.

(** X9.  [splitByUpperCase] loses nothing and cuts only before capitals:
    the parts joined give the string back; every part but the first starts
    with a letter of [A-Z]; no part has such a letter after its first
    character. *)
Theorem splitByUpperCase_roundtrip s :
  joined (splitByUpperCase s) = s
  /\ Forall (fun part => startsUpper part = true) (List.tl (splitByUpperCase s))
  /\ Forall (fun part => allChars notUpper (afterFirst part) = true) (splitByUpperCase s).
Proof.
  destruct (splitBefore_invariant s) as (H1 & H2 & H3 & _).
  unfold splitByUpperCase. destruct (splitBefore s) as [cur parts]. cbn [fst snd] in *.
  split; [exact H1|]. split.
  - cbn [List.tl]. eapply Forall_impl; [exact H3|]. intros a [Ha _]. exact Ha.
  - constructor; [exact H2|]. eapply Forall_impl; [exact H3|]. intros a [_ Ha]. exact Ha.
Qed.

Lemma notWhiteSpace_lower c : notWhiteSpace c = true -> notWhiteSpace (toLowerCaseChar c) = true.
Proof. ascii_cases c; vm_compute; intros H; exact H. Qed.

Lemma notWhiteSpace_upper c : notWhiteSpace c = true -> notWhiteSpace (toUpperCaseChar c) = true.
Proof. ascii_cases c; vm_compute; intros H; exact H. Qed.

Lemma wordChar_notWhiteSpace c : isWhiteSpace c = false -> notWhiteSpace c = true.
Proof. unfold notWhiteSpace. intros ->. reflexivity. Qed.

Lemma allChars_append p s t :
  allChars p (String.append s t) = allChars p s && allChars p t.
Proof.
  unfold allChars. induction s as [|a s IH]; [reflexivity|].
  change (p a && forallb p (chars (String.append s t))
          = p a && forallb p (chars s) && forallb p (chars t)).
  rewrite IH, andb_assoc. reflexivity.
Qed.

Lemma camelReplace_notWhiteSpace c index : allChars notWhiteSpace (camelReplace c index) = true.
Proof.
  unfold camelReplace. destruct (Ascii.eqb c "0"); [reflexivity|]. cbn [orb].
  destruct (isWhiteSpace c) eqn:E; [reflexivity|].
  destruct (index =? 0)%nat; unfold allChars; cbn [chars forallb]; rewrite andb_true_r.
  - apply notWhiteSpace_lower, wordChar_notWhiteSpace, E.
  - apply notWhiteSpace_upper, wordChar_notWhiteSpace, E.
Qed.

(** X10.  The result of [toCamelCase] holds no white space, whatever the
    input. *)
Theorem toCamelCase_has_no_white_space s :
  allChars notWhiteSpace (toCamelCase s) = true.
Proof.
  unfold toCamelCase. generalize 0 (@None ascii).
  induction s as [|c r IH]; intros index prev; [reflexivity|].
  cbn [toCamelCase_from]. cbv zeta.
  destruct (isWhiteSpace c) eqn:E.
  - rewrite !orb_true_r. rewrite allChars_append, camelReplace_notWhiteSpace, IH.
    reflexivity.
  - rewrite orb_false_r.
    destruct ((index =? 0)%nat && isWordChar c || isUpperAZ c
              || match prev with Some p => negb (isWordChar p) | None => true end
                 && isWordChar c).
    + rewrite allChars_append, camelReplace_notWhiteSpace, IH. reflexivity.
    + unfold allChars. cbn [chars forallb]. unfold notWhiteSpace at 1. rewrite E.
      apply IH.
Qed.

End StringFacts.

(** ** The heuristics on whole classes of words *)

Section HeuristicFacts.
Import JS StringUtils SpellChecker.

Lemma toUpperCase_fixed s : allChars notLower s = true -> toUpperCase s = s.
Proof.
  unfold allChars, toUpperCase. induction s as [|c r IH]; [reflexivity|].
  cbn [chars forallb mapChars]. intros H. apply andb_true_iff in H as [Hc Hr].
  rewrite (IH Hr). unfold toUpperCaseChar. unfold notLower in Hc.
  apply negb_true_iff in Hc. rewrite Hc. reflexivity.
Qed.

Lemma substring_suffix s t :
  String.substring (String.length s) (String.length t) (String.append s t) = t.
Proof.
  induction s as [|a s IH].
  - change (String.substring 0 (String.length t) t = t).
    induction t as [|b t IHt]; [reflexivity|].
    cbn [String.length String.substring]. rewrite IHt. reflexivity.
  - exact IH.
Qed.

Lemma substring_prefix s t :
  String.substring 0 (String.length s) (String.append s t) = s.
Proof.
  induction s as [|a s IH]; [destruct t; reflexivity|].
  change (String a (String.substring 0 (String.length s) (String.append s t)) = String a s).
  rewrite IH. reflexivity.
Qed.

Lemma endsWith_append s t : endsWith (String.append s t) t = true.
Proof.
  unfold endsWith, substr. rewrite length_append.
  replace (String.length s + String.length t - String.length t) with (String.length s)
    by lia.
  rewrite substring_suffix, String.eqb_refl.
  replace (String.length t <=? String.length s + String.length t)%nat with true
    by (symmetry; apply Nat.leb_le; lia).
  reflexivity.
Qed.

(** X11.  With [_spellingIgnoreUppercase] set: an ASCII word without any
    letter of [a-z] -- an acronym, but also a word of digits or signs
    only -- is classified correct in every world, and so is such a word
    followed by ['s]; no dictionary is consulted.  (Beyond ASCII a word
    without [a-z] may still have a lower-case letter, which
    [toUpperCase] changes.) *)
Theorem word_without_lower_case_is_correct base w :
  SpellCheckerState._spellingIgnoreUppercase (spellChecker w) = true ->
  allChars isAscii base = true ->
  allChars notLower base = true ->
  _hasCorrectSpelling base w = Ok (Some true) w
  /\ _hasCorrectSpelling (String.append base "'s") w = Ok (Some true) w.
Proof.
  intros Hu _ Hb. split.
  - unfold _hasCorrectSpelling.
    destruct (_isCommonTerm base); [reflexivity|].
    destruct (negb (parseFloat_isNaN base)); [reflexivity|].
    unfold bind at 1, gets. rewrite Hu.
    rewrite (toUpperCase_fixed _ Hb), String.eqb_refl. reflexivity.
  - unfold _hasCorrectSpelling.
    destruct (_isCommonTerm (String.append base "'s")); [reflexivity|].
    destruct (negb (parseFloat_isNaN (String.append base "'s"))); [reflexivity|].
    unfold bind at 1, gets. rewrite Hu.
    destruct (String.eqb (String.append base "'s") (toUpperCase (String.append base "'s")));
      [reflexivity|].
    rewrite endsWith_append. cbv zeta. unfold substr.
    rewrite length_append. cbn [String.length].
    replace (String.length base + 2 - 2) with (String.length base) by lia.
    rewrite substring_prefix, (toUpperCase_fixed _ Hb), String.eqb_refl. reflexivity.
Qed.

(** *** Plain words *)

(** A string cut where a suffix starts. *)
Lemma substring_cut s : forall n,
  n <= String.length s ->
  String.append (String.substring 0 n s) (String.substring n (String.length s - n) s) = s.
Proof.
  induction s as [|a s IH]; intros n Hn.
  - cbn in Hn. replace n with 0 by lia. reflexivity.
  - destruct n as [|n].
    + change (String.substring 0 (String.length (String a s)) (String a s) = String a s).
      clear. generalize (String a s). intros t.
      induction t as [|b t IHt]; [reflexivity|].
      cbn [String.length String.substring]. rewrite IHt. reflexivity.
    + cbn [String.length] in *. cbn [Nat.sub String.substring].
      change (String a (String.append (String.substring 0 n s)
                          (String.substring n (String.length s - n) s)) = String a s).
      rewrite IH by lia. reflexivity.
Qed.

Lemma endsWith_true s suffix :
  endsWith s suffix = true -> exists p, s = String.append p suffix.
Proof.
  unfold endsWith, substr. intros H. apply andb_true_iff in H as [Hl He].
  apply Nat.leb_le in Hl. apply String.eqb_eq in He.
  exists (String.substring 0 (String.length s - String.length suffix) s).
  pose proof (substring_cut s (String.length s - String.length suffix) ltac:(lia)) as Hc.
  replace (String.length s - (String.length s - String.length suffix))
    with (String.length suffix) in Hc by lia.
  rewrite He in Hc. symmetry. exact Hc.
Qed.

(** A word of letters [a-z] does not end with a suffix that holds another
    character. *)
Lemma lower_word_endsWith word suffix :
  allChars isLowerAZ word = true ->
  allChars isLowerAZ suffix = false ->
  endsWith word suffix = false.
Proof.
  intros Hw Hs. destruct (endsWith word suffix) eqn:E; [|reflexivity].
  destruct (endsWith_true _ _ E) as [p ->].
  rewrite allChars_append, Hs, andb_false_r in Hw. discriminate Hw.
Qed.

Lemma lower_first_facts c :
  isLowerAZ c = true ->
  isWhiteSpace c = false
  /\ Ascii.eqb c "+" || Ascii.eqb c "-" = false
  /\ isDigit c = false /\ Ascii.eqb c "." = false
  /\ Ascii.eqb (toUpperCaseChar c) c = false
  /\ (if ascii_dec "I" c then true else false) = false
  /\ (if ascii_dec "'" c then true else false) = false
  /\ (if ascii_dec dquote c then true else false) = false
  /\ (if ascii_dec " " c then true else false) = false.
Proof.
  destruct c as [[] [] [] [] [] [] [] []]; intros H; try discriminate H; vm_compute; repeat split.
Qed.

Lemma prefix_first a p c r :
  (if ascii_dec a c then true else false) = false ->
  String.prefix (String a p) (String c r) = false.
Proof. cbn [String.prefix]. destruct (ascii_dec a c); [discriminate|reflexivity]. Qed.

Lemma lower_word_no_space word : forall skip,
  allChars isLowerAZ word = true -> occurrences_scan skip 1 " " word = 0.
Proof.
  unfold allChars. induction word as [|c r IH]; intros skip H; [reflexivity|].
  cbn [chars forallb] in H. apply andb_true_iff in H as [Hc Hr].
  cbn [occurrences_scan]. destruct skip as [|k]; [|apply IH, Hr].
  destruct (lower_first_facts c Hc) as (_ & _ & _ & _ & _ & _ & _ & _ & Hsp).
  rewrite (prefix_first _ _ _ _ Hsp). apply IH, Hr.
Qed.

Lemma lower_word_spaceOut word :
  allChars isLowerAZ word = true -> spaceOutUpper word = word.
Proof.
  unfold allChars. induction word as [|c r IH]; intros H; [reflexivity|].
  cbn [chars forallb] in H. apply andb_true_iff in H as [Hc Hr].
  cbn [spaceOutUpper].
  destruct (lower_first_facts c Hc) as (_ & _ & _ & _ & Hu & _).
  rewrite Hu, (IH Hr). reflexivity.
Qed.

Lemma lower_word_not_camel word :
  allChars isLowerAZ word = true -> isCamelCase word = false.
Proof.
  intros H. unfold isCamelCase. cbv zeta. rewrite (lower_word_spaceOut _ H).
  unfold occurrences. cbn [String.length Nat.leb].
  rewrite (lower_word_no_space word 0 H). reflexivity.
Qed.

(** X12.  A word made of letters [a-z] only, that is not one of the
    common terms, gets no help from the heuristics: [_hasCorrectSpelling]
    hands it to [check] for the default locale, and its result, [null]
    included, is what [check] returns. *)
Theorem plain_word_goes_to_check word w :
  word <> EmptyString ->
  allChars isLowerAZ word = true ->
  _isCommonTerm word = false ->
  _hasCorrectSpelling word w = DictionaryManager.check word None w.
Proof.
  intros Hne Hl Hc. destruct word as [|c r]; [contradiction|].
  assert (Hfirst : isLowerAZ c = true).
  { unfold allChars in Hl. cbn [chars forallb] in Hl.
    apply andb_true_iff in Hl as [H _]. exact H. }
  destruct (lower_first_facts c Hfirst)
    as (Hws & Hsign & Hdig & Hdot & Hup & HI & Hsq & Hdq & _).
  assert (Hnan : parseFloat_isNaN (String c r) = true).
  { unfold parseFloat_isNaN. cbn [skipWhiteSpace]. rewrite Hws.
    cbn [skipSign]. rewrite Hsign. unfold startsUnsignedDecimal.
    rewrite (prefix_first _ _ _ _ HI), Hdig, Hdot. reflexivity. }
  assert (Hnotupper : String.eqb (String c r) (toUpperCase (String c r)) = false).
  { unfold toUpperCase. cbn [mapChars String.eqb].
    rewrite Ascii.eqb_sym, Hup. reflexivity. }
  assert (Hstart1 : startsWith (String c r) "'" = false)
    by (apply prefix_first, Hsq).
  assert (Hstart2 : startsWith (String c r) (String dquote EmptyString) = false)
    by (apply prefix_first, Hdq).
  assert (Hend1 : endsWith (String c r) "'" = false)
    by (apply lower_word_endsWith; [exact Hl|reflexivity]).
  assert (Hend2 : endsWith (String c r) (String dquote EmptyString) = false)
    by (apply lower_word_endsWith; [exact Hl|reflexivity]).
  assert (Hend3 : endsWith (String c r) "'s" = false)
    by (apply lower_word_endsWith; [exact Hl|reflexivity]).
  assert (Hafter : afterUppercase (String c r) w
                   = DictionaryManager.check (String c r) None w).
  { unfold afterUppercase, quoteDetection.
    change attemptIntelligentQuoteDetection with true.
    change automaticallyDetectCamelCaseWords with true. cbv iota.
    rewrite Hstart1, Hstart2, Hend1, Hend2. cbn [orb].
    rewrite (lower_word_not_camel _ Hl). reflexivity. }
  unfold _hasCorrectSpelling. rewrite Hc, Hnan. cbn [negb].
  unfold bind at 1, gets.
  destruct (SpellCheckerState._spellingIgnoreUppercase (spellChecker w)); [|exact Hafter].
  rewrite Hnotupper, Hend3, Hend1. cbn [andb]. exact Hafter.
Qed.

End HeuristicFacts.

Lemma word_without_lower_case_is_correct_witness :
  SpellCheckerState._spellingIgnoreUppercase (spellChecker Fixtures.enUS_words) = true
  /\ allChars JS.isAscii "HTML5" = true
  /\ allChars notLower "HTML5" = true
  /\ valueOf (DictionaryManager.check "HTML5" None Fixtures.enUS_words) = Some (Some false)
  /\ SpellChecker._hasCorrectSpelling "HTML5" Fixtures.enUS_words
     = Ok (Some true) Fixtures.enUS_words
  /\ SpellChecker._hasCorrectSpelling "HTML5's" Fixtures.enUS_words
     = Ok (Some true) Fixtures.enUS_words.
Proof.
  split; [reflexivity|]. split; [reflexivity|]. split; [reflexivity|].
  split; [vm_compute; reflexivity|].
  apply (word_without_lower_case_is_correct "HTML5" Fixtures.enUS_words); reflexivity.
Defined.

Lemma plain_word_goes_to_check_witness :
  "qucik" <> EmptyString
  /\ allChars JS.isLowerAZ "qucik" = true
  /\ SpellChecker._isCommonTerm "qucik" = false
  /\ SpellChecker._hasCorrectSpelling "qucik" Fixtures.enUS_words
     = DictionaryManager.check "qucik" None Fixtures.enUS_words.
Proof.
  split; [discriminate|]. split; [reflexivity|]. split; [reflexivity|].
  apply (plain_word_goes_to_check "qucik" Fixtures.enUS_words);
    [discriminate|reflexivity|reflexivity].
Defined.

(** ** Properties that every operation keeps *)

Lemma keeps_bind P {A B} (m : M A) (k : A -> M B) :
  keeps P m -> (forall a, keeps P (k a)) -> keeps P (bind m k).
Proof.
  intros Hm Hk w b w' Hs. unfold bind.
  destruct (m w) as [a w1|e] eqn:E; [|discriminate].
  intros H. exact (Hk a w1 b w' (Hm w a w1 Hs E) H).
Qed.

Lemma keeps_ret P {A} (a : A) : keeps P (ret a).
Proof. intros w b w' Hs [= <- <-]. exact Hs. Qed.

Lemma keeps_gets P {A} (f : World -> A) : keeps P (gets f).
Proof. intros w b w' Hs [= <- <-]. exact Hs. Qed.

Lemma keeps_modify P f :
  (forall w, P w -> P (f w)) -> keeps P (modify f).
Proof. intros Hf w b w' Hs [= <- <-]. apply Hf, Hs. Qed.

Lemma keeps_entryOf P L : keeps P (DictionaryManager.entryOf L).
Proof.
  intros w e w' Hs. unfold DictionaryManager.entryOf.
  destruct (DictionaryManager.dictionaries w !! L); [|discriminate].
  intros [= <- <-]. exact Hs.
Qed.

Lemma keeps_typoCheck P L word : keeps P (DictionaryManager.typoCheck L word).
Proof.
  intros w e w' Hs. rewrite typoCheck_lookup.
  destruct (DictionaryManager.dictionaries w !! L) as [x|]; [|discriminate].
  destruct (typo x); [|discriminate].
  intros [= <- <-]. exact Hs.
Qed.

(** *** What [check] and [token] keep: anything that [loadDictionary]
    keeps and that does not depend on the scanner variables *)

Section CheckKeeps.
Import JS StringUtils DictionaryManager SpellChecker.
Variable P : World -> Prop.
Hypothesis P_loadDictionary : forall l, keeps P (loadDictionary l).

Lemma keeps_check_profileItems word items : keeps P (check_profileItems word items).
Proof.
  induction items as [|it rest IH]; cbn [check_profileItems].
  - apply keeps_ret.
  - apply keeps_bind; [apply keeps_gets|]. intros ready. destruct ready.
    + apply keeps_bind; [apply keeps_typoCheck|]. intros accepted.
      destruct accepted; [apply keeps_ret|exact IH].
    + apply keeps_bind; [apply P_loadDictionary|]. intros _. exact IH.
Qed.

Lemma keeps_check word l : keeps P (check word l).
Proof.
  unfold check. apply keeps_bind; [apply keeps_gets|]. intros ln.
  apply keeps_bind; [apply keeps_gets|]. intros [items|].
  - apply keeps_check_profileItems.
  - apply keeps_bind; [apply keeps_gets|]. intros ready. destruct ready.
    + apply keeps_bind; [apply keeps_typoCheck|]. intros accepted. apply keeps_ret.
    + apply keeps_ret.
Qed.

Ltac keeps_step :=
  first
    [ apply keeps_ret
    | apply keeps_gets
    | apply keeps_check
    | apply keeps_bind
    | match goal with
      | |- keeps _ (if ?c then _ else _) => destruct c
      | |- keeps _ (match ?x with _ => _ end) => destruct x
      | |- forall _, _ => intro
      end ].

Lemma keeps_camelLoop parts : keeps P (_checkSpellingOfCamelCaseWord_loop parts).
Proof.
  induction parts as [|p rest IH]; cbn [_checkSpellingOfCamelCaseWord_loop].
  - apply keeps_ret.
  - apply keeps_bind; [apply keeps_check|].
    intros r. destruct (falsy r); [apply keeps_ret|exact IH].
Qed.

Lemma keeps_between word character :
  keeps P (_checkSpellingBetweenCharacter word character).
Proof.
  unfold _checkSpellingBetweenCharacter, _checkSpellingOfCamelCaseWord.
  repeat first [apply keeps_camelLoop | keeps_step].
Qed.

Lemma keeps_quoteDetection word : keeps P (quoteDetection word).
Proof.
  unfold quoteDetection.
  repeat first [apply keeps_between | keeps_step].
Qed.

Lemma keeps_afterUppercase word : keeps P (afterUppercase word).
Proof.
  unfold afterUppercase, _checkSpellingOfCamelCaseWord.
  repeat first [apply keeps_quoteDetection | apply keeps_camelLoop | keeps_step].
Qed.

Lemma keeps_hasCorrectSpelling word : keeps P (_hasCorrectSpelling word).
Proof.
  unfold _hasCorrectSpelling.
  repeat first [apply keeps_afterUppercase | keeps_step].
Qed.

Hypothesis P_withSpellChecker : forall f w, P w -> P (withSpellChecker f w).

Lemma keeps_token stream : keeps P (token stream).
Proof.
  intros w r w' Hs. rewrite token_unfold. cbv zeta.
  assert (Hc : P (clearIfDirty w)).
  { unfold clearIfDirty. destruct (lastWordSeparatorDirty w); [|exact Hs].
    apply P_withSpellChecker, P_withSpellChecker, Hs. }
  destruct (negb (_isInitialized w)); [intros [= <- <-]; exact Hc|].
  destruct (isWordSeparator (peek stream)).
  { intros [= <- <-]. apply P_withSpellChecker, Hc. }
  destruct (_hasCorrectSpelling _ (clearIfDirty w)) as [c w1|e] eqn:E; [|discriminate].
  intros [= <- <-]. apply P_withSpellChecker.
  exact (keeps_hasCorrectSpelling _ _ _ _ Hc E).
Qed.

End CheckKeeps.

(** *** What the callbacks of one locale keep *)

Section CallbackKeeps.
Import DictionaryManager.
Variable Typo : string -> option string -> option string -> Lexicon.
Variable P : World -> Prop.
Variable L : string.
Hypothesis P_insert : forall e w, P w -> P (setDictionaries (insert L e) w).
Hypothesis P_delete : forall w, P w -> P (setDictionaries (delete L) w).
Hypothesis P_loaded : forall w, P w -> P (setBeingLoaded (fun s => s ∖ {[L]}) w).
Hypothesis P_withEffect : forall e w, P w -> P (withEffect e w).
Hypothesis P_withSpellChecker : forall f w, P w -> P (withSpellChecker f w).

Lemma keeps_effect e : keeps P (effect e).
Proof. apply keeps_modify. intros w. apply P_withEffect. Qed.

Lemma keeps_trigger n : keeps P (trigger n).
Proof.
  unfold trigger. apply keeps_bind; [apply keeps_effect|]. intros _.
  apply keeps_modify. intros w Hs.
  destruct n; cbn [listeners]; try exact Hs; apply P_withSpellChecker, Hs.
Qed.

Lemma keeps_assignEntry f : keeps P (assignEntry L f).
Proof.
  intros w b w' Hs. unfold assignEntry.
  destruct (dictionaries w !! L) as [e|]; [|discriminate].
  intros [= <- <-]. apply P_insert, Hs.
Qed.

Lemma keeps_unloadDictionary : keeps P (unloadDictionary L).
Proof.
  unfold unloadDictionary. apply keeps_bind; [|intros _; apply keeps_trigger].
  apply keeps_modify, P_delete.
Qed.

Lemma keeps_performTypoInitializationOnLocale :
  keeps P (_performTypoInitializationOnLocale Typo L).
Proof.
  unfold _performTypoInitializationOnLocale.
  apply keeps_bind; [apply keeps_entryOf|]. intros e.
  destruct (JS.isTrue (affixLoaded e) && JS.isTrue (dictionaryLoaded e));
    [|apply keeps_ret].
  repeat first [ apply keeps_effect | apply keeps_assignEntry | apply keeps_trigger
               | apply keeps_modify, P_loaded
               | apply keeps_bind | intro ].
Qed.

Lemma keeps_checkDictionaryForCleanUp : keeps P (_checkDictionaryForCleanUp L).
Proof.
  unfold _checkDictionaryForCleanUp.
  apply keeps_bind; [apply keeps_entryOf|]. intros e.
  destruct (JS.isNull (affixLoaded e) && JS.isNull (dictionaryLoaded e));
    [|apply keeps_ret].
  repeat first [ apply keeps_effect | apply keeps_unloadDictionary | apply keeps_trigger
               | apply keeps_modify, P_loaded
               | apply keeps_bind | intro ].
Qed.

Lemma keeps_affixReadCallback r : keeps P (affixReadCallback Typo L r).
Proof.
  destruct r as [data|]; cbn [affixReadCallback];
    repeat first [ apply keeps_assignEntry
                 | apply keeps_performTypoInitializationOnLocale
                 | apply keeps_checkDictionaryForCleanUp
                 | apply keeps_bind | intro ].
Qed.

Lemma keeps_dictionaryReadCallback r : keeps P (dictionaryReadCallback Typo L r).
Proof.
  destruct r as [data|]; cbn [dictionaryReadCallback];
    repeat first [ apply keeps_assignEntry
                 | apply keeps_performTypoInitializationOnLocale
                 | apply keeps_checkDictionaryForCleanUp
                 | apply keeps_bind | intro ].
Qed.

End CallbackKeeps.

(** ** The registry never holds an initialized entry without a lexicon *)

Section RegistryFacts.
Import DictionaryManager.
Variable Typo : string -> option string -> option string -> Lexicon.

Lemma stable_sym w w' : stable w w' -> stable w' w.
Proof. intros (A1 & A2 & A3 & A4 & A5). repeat split; congruence. Qed.

Lemma sound_stable w w' : stable w w' -> sound w -> sound w'.
Proof. intros (_ & _ & _ & _ & H) Hs n. rewrite H. apply Hs. Qed.

Lemma sound_same_registry w w' :
  dictionaries w' = dictionaries w -> sound w -> sound w'.
Proof. intros H Hs n. unfold readyLexicon. rewrite H. apply Hs. Qed.

Lemma sound_entries w :
  sound w <->
  forall n e, dictionaries w !! n = Some e -> initialized e = true -> typo e <> None.
Proof.
  unfold sound, readyLexicon. split.
  - intros H n e E Hi Ht. apply (H n). rewrite E, Hi, Ht. reflexivity.
  - intros H n. destruct (dictionaries w !! n) as [e|] eqn:E; [|discriminate].
    destruct (initialized e) eqn:Hi; [|discriminate].
    intros [= Ht]. exact (H n e E Hi Ht).
Qed.

Lemma sound_initial : sound initialWorld.
Proof.
  intros n. unfold readyLexicon, dictionaries. cbn. rewrite lookup_empty. discriminate.
Qed.

Lemma sound_delete L w : sound w -> sound (setDictionaries (delete L) w).
Proof.
  rewrite !sound_entries. intros H n e E. apply (H n).
  unfold dictionaries in *. cbn in E.
  apply lookup_delete_Some in E as [_ E]. exact E.
Qed.

Lemma sound_insert L e w :
  (initialized e = true -> typo e <> None) ->
  sound w -> sound (setDictionaries (insert L e) w).
Proof.
  rewrite !sound_entries. intros He H n e' E.
  unfold dictionaries in *. cbn in E.
  apply lookup_insert_Some in E as [[_ <-]|[_ E]]; [exact He|exact (H n e' E)].
Qed.

Lemma keeps_sound_trigger n : keeps sound (trigger n).
Proof.
  unfold trigger. apply keeps_bind.
  - apply keeps_modify. intros w Hs. exact Hs.
  - intros _. apply keeps_modify. intros w Hs. destruct n; exact Hs.
Qed.

Lemma keeps_sound_unloadDictionary L : keeps sound (unloadDictionary L).
Proof.
  unfold unloadDictionary. apply keeps_bind; [|intros _; apply keeps_sound_trigger].
  apply keeps_modify. apply sound_delete.
Qed.

(** An assignment that touches neither [initialized] nor [typo]. *)
Lemma keeps_sound_assignEntry L f :
  (forall e, initialized (f e) = initialized e /\ typo (f e) = typo e) ->
  keeps sound (assignEntry L f).
Proof.
  intros Hf w b w' Hs. unfold assignEntry.
  destruct (dictionaries w !! L) as [e|] eqn:E; [|discriminate].
  intros [= <- <-]. apply sound_insert; [|exact Hs].
  destruct (Hf e) as [-> ->]. exact (proj1 (sound_entries w) Hs L e E).
Qed.

(** [typo] is assigned before [initialized]. *)
Lemma keeps_sound_performTypoInitializationOnLocale L :
  keeps sound (_performTypoInitializationOnLocale Typo L).
Proof.
  intros w b w' Hs. unfold _performTypoInitializationOnLocale, bind, entryOf.
  destruct (dictionaries w !! L) as [e|] eqn:E; [|discriminate].
  destruct (JS.isTrue (affixLoaded e) && JS.isTrue (dictionaryLoaded e)).
  - unfold effect, modify, assignEntry. unfold dictionaries at 1. cbn.
    unfold dictionaries in E. rewrite E.
    unfold dictionaries at 1. cbn. rewrite lookup_insert_eq.
    intros [= <- <-]. apply sound_entries. intros n e'.
    unfold dictionaries. cbn. intros E'.
    apply lookup_insert_Some in E' as [[_ <-]|[_ E']].
    + cbn. discriminate.
    + apply lookup_insert_Some in E' as [[_ <-]|[_ E']].
      * cbn. discriminate.
      * exact (proj1 (sound_entries w) Hs n e' E').
  - intros [= <- <-]. exact Hs.
Qed.

Lemma keeps_sound_checkDictionaryForCleanUp L :
  keeps sound (_checkDictionaryForCleanUp L).
Proof.
  apply keeps_checkDictionaryForCleanUp; intros; try assumption.
  apply sound_delete. assumption.
Qed.

Lemma keeps_sound_affixReadCallback L r : keeps sound (affixReadCallback Typo L r).
Proof.
  destruct r as [data|]; cbn [affixReadCallback].
  - apply keeps_bind; [apply keeps_sound_assignEntry; intros e; split; reflexivity|].
    intros _.
    apply keeps_bind; [apply keeps_sound_assignEntry; intros e; split; reflexivity|].
    intros _. apply keeps_sound_performTypoInitializationOnLocale.
  - apply keeps_bind; [apply keeps_sound_assignEntry; intros e; split; reflexivity|].
    intros _. apply keeps_sound_checkDictionaryForCleanUp.
Qed.

Lemma keeps_sound_dictionaryReadCallback L r :
  keeps sound (dictionaryReadCallback Typo L r).
Proof.
  destruct r as [data|]; cbn [dictionaryReadCallback].
  - apply keeps_bind; [apply keeps_sound_assignEntry; intros e; split; reflexivity|].
    intros _.
    apply keeps_bind; [apply keeps_sound_assignEntry; intros e; split; reflexivity|].
    intros _. apply keeps_sound_performTypoInitializationOnLocale.
  - apply keeps_bind; [apply keeps_sound_assignEntry; intros e; split; reflexivity|].
    intros _. apply keeps_sound_checkDictionaryForCleanUp.
Qed.

Lemma keeps_sound_loadDictionary l : keeps sound (loadDictionary l).
Proof.
  intros w a w' Hs E.
  destruct (loadDictionary_stable l w) as (w1 & E1 & S).
  rewrite E1 in E. injection E as <- <-. exact (sound_stable _ _ S Hs).
Qed.

Lemma keeps_sound_runOp op : keeps sound (runOp Typo op).
Proof.
  destruct op; cbn [runOp].
  - apply keeps_sound_loadDictionary.
  - apply keeps_sound_unloadDictionary.
  - unfold unloadAllDictionaries.
    apply keeps_bind; [|intros _; apply keeps_sound_trigger].
    apply keeps_modify. intros w _ n.
    unfold readyLexicon, dictionaries. cbn. rewrite lookup_empty. discriminate.
  - apply keeps_sound_affixReadCallback.
  - apply keeps_sound_dictionaryReadCallback.
  - apply keeps_bind; [|intros _; apply keeps_ret].
    apply keeps_check, keeps_sound_loadDictionary.
  - apply keeps_bind; [|intros _; apply keeps_ret].
    apply keeps_token; [apply keeps_sound_loadDictionary|].
    intros f w Hs. exact Hs.
Qed.

Lemma Trace_sound w ops w' : Trace Typo w ops w' -> sound w -> sound w'.
Proof.
  induction 1 as [w|op w w1 ops w2 E _ IH|w w1 ops w2 E _ _ IH]; intros Hs.
  - exact Hs.
  - exact (IH (keeps_sound_runOp op w tt w1 Hs E)).
  - exact (IH (sound_same_registry _ _ E Hs)).
Qed.

(** *** Computations that return *)

Lemma returns_ret {A} (a : A) : returns (ret a).
Proof. intros w _. exists a, w. split; [reflexivity|apply stable_refl]. Qed.

Lemma returns_gets {A} (f : World -> A) : returns (gets f).
Proof. intros w _. exists (f w), w. split; [reflexivity|apply stable_refl]. Qed.

Lemma returns_bind {A B} (m : M A) (k : A -> M B) :
  returns m -> (forall a, returns (k a)) -> returns (bind m k).
Proof.
  intros Hm Hk w Hs. destruct (Hm w Hs) as (a & w1 & E & S).
  destruct (Hk a w1 (sound_stable _ _ S Hs)) as (b & w2 & E2 & S2).
  exists b, w2. unfold bind. rewrite E. split; [exact E2|].
  eapply stable_trans; eassumption.
Qed.

Lemma profileVerdict_sound w word items :
  sound w -> profileVerdict (readyLexicon w) word items <> None.
Proof.
  intros Hs. induction items as [|it rest IH]; cbn [profileVerdict]; [discriminate|].
  pose proof (Hs (ProfileManager.name it)) as Hn.
  destruct (readyLexicon w (ProfileManager.name it)) as [[t|]|];
    [|contradiction|exact IH].
  destruct (lex_check t word); [discriminate|exact IH].
Qed.

Lemma checkVerdict_sound w word l : sound w -> checkVerdict w word l <> None.
Proof.
  intros Hs. unfold checkVerdict. cbv zeta.
  destruct (if ProfileManager.hasProfile _ _ then _ else _) as [items|].
  - apply profileVerdict_sound, Hs.
  - match goal with |- context [readyLexicon w ?n] =>
      pose proof (Hs n) as Hn; destruct (readyLexicon w n) as [[t|]|] end;
      [discriminate|contradiction|discriminate].
Qed.

Lemma returns_check word l : returns (check word l).
Proof.
  intros w Hs. destruct (check_spec word l w) as [Hv Hp].
  pose proof (checkVerdict_sound w word l Hs) as Hn.
  destruct (check word l w) as [r w'|e]; cbn in Hv.
  - exists r, w'. split; [reflexivity|]. exact (Hp r w' eq_refl).
  - rewrite <- Hv in Hn. contradiction.
Qed.

End RegistryFacts.

(** Decomposes a goal [returns m] along the structure of [m]. *)
Ltac returns_step :=
  first
    [ apply returns_ret
    | apply returns_gets
    | apply returns_check
    | apply returns_bind
    | match goal with
      | |- returns (if ?c then _ else _) => destruct c
      | |- returns (match ?x with _ => _ end) => destruct x
      | |- forall _, _ => intro
      end ].

Section ReturnFacts.
Import JS StringUtils SpellChecker.
Variable Typo : string -> option string -> option string -> Lexicon.

Lemma returns_camelLoop parts : returns (_checkSpellingOfCamelCaseWord_loop parts).
Proof.
  induction parts as [|p rest IH]; cbn [_checkSpellingOfCamelCaseWord_loop].
  - apply returns_ret.
  - apply returns_bind; [apply returns_check|].
    intros r. destruct (falsy r); [apply returns_ret|exact IH].
Qed.

Lemma returns_between word character :
  returns (_checkSpellingBetweenCharacter word character).
Proof.
  unfold _checkSpellingBetweenCharacter, _checkSpellingOfCamelCaseWord.
  repeat first [apply returns_camelLoop | returns_step].
Qed.

Lemma returns_quoteDetection word : returns (quoteDetection word).
Proof.
  unfold quoteDetection.
  repeat first [apply returns_between | returns_step].
Qed.

Lemma returns_afterUppercase word : returns (afterUppercase word).
Proof.
  unfold afterUppercase, _checkSpellingOfCamelCaseWord.
  repeat first [apply returns_quoteDetection | apply returns_camelLoop | returns_step].
Qed.

Lemma returns_hasCorrectSpelling word : returns (_hasCorrectSpelling word).
Proof.
  unfold _hasCorrectSpelling.
  repeat first [apply returns_afterUppercase | returns_step].
Qed.

Lemma token_returns stream w :
  sound w -> exists r w', token stream w = Ok r w'.
Proof.
  intros Hs. rewrite token_unfold. cbv zeta.
  assert (Hc : sound (clearIfDirty w)).
  { unfold clearIfDirty. destruct (lastWordSeparatorDirty w); exact Hs. }
  destruct (negb (_isInitialized w)); [eauto|].
  destruct (isWordSeparator (peek stream)); [eauto|].
  destruct (returns_hasCorrectSpelling (fst (scanWord stream)) _ Hc)
    as (c & w1 & -> & _).
  eauto.
Qed.

(** X13.  In every world the program can reach -- whatever was loaded or
    unloaded, whichever reads failed, in whatever order -- [check] and the
    overlay's [token] return: neither meets an initialized entry whose
    [typo] is [null], the fault that [suggest] runs into. *)
Theorem check_and_token_never_fault ops w word localeName stream :
  Trace Typo initialWorld ops w ->
  (exists r w', DictionaryManager.check word localeName w = Ok r w')
  /\ (exists r w', token stream w = Ok r w').
Proof.
  intros H. apply Trace_sound in H; [|apply sound_initial]. split.
  - destruct (returns_check word localeName w H) as (r & w' & E & _). eauto.
  - apply token_returns, H.
Qed.

End ReturnFacts.

(** The en_US load ends with one read failed; [suggest] faults in the
    world it leaves, [check] and [token] return. *)
Lemma check_and_token_never_fault_witness :
  exists w,
    Trace Fixtures.wordListTypo initialWorld
      [OpLoadDictionary "en_US";
       OpAffixRead "en_US" DictionaryManager.ReadError;
       OpCheck "helo" None;
       OpDictionaryRead "en_US" (DictionaryManager.ReadOk "the quick fox")] w
    /\ DictionaryManager.suggest "helo" None w = Throw TypeError
    /\ (exists r w', DictionaryManager.check "helo" None w = Ok r w')
    /\ (exists r w', SpellChecker.token "helo wrld" w = Ok r w').
Proof.
  assert (T : { w | Trace Fixtures.wordListTypo initialWorld
                      [OpLoadDictionary "en_US";
                       OpAffixRead "en_US" DictionaryManager.ReadError;
                       OpCheck "helo" None;
                       OpDictionaryRead "en_US"
                         (DictionaryManager.ReadOk "the quick fox")] w
                    /\ DictionaryManager.suggest "helo" None w = Throw TypeError }).
  { eexists. split.
    - eapply trace_op; [vm_compute; reflexivity|].
      eapply trace_op; [vm_compute; reflexivity|].
      eapply trace_op; [vm_compute; reflexivity|].
      eapply trace_op; [vm_compute; reflexivity|].
      apply trace_done.
    - vm_compute. reflexivity. }
  destruct T as [w [T S]]. exists w. split; [exact T|]. split; [exact S|].
  exact (check_and_token_never_fault Fixtures.wordListTypo _ w "helo" None "helo wrld" T).
Defined.

(** ** Loads that never end *)

Section LoadFacts.
Import DictionaryManager.
Variable Typo : string -> option string -> option string -> Lexicon.
Variable L : string.

Lemma stuck_spec w :
  stuck L w = true <-> L ∈ beingLoaded w /\ hasDictionary L true w = false.
Proof.
  unfold stuck, isBeingLoaded.
  rewrite andb_true_iff, bool_decide_eq_true, negb_true_iff. reflexivity.
Qed.

Lemma known_spec l w :
  known l w = true
  <-> l ∈ beingLoaded w
      \/ ProfileManager.hasProfile (profileManager w) l = true
      \/ is_Some (dictionaries w !! l).
Proof.
  unfold known, isBeingLoaded, hasDictionary.
  rewrite !orb_true_iff, bool_decide_eq_true.
  destruct (dictionaries w !! l) as [e|]; cbn.
  - split; [intros _|intros _; right; reflexivity]. right. right. eauto.
  - split.
    + intros [[H|H]|H]; [left; exact H|right; left; exact H|discriminate H].
    + intros [H|[H|[x H]]]; [left; left; exact H|left; right; exact H|discriminate H].
Qed.

Lemma loadDictionary_known_eq l w :
  loadDictionary l w = Ok tt (if known l w then w else startLoading l w).
Proof.
  unfold loadDictionary, known, isBeingLoaded, bind, gets, ret.
  destruct (bool_decide (l ∈ beingLoaded w)); [reflexivity|].
  cbn [orb].
  destruct (ProfileManager.hasProfile (profileManager w) l || hasDictionary l false w);
    reflexivity.
Qed.

Lemma stuck_loadDictionary l : keeps (fun w => stuck L w = true) (loadDictionary l).
Proof.
  intros w a w' Hs E. apply stuck_spec. apply stuck_spec in Hs as [Hb Hh].
  destruct (loadDictionary_cases l w) as [H|[Hn H]]; rewrite H in E;
    injection E as <- <-; [split; assumption|].
  destruct (decide (l = L)) as [->|Hne].
  - rewrite (loadDictionary_known L w (or_introl Hb)) in H.
    injection H as <-. split; assumption.
  - split.
    + unfold beingLoaded, startLoading. cbn. apply elem_of_union. left. exact Hb.
    + unfold hasDictionary, startLoading, dictionaries in *. cbn.
      rewrite lookup_insert_ne by exact Hne. exact Hh.
Qed.

Lemma stuck_insert M e w :
  M <> L -> stuck L w = true -> stuck L (setDictionaries (insert M e) w) = true.
Proof.
  intros Hne Hs. apply stuck_spec. apply stuck_spec in Hs as [Hb Hh].
  split; [exact Hb|].
  unfold hasDictionary, dictionaries in *. cbn.
  rewrite lookup_insert_ne by exact Hne. exact Hh.
Qed.

Lemma stuck_delete M w :
  stuck L w = true -> stuck L (setDictionaries (delete M) w) = true.
Proof.
  intros Hs. apply stuck_spec. apply stuck_spec in Hs as [Hb Hh].
  split; [exact Hb|].
  unfold hasDictionary, dictionaries in *. cbn.
  destruct (decide (M = L)) as [->|Hne].
  - rewrite lookup_delete_eq. reflexivity.
  - rewrite lookup_delete_ne by exact Hne. exact Hh.
Qed.

Lemma stuck_loaded M w :
  M <> L -> stuck L w = true -> stuck L (setBeingLoaded (fun s => s ∖ {[M]}) w) = true.
Proof.
  intros Hne Hs. apply stuck_spec. apply stuck_spec in Hs as [Hb Hh].
  split; [|exact Hh].
  unfold beingLoaded in *. cbn. apply elem_of_difference. split; [exact Hb|].
  intros Hin. apply elem_of_singleton in Hin. congruence.
Qed.

Lemma stuck_runOp op :
  readOf op <> Some L -> keeps (fun w => stuck L w = true) (runOp Typo op).
Proof.
  intros Hop. destruct op; cbn [runOp].
  - apply stuck_loadDictionary.
  - apply keeps_unloadDictionary; intros; try assumption. apply stuck_delete. assumption.
  - unfold unloadAllDictionaries. apply keeps_bind.
    + apply keeps_modify. intros w Hs. apply stuck_spec.
      apply stuck_spec in Hs as [Hb _]. split; [exact Hb|].
      unfold hasDictionary, dictionaries. cbn. rewrite lookup_empty. reflexivity.
    + intros _. apply keeps_trigger; intros; assumption.
  - assert (Hne : localeName <> L) by (intros ->; apply Hop; reflexivity).
    apply keeps_affixReadCallback; intros; try assumption.
    + apply stuck_insert; assumption.
    + apply stuck_delete; assumption.
    + apply stuck_loaded; assumption.
  - assert (Hne : localeName <> L) by (intros ->; apply Hop; reflexivity).
    apply keeps_dictionaryReadCallback; intros; try assumption.
    + apply stuck_insert; assumption.
    + apply stuck_delete; assumption.
    + apply stuck_loaded; assumption.
  - apply keeps_bind; [|intros _; apply keeps_ret].
    apply keeps_check, stuck_loadDictionary.
  - apply keeps_bind; [|intros _; apply keeps_ret].
    apply keeps_token; [apply stuck_loadDictionary|].
    intros f w Hs. exact Hs.
Qed.

(** X14.  A locale that is marked as being loaded and is not ready stays
    so for the rest of the run, unless one of its own two reads still
    completes: every other operation, for this locale or another, leaves it
    stuck, and [loadDictionary] for it does nothing. *)
Theorem stuck_locale_stays_stuck w ops w' :
  stuck L w = true ->
  Trace Typo w ops w' ->
  Forall (fun op => readOf op <> Some L) ops ->
  stuck L w' = true /\ loadDictionary L w' = Ok tt w'.
Proof.
  intros Hs Ht Hops.
  assert (H : stuck L w' = true).
  { induction Ht as [w|op w w1 ops w2 E _ IH|w w1 ops w2 Ed Eb _ IH].
    - exact Hs.
    - inversion Hops as [|? ? Hop Hrest]; subst.
      exact (IH (stuck_runOp op Hop w tt w1 Hs E) Hrest).
    - apply IH; [|exact Hops]. apply stuck_spec.
      apply stuck_spec in Hs as [Hb Hh]. split.
      + rewrite Eb. exact Hb.
      + unfold hasDictionary in *. rewrite Ed. exact Hh. }
  split; [exact H|]. apply loadDictionary_known. left. apply stuck_spec, H.
Qed.

(** The world [startLoading L w], one callback at a time. *)
Ltac run_callbacks :=
  unfold runLoad, loadStep, affixReadCallback, dictionaryReadCallback,
    _performTypoInitializationOnLocale, _checkDictionaryForCleanUp,
    unloadDictionary, trigger, assignEntry, entryOf, effect, modify, ret, bind;
  repeat (unfold dictionaries at 1; cbn; rewrite lookup_insert_eq); cbn.

Lemma loadDictionary_unknown w :
  known L w = false -> loadDictionary L w = Ok tt (startLoading L w).
Proof. intros Hk. rewrite loadDictionary_known_eq, Hk. reflexivity. Qed.

(** X15.  Once the profiles have been read: a load of a locale that
    [loadDictionary] does not know, of which exactly one read fails, is
    neither completed nor cleaned up.  In whatever order the two results
    arrive, the locale ends up marked as being loaded, with an entry in
    the registry that is not initialized, has no Typo instance, and has
    [null] for the half that failed. *)
Theorem half_failed_load_gets_stuck w data first second :
  ProfileManager._initialized (profileManager w) = true ->
  known L w = false ->
  oneFails data first second ->
  exists w' e,
    runLoad Typo L [LoadRequested; first; second] w = Ok tt w'
    /\ stuck L w' = true
    /\ dictionaries w' !! L = Some e
    /\ initialized e = false
    /\ typo e = None
    /\ (affixLoaded e = None \/ dictionaryLoaded e = None).
Proof.
  intros _ Hk H.
  cbn [runLoad]. unfold bind at 1. cbn [loadStep].
  rewrite (loadDictionary_unknown w Hk).
  destruct H as [[-> ->]|[[-> ->]|[[-> ->]|[-> ->]]]].
  all: unfold startLoading; run_callbacks.
  all: eexists _, _; split; [reflexivity|].
  all: split;
    [apply stuck_spec;
     split; [unfold beingLoaded; cbn; apply elem_of_union; right;
             apply elem_of_singleton; reflexivity|];
     unfold hasDictionary, dictionaries; cbn; rewrite lookup_insert_eq; reflexivity|].
  all: split; [unfold dictionaries; cbn; apply lookup_insert_eq|].
  all: cbn; split; [reflexivity|]; split; [reflexivity|].
  all: first [left; reflexivity | right; reflexivity].
Qed.

(** X16.  [unloadDictionary] and [unloadAllDictionaries] leave
    [_dictionariesBeingLoaded] alone: when a locale is unloaded while it
    loads, it is stuck, and each of its two reads, when it completes, ends
    in a [TypeError]. *)
Theorem unload_during_load_gets_stuck w m :
  isBeingLoaded L w = true ->
  m = unloadDictionary L \/ m = unloadAllDictionaries ->
  exists w', m w = Ok tt w'
    /\ stuck L w' = true
    /\ (forall r, affixReadCallback Typo L r w' = Throw TypeError)
    /\ (forall r, dictionaryReadCallback Typo L r w' = Throw TypeError).
Proof.
  intros Hb. apply bool_decide_eq_true in Hb.
  intros [-> | ->]; eexists; (split; [reflexivity|]).
  - split; [|split].
    + apply stuck_spec. split; [exact Hb|]. unfold hasDictionary, dictionaries. cbn.
      rewrite lookup_delete_eq. reflexivity.
    + intros r. destruct r; unfold affixReadCallback, bind, assignEntry, dictionaries;
        cbn; rewrite lookup_delete_eq; reflexivity.
    + intros r. destruct r; unfold dictionaryReadCallback, bind, assignEntry, dictionaries;
        cbn; rewrite lookup_delete_eq; reflexivity.
  - split; [|split].
    + apply stuck_spec. split; [exact Hb|]. unfold hasDictionary, dictionaries. cbn.
      rewrite lookup_empty. reflexivity.
    + intros r. destruct r; unfold affixReadCallback, bind, assignEntry, dictionaries;
        cbn; rewrite lookup_empty; reflexivity.
    + intros r. destruct r; unfold dictionaryReadCallback, bind, assignEntry, dictionaries;
        cbn; rewrite lookup_empty; reflexivity.
Qed.

(** *** From a request to an answer *)

(** X17.  Load, then check.  Once the profiles have been read: when
    [loadDictionary] is asked for a locale it does not know and both reads
    succeed, in either order, the gate of the overlay is open and [check]
    for that locale answers what the Typo instance built from the two
    files answers. *)
Theorem load_then_check w a d first second word :
  ProfileManager._initialized (profileManager w) = true ->
  known L w = false ->
  bothSucceed a d first second ->
  exists w', runLoad Typo L [LoadRequested; first; second] w = Ok tt w'
    /\ SpellChecker._isInitialized w' = true
    /\ check word (Some L) w'
       = Ok (Some (lex_check (Typo L (Some a) (Some d)) word)) w'.
Proof.
  intros _ Hk H.
  assert (Ep : ProfileManager.hasProfile (profileManager w) L = false).
  { unfold known in Hk. apply orb_false_iff in Hk as [Hk _].
    apply orb_false_iff in Hk as [_ Hk]. exact Hk. }
  cbn [runLoad]. unfold bind at 1. cbn [loadStep].
  rewrite (loadDictionary_unknown w Hk).
  destruct H as [[-> ->]|[-> ->]].
  all: unfold startLoading; run_callbacks.
  all: eexists; split; [reflexivity|].
  all: split; [reflexivity|].
  all: unfold check, typoCheck, hasDictionary, entryOf, bind, gets, ret; cbn.
  all: rewrite Ep; unfold dictionaries; cbn; repeat (rewrite lookup_insert_eq; cbn).
  all: reflexivity.
Qed.

End LoadFacts.

Lemma stuck_locale_stays_stuck_witness :
  stuck "en_US" enUS_half_loaded = true
  /\ exists w',
       Trace Fixtures.wordListTypo enUS_half_loaded
         [OpLoadDictionary "en_US"; OpCheck "fox" None; OpUnloadAllDictionaries;
          OpLoadDictionary "fr_FR"; OpLoadDictionary "en_US"] w'
       /\ stuck "en_US" w' = true
       /\ DictionaryManager.loadDictionary "en_US" w' = Ok tt w'.
Proof.
  split; [vm_compute; reflexivity|].
  assert (T : { w' | Trace Fixtures.wordListTypo enUS_half_loaded
                       [OpLoadDictionary "en_US"; OpCheck "fox" None; OpUnloadAllDictionaries;
                        OpLoadDictionary "fr_FR"; OpLoadDictionary "en_US"] w' }).
  { eexists.
    eapply trace_op; [vm_compute; reflexivity|].
    eapply trace_op; [vm_compute; reflexivity|].
    eapply trace_op; [vm_compute; reflexivity|].
    eapply trace_op; [vm_compute; reflexivity|].
    eapply trace_op; [vm_compute; reflexivity|].
    apply trace_done. }
  destruct T as [w' T]. exists w'. split; [exact T|].
  apply (stuck_locale_stays_stuck Fixtures.wordListTypo "en_US" enUS_half_loaded
           [OpLoadDictionary "en_US"; OpCheck "fox" None; OpUnloadAllDictionaries;
            OpLoadDictionary "fr_FR"; OpLoadDictionary "en_US"] w').
  - vm_compute. reflexivity.
  - exact T.
  - repeat constructor; discriminate.
Defined.

Lemma half_failed_load_gets_stuck_witness :
  ProfileManager._initialized (profileManager my_en_at_startup) = true
  /\ known "en_US" my_en_at_startup = false
  /\ exists w' e,
       runLoad Fixtures.wordListTypo "en_US"
         [LoadRequested;
          DictionaryRead (DictionaryManager.ReadOk "the quick fox");
          AffixRead DictionaryManager.ReadError] my_en_at_startup = Ok tt w'
       /\ stuck "en_US" w' = true
       /\ DictionaryManager.dictionaries w' !! "en_US" = Some e
       /\ initialized e = false
       /\ typo e = None
       /\ (affixLoaded e = None \/ dictionaryLoaded e = None).
Proof.
  split; [reflexivity|]. split; [reflexivity|].
  apply (half_failed_load_gets_stuck Fixtures.wordListTypo "en_US" my_en_at_startup
           "the quick fox").
  - reflexivity.
  - reflexivity.
  - right. left. split; reflexivity.
Defined.

Lemma unload_during_load_gets_stuck_witness :
  isBeingLoaded "en_US" Fixtures.enUS_loading = true
  /\ exists w',
       DictionaryManager.unloadDictionary "en_US" Fixtures.enUS_loading = Ok tt w'
       /\ stuck "en_US" w' = true
       /\ (forall r, DictionaryManager.affixReadCallback Fixtures.wordListTypo "en_US" r w'
                     = Throw TypeError)
       /\ (forall r, DictionaryManager.dictionaryReadCallback Fixtures.wordListTypo
                       "en_US" r w'
                     = Throw TypeError).
Proof.
  split; [vm_compute; reflexivity|].
  apply (unload_during_load_gets_stuck Fixtures.wordListTypo "en_US" Fixtures.enUS_loading).
  - vm_compute. reflexivity.
  - left. reflexivity.
Defined.

Lemma load_then_check_witness :
  ProfileManager._initialized (profileManager my_en_at_startup) = true
  /\ known "fr_FR" my_en_at_startup = false
  /\ exists w',
       runLoad Fixtures.wordListTypo "fr_FR"
         [LoadRequested;
          DictionaryRead (DictionaryManager.ReadOk "le chat noir");
          AffixRead (DictionaryManager.ReadOk "SET UTF-8")] my_en_at_startup
       = Ok tt w'
       /\ SpellChecker._isInitialized w' = true
       /\ DictionaryManager.check "chat" (Some "fr_FR") w'
          = Ok (Some (lex_check (Fixtures.wordListTypo "fr_FR" (Some "SET UTF-8")
                                   (Some "le chat noir")) "chat")) w'.
Proof.
  split; [reflexivity|]. split; [reflexivity|].
  apply (load_then_check Fixtures.wordListTypo "fr_FR" my_en_at_startup
           "SET UTF-8" "le chat noir").
  - reflexivity.
  - reflexivity.
  - right. split; reflexivity.
Defined.

(** ** The verdict on a word does not depend on the words checked before *)

Section RespectFacts.
Import JS StringUtils SpellChecker.

Lemma respects_ret {A} (a : A) : respects (ret a).
Proof. intros w w' _. reflexivity. Qed.

Lemma respects_gets {A} (f : World -> A) :
  (forall w w', stable w w' -> f w' = f w) -> respects (gets f).
Proof. intros Hf w w' Hs. unfold gets. cbn. rewrite (Hf w w' Hs). reflexivity. Qed.

Lemma respects_bind {A B} (m : M A) (k : A -> M B) :
  respects m -> preserves m -> (forall a, respects (k a)) -> respects (bind m k).
Proof.
  intros Hm Hp Hk w w' Hs. unfold bind.
  pose proof (Hm w w' Hs) as Hv.
  destruct (m w) as [a w1|e] eqn:E; destruct (m w') as [a' w1'|e'] eqn:E';
    cbn in Hv; try discriminate Hv; [|reflexivity].
  injection Hv as ->.
  apply Hk. eapply stable_trans; [apply stable_sym, (Hp w a w1 E)|].
  eapply stable_trans; [exact Hs|]. exact (Hp w' a w1' E').
Qed.

Lemma respects_check word l : respects (DictionaryManager.check word l).
Proof. intros w w' Hs. rewrite !check_value. apply checkVerdict_stable, Hs. Qed.

Ltac respects_step :=
  first
    [ apply respects_ret
    | apply respects_check
    | apply respects_bind
    | apply preserves_ret
    | apply check_preserves
    | match goal with
      | |- respects (if ?c then _ else _) => destruct c
      | |- respects (match ?x with _ => _ end) => destruct x
      | |- preserves (if ?c then _ else _) => destruct c
      | |- forall _, _ => intro
      end ].

Lemma respects_camelLoop parts : respects (_checkSpellingOfCamelCaseWord_loop parts).
Proof.
  induction parts as [|p rest IH]; cbn [_checkSpellingOfCamelCaseWord_loop].
  - apply respects_ret.
  - apply respects_bind; [apply respects_check|apply check_preserves|].
    intros r. destruct (falsy r); [apply respects_ret|exact IH].
Qed.

Lemma respects_between word character :
  respects (_checkSpellingBetweenCharacter word character).
Proof.
  unfold _checkSpellingBetweenCharacter, _checkSpellingOfCamelCaseWord.
  apply respects_bind.
  - repeat first [apply respects_camelLoop | apply camelLoop_preserves | respects_step].
  - repeat first [apply camelLoop_preserves | preserves_step].
  - intros [[|]|]; apply respects_ret.
Qed.

Lemma respects_quoteDetection word : respects (quoteDetection word).
Proof.
  unfold quoteDetection.
  repeat first [apply respects_between | apply between_preserves | respects_step].
Qed.

Lemma respects_afterUppercase word : respects (afterUppercase word).
Proof.
  unfold afterUppercase, _checkSpellingOfCamelCaseWord.
  repeat first [apply respects_quoteDetection | apply quoteDetection_preserves
               | apply respects_camelLoop | apply camelLoop_preserves | respects_step].
Qed.

Lemma respects_hasCorrectSpelling word : respects (_hasCorrectSpelling word).
Proof.
  unfold _hasCorrectSpelling.
  destruct (_isCommonTerm word); [apply respects_ret|].
  destruct (negb (parseFloat_isNaN word)); [apply respects_ret|].
  apply respects_bind.
  - apply respects_gets. intros w w' (_ & _ & _ & -> & _). reflexivity.
  - apply preserves_gets.
  - intros ignoreUpper.
    repeat first [apply respects_afterUppercase | respects_step].
Qed.

(** X18.  The verdict of [_hasCorrectSpelling] on a word does not depend
    on the words tested before it: testing a word may start loads, but
    changes nothing that a later test reads. *)
Theorem spelling_verdict_ignores_history other word w r w1 :
  _hasCorrectSpelling other w = Ok r w1 ->
  valueOf (_hasCorrectSpelling word w1) = valueOf (_hasCorrectSpelling word w).
Proof.
  intros E. apply respects_hasCorrectSpelling.
  exact (hasCorrectSpelling_preserves other w r w1 E).
Qed.

End RespectFacts.

(** Testing [colour] against the profile starts the en_GB load; the
    verdict on [fox] is the same before and after. *)
Lemma spelling_verdict_ignores_history_witness :
  SpellChecker._hasCorrectSpelling "colour" my_en_selected
  = Ok (Some false)
       (Fixtures.orInitial (worldOf (SpellChecker._hasCorrectSpelling "colour"
                                       my_en_selected)))
  /\ isBeingLoaded "en_GB" my_en_selected = false
  /\ isBeingLoaded "en_GB"
       (Fixtures.orInitial (worldOf (SpellChecker._hasCorrectSpelling "colour"
                                       my_en_selected))) = true
  /\ valueOf (SpellChecker._hasCorrectSpelling "fox"
                (Fixtures.orInitial (worldOf (SpellChecker._hasCorrectSpelling "colour"
                                                my_en_selected))))
     = valueOf (SpellChecker._hasCorrectSpelling "fox" my_en_selected).
Proof.
  split; [vm_compute; reflexivity|]. split; [vm_compute; reflexivity|].
  split; [vm_compute; reflexivity|].
  apply (spelling_verdict_ignores_history "colour" "fox" my_en_selected (Some false)).
  vm_compute. reflexivity.
Defined.

(** ** Profiles *)

Section ProfileFacts.
Import DictionaryManager SpellChecker.

Lemma known_loadDictionary n l :
  keeps (fun w => known n w = true) (loadDictionary l).
Proof.
  intros w a w' Hk E. rewrite loadDictionary_known_eq in E. injection E as <- <-.
  destruct (known l w); [exact Hk|].
  apply known_spec. apply known_spec in Hk as [Hb|[Hp|Hd]].
  - left. unfold beingLoaded, startLoading. cbn. apply elem_of_union. left. exact Hb.
  - right. left. exact Hp.
  - right. right. unfold startLoading, dictionaries in *. cbn.
    destruct (decide (l = n)) as [->|Hne].
    + rewrite lookup_insert_eq. eauto.
    + rewrite lookup_insert_ne by exact Hne. exact Hd.
Qed.

Lemma loadDictionary_makes_known l w w' :
  loadDictionary l w = Ok tt w' -> known l w' = true.
Proof.
  rewrite loadDictionary_known_eq. intros [= <-].
  destruct (known l w) eqn:Ek; [exact Ek|].
  apply known_spec. left. unfold beingLoaded. cbn. apply elem_of_union. right.
  apply elem_of_singleton. reflexivity.
Qed.

Lemma check_profileItems_requests word items : forall w w',
  check_profileItems word items w = Ok (Some false) w' ->
  Forall (fun item => known (ProfileManager.name item) w' = true) items.
Proof.
  induction items as [|it rest IH]; intros w w'; [constructor|].
  rewrite check_profileItems_cons.
  destruct (hasDictionary (ProfileManager.name it) true w) eqn:Eh.
  - rewrite typoCheck_lookup.
    destruct (dictionaries w !! ProfileManager.name it) as [e|] eqn:Ed; [|discriminate].
    destruct (typo e) as [t|]; [|discriminate].
    destruct (lex_check t word); [discriminate|].
    intros E. constructor; [|exact (IH w w' E)].
    refine (keeps_check_profileItems _ (known_loadDictionary _) word rest w _ w' _ E).
    apply known_spec. right. right. rewrite Ed. eauto.
  - destruct (loadDictionary (ProfileManager.name it) w) as [[] w1|e] eqn:El;
      [|discriminate].
    intros E. constructor; [|exact (IH w1 w' E)].
    refine (keeps_check_profileItems _ (known_loadDictionary _) word rest w1 _ w' _ E).
    exact (loadDictionary_makes_known _ _ _ El).
Qed.

(** X19.  A word that [check] rejects for a profile has been put to
    every dictionary of the profile: each one that was not ready has been
    requested, so that after the call every item of the profile is in the
    registry or being loaded (or is itself the name of a profile). *)
Theorem rejected_word_requests_the_whole_profile w P items word w' :
  ProfileManager.getProfileItems (profileManager w) P = Some items ->
  check word (Some P) w = Ok (Some false) w' ->
  Forall (fun item => known (ProfileManager.name item) w' = true) items.
Proof.
  intros Hi. unfold check, bind, gets.
  assert (Hp : ProfileManager.hasProfile (profileManager w) P = true).
  { unfold ProfileManager.getProfileItems in Hi.
    destruct (ProfileManager._initialized (profileManager w)); [|discriminate Hi].
    destruct (ProfileManager.hasProfile (profileManager w) P); [reflexivity|].
    discriminate Hi. }
  rewrite Hp, Hi. apply check_profileItems_requests.
Qed.

Lemma loadDictionary_profile l w :
  ProfileManager.hasProfile (profileManager w) l = true ->
  loadDictionary l w = Ok tt w.
Proof.
  intros H. unfold loadDictionary, bind, gets, ret.
  destruct (bool_decide (l ∈ beingLoaded w)); [reflexivity|].
  rewrite H. reflexivity.
Qed.

Lemma tokens_behind_a_closed_gate streams : forall w,
  _isInitialized w = false ->
  exists rs w', tokens streams w = Ok rs w'
    /\ Forall (fun r => action r = Skipped /\ style r = None) rs
    /\ _isInitialized w' = false
    /\ dictionaries w' = dictionaries w
    /\ beingLoaded w' = beingLoaded w
    /\ effects w' = effects w.
Proof.
  induction streams as [|s rest IH]; intros w Hg.
  - exists [], w. split; [reflexivity|]. split; [constructor|].
    split; [exact Hg|]. repeat split.
  - assert (Hc : _isInitialized (clearIfDirty w) = false
                 /\ dictionaries (clearIfDirty w) = dictionaries w
                 /\ beingLoaded (clearIfDirty w) = beingLoaded w
                 /\ effects (clearIfDirty w) = effects w).
    { unfold clearIfDirty. destruct (lastWordSeparatorDirty w); repeat split; exact Hg. }
    destruct Hc as (Hg' & Hd & Hb & He).
    destruct (IH (clearIfDirty w) Hg') as (rs & w' & E & HF & Hg2 & Hd2 & Hb2 & He2).
    cbn [tokens]. unfold bind at 1. rewrite token_unfold. cbv zeta. rewrite Hg.
    cbn [negb]. unfold bind at 1. rewrite E.
    eexists _, w'. split; [reflexivity|].
    split; [constructor; [split; reflexivity|exact HF]|].
    split; [exact Hg2|]. split; [congruence|]. split; congruence.
Qed.

(** X20.  While the gate of the overlay is closed, selecting a profile
    loads nothing: [setLocaleName] with the name of a profile starts no
    read, and however many lines CodeMirror then has tokenized, every call
    has skipped its line, no dictionary of the profile has been requested
    and the gate is still closed. *)
Theorem profile_is_not_loaded_behind_a_closed_gate w P streams :
  ProfileManager.hasProfile (profileManager w) P = true ->
  _isInitialized w = false ->
  exists rs w',
    (do! setLocaleName P in tokens streams) w = Ok rs w'
    /\ Forall (fun r => action r = Skipped /\ style r = None) rs
    /\ _isInitialized w' = false
    /\ dictionaries w' = dictionaries w
    /\ beingLoaded w' = beingLoaded w
    /\ effects w' = effects w.
Proof.
  intros Hp Hg.
  assert (E : exists w0, setLocaleName P w = Ok tt w0
                /\ _isInitialized w0 = false
                /\ dictionaries w0 = dictionaries w
                /\ beingLoaded w0 = beingLoaded w
                /\ effects w0 = effects w).
  { unfold setLocaleName, setVars, setDefaultLocale, modify, bind.
    eexists. split; [apply loadDictionary_profile; exact Hp|].
    repeat split. exact Hg. }
  destruct E as (w0 & E & Hg0 & Hd0 & Hb0 & He0).
  destruct (tokens_behind_a_closed_gate streams w0 Hg0)
    as (rs & w' & Et & HF & Hg2 & Hd2 & Hb2 & He2).
  exists rs, w'. unfold bind. rewrite E. split; [exact Et|].
  split; [exact HF|]. split; [exact Hg2|]. split; [congruence|]. split; congruence.
Qed.

End ProfileFacts.

Lemma rejected_word_requests_the_whole_profile_witness :
  ProfileManager.getProfileItems (profileManager my_en_selected) "my_en"
  = Some [Fixtures.british; Fixtures.american]
  /\ known "en_GB" my_en_selected = false
  /\ DictionaryManager.check "colour" (Some "my_en") my_en_selected
     = Ok (Some false)
          (Fixtures.orInitial
             (worldOf (DictionaryManager.check "colour" (Some "my_en") my_en_selected)))
  /\ Forall (fun item =>
               known (ProfileManager.name item)
                 (Fixtures.orInitial
                    (worldOf (DictionaryManager.check "colour" (Some "my_en")
                                my_en_selected))) = true)
       [Fixtures.british; Fixtures.american].
Proof.
  split; [reflexivity|]. split; [vm_compute; reflexivity|].
  split; [vm_compute; reflexivity|].
  apply (rejected_word_requests_the_whole_profile my_en_selected "my_en"
           [Fixtures.british; Fixtures.american] "colour").
  - reflexivity.
  - vm_compute. reflexivity.
Defined.

Lemma profile_is_not_loaded_behind_a_closed_gate_witness :
  ProfileManager.hasProfile (profileManager my_en_at_startup) "my_en" = true
  /\ SpellChecker._isInitialized my_en_at_startup = false
  /\ exists rs w',
       (do! SpellChecker.setLocaleName "my_en" in tokens ["teh colour"; "of teh fox"])
         my_en_at_startup = Ok rs w'
       /\ Forall (fun r => SpellChecker.action r = SpellChecker.Skipped
                           /\ SpellChecker.style r = None) rs
       /\ SpellChecker._isInitialized w' = false
       /\ DictionaryManager.dictionaries w' = DictionaryManager.dictionaries my_en_at_startup
       /\ DictionaryManager.beingLoaded w' = DictionaryManager.beingLoaded my_en_at_startup
       /\ effects w' = effects my_en_at_startup.
Proof.
  split; [reflexivity|]. split; [reflexivity|].
  apply (profile_is_not_loaded_behind_a_closed_gate my_en_at_startup "my_en"
           ["teh colour"; "of teh fox"]); reflexivity.
Defined.

(** ** The context menu and the overlay of EditorManager.js *)

Section EditorFacts.
Import EditorManager.

(** X21.  When the default locale has no entry in the registry -- it is
    the name of a profile, or its load has failed -- opening the context
    menu on a valid selection that carries the error style ends in a
    [TypeError]: [suggest] returns [null] to the handler, and at the fault
    the busy indicator has been shown and has not been hidden, nothing else
    having happened. *)
Theorem context_menu_faults_without_an_entry w line selectedText :
  containsWordSeparator selectedText = false ->
  DictionaryManager.dictionaries w !! DictionaryManager.getDefaultLocale w = None ->
  exists w',
    _handleContextMenuOpen 1 line line selectedText true w = Faulted TypeError w'
    /\ SpellChecker.suggest selectedText (withEffect ShowBusyIndicator w) = Ok None w'
    /\ effects w' = effects w ++ [ShowBusyIndicator]
    /\ ~ In HideBusyIndicator (skipn (length (effects w)) (effects w')).
Proof.
  intros Hs Hd.
  assert (E : SpellChecker.suggest selectedText (withEffect ShowBusyIndicator w)
              = Ok None (withEffect ShowBusyIndicator w)).
  { unfold SpellChecker.suggest, DictionaryManager.suggest, gets,
      DictionaryManager.hasDictionary, bind.
    change (DictionaryManager.dictionaries (withEffect ShowBusyIndicator w))
      with (DictionaryManager.dictionaries w).
    change (DictionaryManager.getDefaultLocale (withEffect ShowBusyIndicator w))
      with (DictionaryManager.getDefaultLocale w).
    rewrite Hd. reflexivity. }
  exists (withEffect ShowBusyIndicator w). split; [|split; [exact E|split]].
  - unfold _handleContextMenuOpen, _isValidSelection. rewrite Hs, !Nat.eqb_refl.
    cbn [negb]. cbv zeta. rewrite E. reflexivity.
  - reflexivity.
  - cbn [effects withEffect]. rewrite skipn_app, skipn_all, Nat.sub_diag.
    cbn. intros [H|[]]. discriminate H.
Qed.

Lemma removeFirst_count l :
  existsb (fun o => o) l = true ->
  S (length (List.filter (fun o => o) (removeFirst l)))
  = length (List.filter (fun o => o) l)
  /\ List.filter negb (removeFirst l) = List.filter negb l.
Proof.
  induction l as [|[|] l IH]; cbn; [discriminate| |].
  - intros _. split; reflexivity.
  - intros H. destruct (IH H) as [IH1 IH2]. split; [exact IH1|].
    rewrite IH2. reflexivity.
Qed.

Lemma no_overlay_count l :
  existsb (fun o => o) l = false -> length (List.filter (fun o => o) l) = 0.
Proof.
  induction l as [|[|] l IH]; cbn; [reflexivity|discriminate|exact IH].
Qed.

Lemma has_overlay_count l :
  existsb (fun o => o) l = true -> 0 < length (List.filter (fun o => o) l).
Proof.
  induction l as [|[|] l IH]; cbn; [discriminate|lia|exact IH].
Qed.

Lemma addOverlay_count l :
  length (List.filter (fun o => o) (l ++ [true]))
  = S (length (List.filter (fun o => o) l))
  /\ List.filter negb (l ++ [true]) = List.filter negb l.
Proof.
  induction l as [|[|] l [IH1 IH2]]; cbn.
  - split; reflexivity.
  - rewrite IH1. split; [reflexivity|exact IH2].
  - rewrite IH2. split; [exact IH1|reflexivity].
Qed.

(** X22.  [updateInterface] on an editor that has at most one spell-check
    overlay leaves it with exactly one when spell checking is enabled and
    with none when it is disabled, whether or not a refresh was requested;
    the other overlays are left as they are, and the mode name of the
    editor has been passed on to the ignore rules. *)
Theorem updateInterface_installs_the_overlay_when_enabled
    enabled cm requested w :
  spellCheckOverlays cm <= 1 ->
  exists cm' w',
    updateInterface enabled (Some (cm, requested)) w = Ok (Some cm') w'
    /\ spellCheckOverlays cm' = (if enabled then 1 else 0)
    /\ List.filter negb (overlays cm') = List.filter negb (overlays cm)
    /\ UtilityManager._currentModeName (utilityManager w') = Some (modeName cm).
Proof.
  unfold spellCheckOverlays. intros Hle.
  unfold updateInterface, _isValidMode, _editorHasSpellCheckOverlay, addIfMissing,
    bind, SpellChecker.setModeName, SpellChecker.setVars, modify, ret.
  cbn [negb orb andb].
  destruct (existsb (fun o => o) (overlays cm)) eqn:Eo.
  - destruct (removeFirst_count _ Eo) as [Hc Hf].
    pose proof (has_overlay_count _ Eo) as Hpos.
    assert (Hz : length (List.filter (fun o => o) (removeFirst (overlays cm))) = 0)
      by lia.
    destruct requested, enabled; cbn [negb orb andb];
      eexists _, _; (split; [reflexivity|]); cbn [overlays removeOverlay addOverlay
        setStyleSelectedText refresh];
      repeat split;
      rewrite ?(proj1 (addOverlay_count _)), ?(proj2 (addOverlay_count _));
      try lia; try exact Hf.
  - pose proof (no_overlay_count _ Eo) as Hz.
    destruct requested, enabled; cbn [negb orb andb];
      eexists _, _; (split; [reflexivity|]); cbn [overlays removeOverlay addOverlay
        setStyleSelectedText refresh];
      repeat split;
      rewrite ?(proj1 (addOverlay_count _)), ?(proj2 (addOverlay_count _));
      try lia; try reflexivity.
Qed.

End EditorFacts.

(** With the profile [my_en] as the locale the overlay flags [colour],
    and the context menu on it faults. *)
Lemma context_menu_faults_without_an_entry_witness :
  EditorManager.containsWordSeparator "colour" = false
  /\ DictionaryManager.dictionaries my_en_selected
       !! DictionaryManager.getDefaultLocale my_en_selected = None
  /\ SpellChecker.style (tokenResult "colour" my_en_selected)
     = Some SpellChecker.errorStyle
  /\ exists w',
       EditorManager._handleContextMenuOpen 1 7 7 "colour" true my_en_selected
       = EditorManager.Faulted TypeError w'
       /\ SpellChecker.suggest "colour" (withEffect ShowBusyIndicator my_en_selected)
          = Ok None w'
       /\ effects w' = effects my_en_selected ++ [ShowBusyIndicator]
       /\ ~ In HideBusyIndicator
              (skipn (length (effects my_en_selected)) (effects w')).
Proof.
  split; [reflexivity|]. split; [vm_compute; reflexivity|].
  split; [vm_compute; reflexivity|].
  apply (context_menu_faults_without_an_entry my_en_selected 7 "colour").
  - reflexivity.
  - vm_compute. reflexivity.
Defined.

Lemma updateInterface_installs_the_overlay_when_enabled_witness :
  EditorManager.spellCheckOverlays phpEditor <= 1
  /\ exists cm' w',
       EditorManager.updateInterface false (Some (phpEditor, false)) initialWorld
       = Ok (Some cm') w'
       /\ EditorManager.spellCheckOverlays cm' = 0
       /\ List.filter negb (EditorManager.overlays cm')
          = List.filter negb (EditorManager.overlays phpEditor)
       /\ UtilityManager._currentModeName (utilityManager w')
          = Some (EditorManager.modeName phpEditor).
Proof.
  split; [vm_compute; lia|].
  apply (updateInterface_installs_the_overlay_when_enabled false phpEditor false
           initialWorld).
  vm_compute. lia.
Defined.

(** ** The user profiles *)

Section ProfileFileFacts.
Import ProfileFiles.

Lemma findUserProfiles_snoc reads r :
  _findUserProfiles (reads ++ [r]) = profileRead (_findUserProfiles reads) r.
Proof. unfold _findUserProfiles. rewrite fold_left_app. reflexivity. Qed.

Lemma lastUsable_snoc n reads r :
  lastUsable n (reads ++ [r])
  = if usable r && named n r then r else lastUsable n reads.
Proof.
  unfold lastUsable. rewrite rev_app_distr. cbn [rev app List.find].
  destruct (usable r && named n r); reflexivity.
Qed.

Lemma findUserProfiles_lookup n reads :
  _findUserProfiles reads !! n
  = option_map (fun p => {| ProfileManager.profile := parsed_profile p;
                            ProfileManager.items :=
                              map withDefaultType (parsed_items p) |})
      (lastUsable n reads).
Proof.
  induction reads as [|r reads IH] using rev_ind.
  - unfold _findUserProfiles, lastUsable. cbn. apply lookup_empty.
  - rewrite findUserProfiles_snoc, lastUsable_snoc.
    destruct r as [p|]; cbn [profileRead usable named andb]; [|exact IH].
    destruct (length (parsed_items p) =? 0)%nat; cbn [negb andb]; [exact IH|].
    destruct (String.eqb (parsed_profile p) n) eqn:En.
    + apply String.eqb_eq in En. subst n. rewrite lookup_insert_eq. reflexivity.
    + apply String.eqb_neq in En. rewrite lookup_insert_ne by exact En. exact IH.
Qed.

Lemma existsb_rev {A} (f : A -> bool) l : existsb f (rev l) = existsb f l.
Proof.
  induction l as [|a l IH]; [reflexivity|].
  cbn [rev existsb]. rewrite existsb_app, IH. cbn [existsb].
  rewrite orb_false_r. apply orb_comm.
Qed.

Lemma lastUsable_usable n reads p :
  lastUsable n reads = Some p ->
  parsed_profile p = n /\ parsed_items p <> [] /\ In (Some p) reads.
Proof.
  unfold lastUsable.
  destruct (List.find _ (rev reads)) as [r|] eqn:E; [|discriminate].
  intros ->. apply find_some in E as [Hin Hu].
  apply andb_true_iff in Hu as [Hu Hn]. cbn in Hu, Hn.
  split; [apply String.eqb_eq, Hn|]. split.
  - intros Hnil. rewrite Hnil in Hu. discriminate Hu.
  - apply in_rev. exact Hin.
Qed.

(** X23.  After start-up, the profile registered under a name is the last
    profile file that was read, has that name and has at least one item;
    its items are the items of the file, with the type ["dictionary"]
    where the file gives none.  A file without items registers nothing,
    and a name without such a file is no profile. *)
Theorem user_profiles_are_the_usable_files reads st n :
  ProfileManager.getProfileItems (_initialize reads st) n
  = option_map (fun p => map withDefaultType (parsed_items p)) (lastUsable n reads)
  /\ ProfileManager.hasProfile (_initialize reads st) n
     = existsb (fun r => usable r && named n r) reads
  /\ match lastUsable n reads with
     | Some p => parsed_profile p = n /\ parsed_items p <> [] /\ In (Some p) reads
     | None => True
     end.
Proof.
  split; [|split].
  - unfold ProfileManager.getProfileItems, ProfileManager.hasProfile, _initialize,
      ProfileManager.userProfilesFound. cbn. rewrite findUserProfiles_lookup.
    destruct (lastUsable n reads); reflexivity.
  - unfold ProfileManager.hasProfile, _initialize, ProfileManager.userProfilesFound.
    cbn. rewrite findUserProfiles_lookup. unfold lastUsable.
    rewrite <- (existsb_rev _ reads).
    induction (rev reads) as [|r l IH]; [reflexivity|].
    cbn [List.find existsb]. destruct (usable r && named n r) eqn:E.
    + destruct r as [p|]; [reflexivity|discriminate E].
    + exact IH.
  - destruct (lastUsable n reads) as [p|] eqn:E; [|exact I].
    exact (lastUsable_usable n reads p E).
Qed.

End ProfileFileFacts.

(** ** The paths of the dictionary files *)

Section PathFacts.

Lemma append_cancel_l p a b : String.append p a = String.append p b -> a = b.
Proof.
  induction p as [|c p IH]; [exact (fun H => H)|].
  intros H. apply IH.
  change (String c (String.append p a) = String c (String.append p b)) in H.
  injection H as H. exact H.
Qed.

Lemma append_same_length a b x y :
  String.length a = String.length b ->
  String.append a x = String.append b y -> a = b /\ x = y.
Proof.
  revert b. induction a as [|c a IH]; intros [|d b] Hl H; try discriminate Hl.
  - split; [reflexivity|exact H].
  - change (String c (String.append a x) = String d (String.append b y)) in H.
    injection H as -> H. injection Hl as Hl.
    destruct (IH b Hl H) as [-> ->]. split; reflexivity.
Qed.

Lemma append_assoc_string a b c :
  String.append (String.append a b) c = String.append a (String.append b c).
Proof.
  induction a as [|x a IH]; [reflexivity|].
  change (String x (String.append (String.append a b) c)
          = String x (String.append a (String.append b c))).
  rewrite IH. reflexivity.
Qed.

Lemma filePath_inj appSupport n n' e e' :
  String.length e = String.length e' ->
  Dictionary._getDictionaryFilePath appSupport n e
  = Dictionary._getDictionaryFilePath appSupport n' e' ->
  n = n' /\ e = e'.
Proof.
  intros He H. unfold Dictionary._getDictionaryFilePath in H.
  apply append_cancel_l in H.
  change (String "/" (String.append n (String.append "/"
            (String.append n (String.append "." e))))
          = String "/" (String.append n' (String.append "/"
            (String.append n' (String.append "." e'))))) in H.
  injection H as H.
  assert (Hl : String.length n = String.length n').
  { apply (f_equal String.length) in H. rewrite !length_append in H.
    cbn [String.length] in H. lia. }
  destruct (append_same_length _ _ _ _ Hl H) as [-> H1]. split; [reflexivity|].
  change (String "/" (String.append n' (String.append "." e))
          = String "/" (String.append n' (String.append "." e'))) in H1.
  injection H1 as H1. apply append_cancel_l in H1.
  change (String "." e = String "." e') in H1. injection H1 as H1. exact H1.
Qed.

(** X24.  The paths of the files of two locales are the same only for
    the same locale, and no affix path is a dictionary path: two loads
    never read the same file.  The paths that [FileRead] records are these
    paths, relative to the directory of the dictionary extension. *)
Theorem dictionary_paths_are_distinct appSupport l l' :
  (Dictionary.getAffixFile appSupport l = Dictionary.getAffixFile appSupport l'
   <-> l = l')
  /\ (Dictionary.getDictionaryFile appSupport l
      = Dictionary.getDictionaryFile appSupport l' <-> l = l')
  /\ Dictionary.getAffixFile appSupport l <> Dictionary.getDictionaryFile appSupport l'
  /\ Dictionary.getAffixFile appSupport l
     = Paths.getDictionaryPath appSupport (DictionaryManager.getAffixFile l)
  /\ Dictionary.getDictionaryFile appSupport l
     = Paths.getDictionaryPath appSupport (DictionaryManager.getDictionaryFile l).
Proof.
  split; [|split; [|split; [|split]]].
  - split; [|intros ->; reflexivity].
    intros H. exact (proj1 (filePath_inj _ _ _ _ _ eq_refl H)).
  - split; [|intros ->; reflexivity].
    intros H. exact (proj1 (filePath_inj _ _ _ _ _ eq_refl H)).
  - intros H. destruct (filePath_inj appSupport l l' "aff" "dic" eq_refl H) as [_ H'].
    discriminate H'.
  - unfold Dictionary.getAffixFile, Dictionary._getDictionaryFilePath,
      Dictionary.getNaturalLanguageDirectory, Paths.getDictionaryPath,
      DictionaryManager.getAffixFile, DictionaryManager._getDictionaryFilePath,
      DictionaryManager.getNaturalLanguageDirectory.
    rewrite !append_assoc_string. reflexivity.
  - unfold Dictionary.getDictionaryFile, Dictionary._getDictionaryFilePath,
      Dictionary.getNaturalLanguageDirectory, Paths.getDictionaryPath,
      DictionaryManager.getDictionaryFile, DictionaryManager._getDictionaryFilePath,
      DictionaryManager.getNaturalLanguageDirectory.
    rewrite !append_assoc_string. reflexivity.
Qed.

End PathFacts.

(** ** [trimChar] *)

Section TrimFacts.
Import JS StringUtils.

Lemma dropLeading_run c s :
  exists n, s = String.append (run c n) (dropLeading c s)
    /\ forall r, dropLeading c s <> String c r.
Proof.
  induction s as [|a s (n & E & H)].
  - exists 0. split; [reflexivity|]. intros r. discriminate.
  - cbn [dropLeading]. destruct (Ascii.eqb a c) eqn:Ea.
    + apply Ascii.eqb_eq in Ea. subst a. exists (S n). split; [|exact H].
      cbn [run]. change (String c s = String c (String.append (run c n) (dropLeading c s))).
      rewrite <- E. reflexivity.
    + exists 0. split; [reflexivity|]. intros r [= -> _].
      rewrite Ascii.eqb_refl in Ea. discriminate Ea.
Qed.

Lemma run_snoc c n :
  String.append (run c n) (String c EmptyString) = String c (run c n).
Proof.
  induction n as [|n IH]; [reflexivity|].
  cbn [run]. change (String c (String.append (run c n) (String c "")) = String c (String c (run c n))).
  rewrite IH. reflexivity.
Qed.

Lemma dropTrailing_run c s :
  exists m, s = String.append (dropTrailing c s) (run c m)
    /\ (forall p, dropTrailing c s <> String.append p (String c EmptyString))
    /\ (forall a r, s = String a r -> a <> c ->
          exists r', dropTrailing c s = String a r').
Proof.
  induction s as [|a s (m & E & H & _)].
  - exists 0. split; [reflexivity|]. split.
    + intros [|b p]; discriminate.
    + intros a r Hs. discriminate Hs.
  - cbn [dropTrailing]. destruct (dropTrailing c s) as [|b t] eqn:Ed.
    + destruct (Ascii.eqb a c) eqn:Ea.
      * apply Ascii.eqb_eq in Ea. subst a. exists (S m). split; [|split].
        -- change (String c s = String c (run c m)).
           rewrite E. reflexivity.
        -- intros [|b p]; discriminate.
        -- intros a r [= <- _] Hne. contradiction.
      * exists m. split; [|split].
        -- change (String a s = String a (String.append EmptyString (run c m))).
           rewrite <- E. reflexivity.
        -- intros [|b [|b' p]]; try discriminate.
           intros [= ->]. rewrite Ascii.eqb_refl in Ea. discriminate Ea.
        -- intros a' r [= <- _] _. eauto.
    + exists m. split; [|split].
      * change (String a s = String a (String.append (String b t) (run c m))).
        rewrite <- E. reflexivity.
      * intros [|b' p]; [discriminate|].
        intros [= _ Hp]. exact (H p Hp).
      * intros a' r [= <- _] _. eauto.
Qed.

(** X25.  For an ASCII [char] that is no syntax character of regular
    expressions, [trimChar(string, char)] returns the string without a run
    of [char] at its start and a run at its end, and what it returns
    neither starts nor ends with [char]. *)
Theorem trimChar_strips_both_ends s c :
  isAscii c = true ->
  isSyntaxCharacter c = false ->
  (exists n m,
     s = String.append (run c n) (String.append (trimChar s c) (run c m)))
  /\ (forall r, trimChar s c <> String c r)
  /\ (forall p, trimChar s c <> String.append p (String c EmptyString)).
Proof.
  intros _ _. unfold trimChar.
  destruct (dropLeading_run c s) as (n & En & Hn).
  destruct (dropTrailing_run c (dropLeading c s)) as (m & Em & Hm & Hs).
  split; [|split].
  - exists n, m. rewrite <- Em. exact En.
  - intros r Hr. destruct (dropLeading c s) as [|a t] eqn:Ed; [discriminate Hr|].
    destruct (Ascii.eqb a c) eqn:Ea.
    + apply Ascii.eqb_eq in Ea. subst a. exact (Hn t eq_refl).
    + destruct (Hs a t eq_refl) as (r' & Hr').
      { intros ->. rewrite Ascii.eqb_refl in Ea. discriminate Ea. }
      rewrite Hr' in Hr. injection Hr as -> _.
      rewrite Ascii.eqb_refl in Ea. discriminate Ea.
  - exact Hm.
Qed.

End TrimFacts.

Lemma trimChar_strips_both_ends_witness :
  JS.isAscii StringUtils.squote = true
  /\ JS.isSyntaxCharacter StringUtils.squote = false
  /\ StringUtils.trimChar "''it's''" StringUtils.squote = "it's"
  /\ (exists n m,
        "''it's''"
        = String.append (run StringUtils.squote n)
            (String.append (StringUtils.trimChar "''it's''" StringUtils.squote)
               (run StringUtils.squote m)))
  /\ (forall r, StringUtils.trimChar "''it's''" StringUtils.squote
                <> String StringUtils.squote r)
  /\ (forall p, StringUtils.trimChar "''it's''" StringUtils.squote
                <> String.append p (String StringUtils.squote EmptyString)).
Proof.
  split; [reflexivity|]. split; [reflexivity|]. split; [reflexivity|].
  apply (trimChar_strips_both_ends "''it's''" StringUtils.squote); reflexivity.
Defined.
